(** * A model of the trading client (src/trading_client.go)

    The client is a thin HTTP/JSON layer: every endpoint builds a request
    ([newRequest]), sends it and classifies the response ([doRequest]) and
    unwraps a JSON envelope.  The file embeds that code in Gallina, together
    with the parts of the Go libraries it calls ([strings], [strconv],
    [encoding/json], [net/http], [github.com/pkg/errors]), and proves the
    properties of the marshalling and error-classification pipeline.

    Go values are modelled as the code has them: a [string] and a [[]byte]
    are byte strings, an [int] is in [Z], a [float64] is a binary64
    [float], a slice is an [option (list T)] ([None] is the [nil] slice), an
    [error] is an [option error_value] ([None] is [nil]).  What the client
    does to the world is kept in a trace: the requests it hands to the HTTP
    client, the inputs it gives to [json.Unmarshal], the bodies it closes.

    The types of the package that are declared in other files (the
    instrument, the order, ...) are parameters, as are the parser of
    [net/url], the clock format and the network. *)

From Stdlib Require Import ZArith NArith List String Ascii Bool Lia Permutation.
From Stdlib Require Import PrimFloat SpecFloat FloatOps FloatAxioms.
Import ListNotations.
Local Open Scope string_scope.
Local Open Scope Z_scope.

Set Implicit Arguments.
Set Warnings "-register-all".

(** ** Byte strings *)

Definition byte_code (c : ascii) : N := N_of_ascii c.
Definition byte_of (n : N) : ascii := ascii_of_N n.

(** The double quote, and [qq]: a text in which every apostrophe stands for
    a double quote, so that JSON texts can be written down as literals. *)
Definition dquote : ascii := Eval cbv in byte_of 34.

Fixpoint qq (s : string) : string :=
  match s with
  | EmptyString => EmptyString
  | String c r => String (if Ascii.eqb c "'" then dquote else c) (qq r)
  end.

(** What a fallible step yields: a value or the cause of the failure. *)
Inductive result (A E : Type) : Type :=
| Ok (a : A)
| Err (e : E).
Arguments Ok {A E} a.
Arguments Err {A E} e.

Module strings.

(** [strings.HasPrefix]. *)
Fixpoint HasPrefix (s prefix : string) {struct prefix} : bool :=
  match prefix, s with
  | EmptyString, _ => true
  | String p prefix', String c s' => Ascii.eqb c p && HasPrefix s' prefix'
  | String _ _, EmptyString => false
  end.

(** [strings.Contains]. *)
Fixpoint Contains (s substr : string) : bool :=
  HasPrefix s substr
  || match s with
     | EmptyString => false
     | String _ s' => Contains s' substr
     end.

(** [substr] occurs in [s]: the specification of [Contains]. *)
Definition Occurs (substr s : string) : Prop :=
  exists before after, s = before ++ substr ++ after.

(** [strings.ToLower] and [strings.ToUpper] on the ASCII letters. *)
Definition is_upper (c : ascii) : bool :=
  (65 <=? byte_code c)%N && (byte_code c <=? 90)%N.
Definition is_lower (c : ascii) : bool :=
  (97 <=? byte_code c)%N && (byte_code c <=? 122)%N.
Definition is_digit (c : ascii) : bool :=
  (48 <=? byte_code c)%N && (byte_code c <=? 57)%N.
Definition upper_byte (c : ascii) : ascii :=
  if is_lower c then byte_of (byte_code c - 32) else c.
Definition lower_byte (c : ascii) : ascii :=
  if is_upper c then byte_of (byte_code c + 32) else c.

Fixpoint map_bytes (f : ascii -> ascii) (s : string) : string :=
  match s with
  | EmptyString => EmptyString
  | String c s' => String (f c) (map_bytes f s')
  end.

Fixpoint forallb_bytes (p : ascii -> bool) (s : string) : bool :=
  match s with
  | EmptyString => true
  | String c s' => p c && forallb_bytes p s'
  end.

Fixpoint Repeat (c : ascii) (n : nat) : string :=
  match n with
  | O => EmptyString
  | S n' => String c (Repeat c n')
  end.

End strings.

Module strconv.

(** The decimal digits of a non-negative number, most significant first.
    [fuel] bounds the number of digits. *)
Fixpoint digits_fuel (fuel : nat) (n : N) (acc : string) : string :=
  match fuel with
  | O => acc
  | S fuel' =>
      let acc' := String (byte_of (48 + n mod 10)) acc in
      if (n <? 10)%N then acc' else digits_fuel fuel' (n / 10)%N acc'
  end.

Definition FormatUint (n : N) : string :=
  digits_fuel (S (N.to_nat (N.log2 n))) n EmptyString.

(** The number that a string of decimal digits writes. *)
Fixpoint decimal_value (s : string) : N :=
  match s with
  | EmptyString => 0
  | String c r =>
      ((byte_code c - 48) * 10 ^ N.of_nat (String.length r) + decimal_value r)%N
  end.

(** [strconv.Itoa], which is also what the verb [%d] prints. *)
Definition Itoa (i : Z) : string :=
  match i with
  | Zneg p => String "-" (FormatUint (Npos p))
  | _ => FormatUint (Z.to_N i)
  end.

(** *** Shortest decimal of a [float64]

    A finite non-zero binary64 number is [m * 2^e].  The reals that round
    to it lie between the midpoints to its two neighbours, and the
    midpoints themselves round to it when [m] is even.  Numbers are kept
    as numerators over [2^(e-2)], so that both midpoints are integers. *)

Definition prec : Z := 53.
Definition emin : Z := -1074.

Definition lower_bound (m e : Z) : Z :=
  if (m =? 2 ^ (prec - 1)) && (emin <? e) then 4 * m - 1 else 4 * m - 2.
Definition upper_bound (m : Z) : Z := 4 * m + 2.

(** The digits [D] of the candidate at decimal position [p] (the value
    is [D * 10^p]) when truncating or rounding up at that position stays
    between the bounds; both allowed, the nearer one, and on a tie the
    even one. *)
Definition round_at (m e p : Z) : option Z :=
  let a := 2 ^ Z.max (e - 2) 0 * 10 ^ Z.max (- p) 0 in
  let b := 2 ^ Z.max (2 - e) 0 * 10 ^ Z.max p 0 in
  let f := 4 * m * a in
  let lower := lower_bound m e * a in
  let upper := upper_bound m * a in
  let inclusive := Z.even m in
  let down := f / b in
  let up := down + 1 in
  let okdown := (lower <? down * b) || inclusive && (lower =? down * b) in
  let okup := (up * b <? upper) || inclusive && (up * b =? upper) in
  match okdown, okup with
  | true, true =>
      let twice := 2 * f in
      let mid := (2 * down + 1) * b in
      if twice <? mid then Some down
      else if mid <? twice then Some up
      else Some (if Z.even down then down else up)
  | true, false => Some down
  | false, true => Some up
  | false, false => None
  end.

(** The first position, from [p] downwards, at which a candidate exists:
    the shortest digits that read back as the same number. *)
Fixpoint shortest_from (fuel : nat) (m e p : Z) : Z * Z :=
  match fuel with
  | O => (4 * m * 2 ^ Z.max (e - 2) 0, p)
  | S fuel' =>
      match round_at m e p with
      | Some d => (d, p)
      | None => shortest_from fuel' m e (p - 1)
      end
  end.

Definition shortest (m e : Z) : Z * Z := shortest_from 700 m e 310.

(** Format ['f'] with precision [-1]: the digits [d] with the decimal
    point [- p] places from the right. *)
Definition fmtF (d p : Z) : string :=
  let ds := FormatUint (Z.to_N d) in
  let nd := Z.of_nat (String.length ds) in
  if 0 <=? p then ds ++ strings.Repeat "0" (Z.to_nat p)
  else
    let dp := nd + p in
    if 0 <? dp
    then substring 0 (Z.to_nat dp) ds ++ "."
         ++ substring (Z.to_nat dp) (Z.to_nat (- p)) ds
    else "0." ++ strings.Repeat "0" (Z.to_nat (- dp)) ++ ds.

(** Format ['e'] with precision [-1]: one digit, the others after a
    point, and the exponent with a sign and at least two digits. *)
Definition fmtE (d p : Z) : string :=
  let ds := FormatUint (Z.to_N d) in
  let nd := Z.of_nat (String.length ds) in
  let exp := nd + p - 1 in
  let es := FormatUint (Z.to_N (Z.abs exp)) in
  substring 0 1 ds
  ++ (if 1 <? nd then "." ++ substring 1 (Z.to_nat (nd - 1)) ds else "")
  ++ "e" ++ (if exp <? 0 then "-" else "+")
  ++ (if Z.abs exp <? 10 then "0" else "") ++ es.

(** [strconv.FormatFloat(f, fmt, -1, 64)] for [fmt] one of ['e'], ['f']
    and ['g'], on the value [Prim2SF] reads off a [float].  Format ['g']
    is ['e'] for a decimal exponent below -4 or from 6, else ['f']. *)
Definition FormatFloat (f : float) (fmt : ascii) : string :=
  match Prim2SF f with
  | S754_nan => "NaN"
  | S754_infinity s => if s then "-Inf" else "+Inf"
  | S754_zero s =>
      (if s then "-" else "") ++ (if Ascii.eqb fmt "e" then "0e+00" else "0")
  | S754_finite s m e =>
      let (d, p) := shortest (Zpos m) e in
      let exp := Z.of_nat (String.length (FormatUint (Z.to_N d))) + p - 1 in
      (if s then "-" else "")
      ++ (if Ascii.eqb fmt "e"
             || Ascii.eqb fmt "g" && ((exp <? -4) || (6 <=? exp))
          then fmtE d p else fmtF d p)
  end.

(** [Quote] on a text of printable ASCII bytes: the text between quotes,
    with a backslash before each quote and each backslash. *)
Fixpoint quote_bytes (s : string) : string :=
  match s with
  | EmptyString => EmptyString
  | String c r =>
      if Ascii.eqb c dquote || Ascii.eqb c "\"
      then String "\" (String c (quote_bytes r))
      else String c (quote_bytes r)
  end.

Definition Quote (s : string) : string :=
  String dquote (quote_bytes s ++ String dquote EmptyString).

End strconv.

(** ** UTF-8 and UTF-16, as package [unicode/utf8] and [unicode/utf16] *)

Module utf8.

Definition RuneError : N := 65533.   (* U+FFFD *)

Definition in_range (lo hi : N) (c : ascii) : bool :=
  (lo <=? byte_code c)%N && (byte_code c <=? hi)%N.

Definition is_cont : ascii -> bool := in_range 128 191.

(** The width in bytes of the well-formed encoding that starts [s], and [0]
    when [s] does not start with one ([utf8.DecodeRune] then reports
    [RuneError] with width 1). *)
Definition rune_len (s : string) : nat :=
  match s with
  | EmptyString => 0
  | String c0 r =>
      let b0 := byte_code c0 in
      if (b0 <? 128)%N then 1
      else if (b0 <? 194)%N then 0
      else if (b0 <? 224)%N then
        match r with
        | String c1 _ => if is_cont c1 then 2 else 0
        | _ => 0
        end
      else if (b0 <? 240)%N then
        match r with
        | String c1 (String c2 _) =>
            let lo := if (b0 =? 224)%N then 160%N else 128%N in
            let hi := if (b0 =? 237)%N then 159%N else 191%N in
            if in_range lo hi c1 && is_cont c2 then 3 else 0
        | _ => 0
        end
      else if (b0 <? 245)%N then
        match r with
        | String c1 (String c2 (String c3 _)) =>
            let lo := if (b0 =? 240)%N then 144%N else 128%N in
            let hi := if (b0 =? 244)%N then 143%N else 191%N in
            if in_range lo hi c1 && is_cont c2 && is_cont c3 then 4 else 0
        | _ => 0
        end
      else 0
  end%nat.

(** [utf8.EncodeRune]: surrogates and values above U+10FFFF are written as
    U+FFFD. *)
Definition EncodeRune (r : N) : string :=
  let r := if ((55296 <=? r) && (r <=? 57343) || (1114111 <? r))%N
           then RuneError else r in
  if (r <? 128)%N then String (byte_of r) EmptyString
  else if (r <? 2048)%N then
    String (byte_of (192 + r / 64))
      (String (byte_of (128 + r mod 64)) EmptyString)
  else if (r <? 65536)%N then
    String (byte_of (224 + r / 4096))
      (String (byte_of (128 + (r / 64) mod 64))
         (String (byte_of (128 + r mod 64)) EmptyString))
  else
    String (byte_of (240 + r / 262144))
      (String (byte_of (128 + (r / 4096) mod 64))
         (String (byte_of (128 + (r / 64) mod 64))
            (String (byte_of (128 + r mod 64)) EmptyString))).

End utf8.

Module utf16.

Definition IsSurrogate (r : N) : bool := ((55296 <=? r) && (r <? 57344))%N.

(** [utf16.DecodeRune]: the code point of a surrogate pair, U+FFFD when
    the two halves do not form one. *)
Definition DecodeRune (r1 r2 : N) : N :=
  if ((55296 <=? r1) && (r1 <? 56320) && (56320 <=? r2) && (r2 <? 57344))%N
  then ((r1 - 55296) * 1024 + (r2 - 56320) + 65536)%N
  else utf8.RuneError.

End utf16.

(** ** Package [encoding/json]: syntax *)

Module json.

(** A JSON text, as the scanner of [encoding/json] reads it.  A number
    keeps its literal; the members of an object keep their order and their
    duplicates; a string is held unquoted. *)
Inductive value : Type :=
| Null
| Bool (b : bool)
| Number (lit : string)
| Str (s : string)
| Array (elems : list value)
| Object (members : list (string * value)).

(** The number of objects and arrays inside one another in a value. *)
Fixpoint nesting (v : value) : N :=
  match v with
  | Array elems => 1 + fold_right (fun e m => N.max (nesting e) m) 0%N elems
  | Object members =>
      1 + fold_right (fun kv m => N.max (nesting (snd kv)) m) 0%N members
  | _ => 0
  end.

Definition is_space (c : ascii) : bool :=
  let b := byte_code c in
  ((b =? 32) || (b =? 9) || (b =? 13) || (b =? 10))%N.

Fixpoint skip_space (s : string) : string :=
  match s with
  | String c r => if is_space c then skip_space r else s
  | EmptyString => s
  end.

Definition is_hex (c : ascii) : bool :=
  strings.is_digit c || utf8.in_range 97 102 c || utf8.in_range 65 70 c.

Definition unhex (c : ascii) : N :=
  let b := byte_code c in
  if strings.is_digit c then (b - 48)%N
  else if utf8.in_range 97 102 c then (b - 87)%N
  else (b - 55)%N.

(** [getu4]: the value of four hexadecimal digits. *)
Definition u4 (h1 h2 h3 h4 : ascii) : N :=
  (((unhex h1 * 16 + unhex h2) * 16 + unhex h3) * 16 + unhex h4)%N.

(** States of the scanner inside a string literal. *)
Inductive in_string : Type :=
| InString              (* stateInString *)
| InStringEsc           (* stateInStringEsc: after a backslash *)
| InStringEscU (n : nat) (* n more hexadecimal digits of \uXXXX to come *).

(** The scanner from the byte after an opening quote: the literal's raw
    contents and what follows the closing quote. *)
Fixpoint scan_string (st : in_string) (s : string) : option (string * string) :=
  match s with
  | EmptyString => None
  | String c r =>
      let keep st' :=
        match scan_string st' r with
        | Some (raw, rest) => Some (String c raw, rest)
        | None => None
        end in
      match st with
      | InString =>
          if Ascii.eqb c dquote then Some (EmptyString, r)
          else if Ascii.eqb c "\" then keep InStringEsc
          else if (byte_code c <? 32)%N then None
          else keep InString
      | InStringEsc =>
          if Ascii.eqb c "u" then keep (InStringEscU 4)
          else if existsb (Ascii.eqb c)
                    [dquote; "\"; "/"; "b"; "f"; "n"; "r"; "t"]%char
          then keep InString
          else None
      | InStringEscU n =>
          if is_hex c
          then keep (match n with
                     | S (S n') => InStringEscU (S n')
                     | _ => InString
                     end)
          else None
      end
  end.

(** The byte an escape letter stands for. *)
Definition unescape_byte (e : ascii) : ascii :=
  if Ascii.eqb e "b" then byte_of 8
  else if Ascii.eqb e "f" then byte_of 12
  else if Ascii.eqb e "n" then byte_of 10
  else if Ascii.eqb e "r" then byte_of 13
  else if Ascii.eqb e "t" then byte_of 9
  else e.

(** [unquote] on the raw contents of a scanned literal: escapes are
    replaced, surrogate pairs joined, and ill-formed UTF-8 coerced to
    U+FFFD.  [pending] counts the continuation bytes of a well-formed
    rune still to be copied. *)
Fixpoint unquote (pending : nat) (s : string) : string :=
  match s with
  | EmptyString => EmptyString
  | String c r =>
      match pending with
      | S p => String c (unquote p r)
      | O =>
          if Ascii.eqb c "\" then
            match r with
            | EmptyString => EmptyString
            | String e r1 =>
                if Ascii.eqb e "u" then
                  match r1 with
                  | String h1 (String h2 (String h3 (String h4 r2))) =>
                      let rr := u4 h1 h2 h3 h4 in
                      if utf16.IsSurrogate rr then
                        match r2 with
                        | String b (String u (String g1 (String g2
                            (String g3 (String g4 r3))))) =>
                            let dec := utf16.DecodeRune rr (u4 g1 g2 g3 g4) in
                            if Ascii.eqb b "\" && Ascii.eqb u "u"
                               && forallb is_hex [g1; g2; g3; g4]
                               && negb (dec =? utf8.RuneError)%N
                            then utf8.EncodeRune dec ++ unquote 0 r3
                            else utf8.EncodeRune utf8.RuneError ++ unquote 0 r2
                        | _ => utf8.EncodeRune utf8.RuneError ++ unquote 0 r2
                        end
                      else utf8.EncodeRune rr ++ unquote 0 r2
                  | _ => EmptyString
                  end
                else String (unescape_byte e) (unquote 0 r1)
            end
          else
            match utf8.rune_len s with
            | O => utf8.EncodeRune utf8.RuneError ++ unquote 0 r
            | S k => String c (unquote k r)
            end
      end
  end.

Definition string_literal (s : string) : option (string * string) :=
  match scan_string InString s with
  | Some (raw, rest) => Some (unquote 0 raw, rest)
  | None => None
  end.

(** The longest prefix of bytes that satisfy [p], and the rest. *)
Fixpoint span (p : ascii -> bool) (s : string) : string * string :=
  match s with
  | String c r =>
      if p c then let (a, b) := span p r in (String c a, b)
      else (EmptyString, s)
  | EmptyString => (EmptyString, EmptyString)
  end.

(** One or more digits. *)
Definition digits1 (s : string) : option (string * string) :=
  match span strings.is_digit s with
  | (EmptyString, _) => None
  | (ds, rest) => Some (ds, rest)
  end.

(** A number literal: an optional minus sign; 0, or a digit from 1 to 9
    and more digits; optionally a point and digits; optionally e or E, a
    sign and digits. *)
Definition number_literal (s : string) : option (string * string) :=
  let (sign, s1) :=
    match s with
    | String c r => if Ascii.eqb c "-" then ("-", r) else ("", s)
    | EmptyString => ("", s)
    end in
  let int_part :=
    match s1 with
    | String c r =>
        if Ascii.eqb c "0" then Some ("0", r)
        else if strings.is_digit c then
          let (ds, rest) := span strings.is_digit r in Some (String c ds, rest)
        else None
    | EmptyString => None
    end in
  match int_part with
  | None => None
  | Some (ip, s2) =>
      let frac_part :=
        match s2 with
        | String c r =>
            if Ascii.eqb c "." then
              match digits1 r with
              | Some (ds, rest) => Some (String "." ds, rest)
              | None => None
              end
            else Some ("", s2)
        | EmptyString => Some ("", s2)
        end in
      match frac_part with
      | None => None
      | Some (fp, s3) =>
          let exp_part :=
            match s3 with
            | String c r =>
                if Ascii.eqb c "e" || Ascii.eqb c "E" then
                  let (esign, r1) :=
                    match r with
                    | String d r' =>
                        if Ascii.eqb d "+" || Ascii.eqb d "-"
                        then (String d "", r') else ("", r)
                    | EmptyString => ("", r)
                    end in
                  match digits1 r1 with
                  | Some (ds, rest) => Some (String c (esign ++ ds), rest)
                  | None => None
                  end
                else Some ("", s3)
            | EmptyString => Some ("", s3)
            end in
          match exp_part with
          | None => None
          | Some (ep, s4) => Some (sign ++ ip ++ fp ++ ep, s4)
          end
      end
  end.

(** [s] without the prefix [p], when it starts with it. *)
Fixpoint strip_prefix (p s : string) {struct p} : option string :=
  match p, s with
  | EmptyString, _ => Some s
  | String a p', String c s' => if Ascii.eqb a c then strip_prefix p' s' else None
  | String _ _, EmptyString => None
  end.

(** The scanner keeps the objects and arrays that are open on a stack
    and refuses to open one more when that would make more than
    [maxNestingDepth] of them. *)
Definition maxNestingDepth : N := 10000.

(** A value, read from [s] after optional white space, and the rest of
    the input; [depth] is the number of objects and arrays open around
    it.  The recursion is on [fuel]; twice the length of [s] and one more
    is enough fuel ([parse_value_fuel] below). *)
Fixpoint parse_value (fuel : nat) (depth : N) (s : string)
  : option (value * string) :=
  match fuel with
  | O => None
  | S fuel' =>
      match skip_space s with
      | EmptyString => None
      | String c r as s0 =>
          if Ascii.eqb c "{" then
            if (depth <? maxNestingDepth)%N then
              match skip_space r with
              | String c' r' =>
                  if Ascii.eqb c' "}" then Some (Object [], r')
                  else parse_members fuel' (depth + 1) (String c' r') []
              | EmptyString => None
              end
            else None
          else if Ascii.eqb c "[" then
            if (depth <? maxNestingDepth)%N then
              match skip_space r with
              | String c' r' =>
                  if Ascii.eqb c' "]" then Some (Array [], r')
                  else parse_elements fuel' (depth + 1) (String c' r') []
              | EmptyString => None
              end
            else None
          else if Ascii.eqb c dquote then
            match string_literal r with
            | Some (str, rest) => Some (Str str, rest)
            | None => None
            end
          else if Ascii.eqb c "t" then
            option_map (pair (Bool true)) (strip_prefix "true" s0)
          else if Ascii.eqb c "f" then
            option_map (pair (Bool false)) (strip_prefix "false" s0)
          else if Ascii.eqb c "n" then
            option_map (pair Null) (strip_prefix "null" s0)
          else
            match number_literal s0 with
            | Some (lit, rest) => Some (Number lit, rest)
            | None => None
            end
      end
  end

(** The members of an object from the first byte of a key; [acc] holds
    the members already read, last first, and [depth] counts the object
    itself. *)
with parse_members (fuel : nat) (depth : N) (s : string)
    (acc : list (string * value)) : option (value * string) :=
  match fuel with
  | O => None
  | S fuel' =>
      match s with
      | String q r =>
          if Ascii.eqb q dquote then
            match string_literal r with
            | Some (key, r1) =>
                match skip_space r1 with
                | String colon r2 =>
                    if Ascii.eqb colon ":" then
                      match parse_value fuel' depth r2 with
                      | Some (v, r3) =>
                          match skip_space r3 with
                          | String d r4 =>
                              if Ascii.eqb d "," then
                                parse_members fuel' depth (skip_space r4)
                                  ((key, v) :: acc)
                              else if Ascii.eqb d "}" then
                                Some (Object (rev ((key, v) :: acc)), r4)
                              else None
                          | EmptyString => None
                          end
                      | None => None
                      end
                    else None
                | EmptyString => None
                end
            | None => None
            end
          else None
      | EmptyString => None
      end
  end

(** The elements of an array from the first byte of an element. *)
with parse_elements (fuel : nat) (depth : N) (s : string) (acc : list value)
  : option (value * string) :=
  match fuel with
  | O => None
  | S fuel' =>
      match parse_value fuel' depth s with
      | Some (v, r1) =>
          match skip_space r1 with
          | String d r2 =>
              if Ascii.eqb d "," then parse_elements fuel' depth r2 (v :: acc)
              else if Ascii.eqb d "]" then Some (Array (rev (v :: acc)), r2)
              else None
          | EmptyString => None
          end
      | None => None
      end
  end.

(** The whole input as one JSON text ([checkValid] accepts exactly these
    inputs): a value, with white space around it and nothing else, and
    no more than [maxNestingDepth] objects and arrays inside one
    another. *)
Definition Parse (data : string) : option value :=
  match parse_value (2 * String.length data + 1) 0 data with
  | Some (v, rest) =>
      match skip_space rest with
      | EmptyString => Some v
      | String _ _ => None
      end
  | None => None
  end.

Definition Valid (data : string) : bool :=
  match Parse data with Some _ => true | None => false end.

(** *** Errors of the package *)

(** The text that names the type of a struct literal in an error: its
    fields, each with its Go name, its type and its tag. *)
Definition struct_field_text (f : string * string * string) : string :=
  let '(name, type, tag) := f in
  name ++ " " ++ type ++ " " ++ strconv.Quote ("json:" ++ strconv.Quote tag).

Fixpoint struct_fields_text (fs : list (string * string * string)) : string :=
  match fs with
  | [] => EmptyString
  | [f] => struct_field_text f
  | f :: fs' => struct_field_text f ++ "; " ++ struct_fields_text fs'
  end.

Definition struct_text (fs : list (string * string * string)) : string :=
  "struct { " ++ struct_fields_text fs ++ " }".

Inductive error : Type :=
| SyntaxError
| UnmarshalTypeError (Value : string) (Type_ : string)
| UnsupportedValueError (Str : string).

(** The text of an error.  The library's text for a syntax error names
    the offending byte; the model has one text for all of them. *)
Definition Error (e : error) : string :=
  match e with
  | SyntaxError => "invalid JSON input"
  | UnmarshalTypeError v t =>
      "json: cannot unmarshal " ++ v ++ " into Go value of type " ++ t
  | UnsupportedValueError s => "json: unsupported value: " ++ s
  end.

(** *** Decoding

    [decode v cur] is what storing the JSON value [v] into a variable of
    the type leaves in it, [cur] being what the variable held: a value of
    the wrong JSON kind is an [UnmarshalTypeError]. *)
Class Unmarshaler (T : Type) : Type := {
  zero : T;
  type_name : string;
  decode : value -> T -> result T error
}.

(** The word of an [UnmarshalTypeError] for a JSON value. *)
Definition kind (v : value) : string :=
  match v with
  | Null => "null"
  | Bool _ => "bool"
  | Number _ => "number"
  | Str _ => "string"
  | Array _ => "array"
  | Object _ => "object"
  end.

(** A Go [string]: a JSON string is stored, [null] changes nothing. *)
#[global] Instance string_Unmarshaler : Unmarshaler string := {
  zero := EmptyString;
  type_name := "string";
  decode v cur :=
    match v with
    | Str s => Ok s
    | Null => Ok cur
    | _ => Err (UnmarshalTypeError (kind v) "string")
    end
}.

Section Slices.
Context {T : Type} `{Unmarshaler T}.

(** The elements of a JSON array are decoded into the elements the
    slice has, and into zero values past its length: the model of a slice
    holds its elements and nothing of its backing array.  The library
    decodes into what the backing array holds past the length, which is
    zero unless an earlier array of the same text was stored in the slice
    and a shorter one after it; only a text that names the field three
    times can tell the two apart, and the properties below decode an array
    into the zero value or say nothing of the elements decoded. *)
Fixpoint decode_elements (vs : list value) (cur : list T)
  : result (list T) error :=
  match vs with
  | [] => Ok []
  | v :: vs' =>
      let (e, cur') :=
        match cur with
        | [] => (zero, [])
        | e :: cur' => (e, cur')
        end in
      match decode v e with
      | Err x => Err x
      | Ok e' =>
          match decode_elements vs' cur' with
          | Ok l => Ok (e' :: l)
          | Err x => Err x
          end
      end
  end.

(** A slice [[]T]: [None] is [nil]; [null] stores [nil], and an empty
    array an empty slice that is not [nil]. *)
#[global] Instance slice_Unmarshaler : Unmarshaler (option (list T)) := {
  zero := None;
  type_name := "[]" ++ type_name (T := T);
  decode v cur :=
    match v with
    | Array vs =>
        match decode_elements vs (match cur with Some l => l | None => [] end) with
        | Ok l => Ok (Some l)
        | Err x => Err x
        end
    | Null => Ok None
    | _ => Err (UnmarshalTypeError (kind v) ("[]" ++ type_name (T := T)))
    end
}.
End Slices.

(** [foldName]: keys match field names whatever the case of their
    letters; U+017F and U+212A are folded to S and K. *)
Fixpoint foldName (s : string) : string :=
  match s with
  | EmptyString => EmptyString
  | String c r =>
      match r with
      | String c1 r1 =>
          if ((byte_code c =? 197) && (byte_code c1 =? 191))%N
          then String "S" (foldName r1)
          else
            match r1 with
            | String c2 r2 =>
                if ((byte_code c =? 226) && (byte_code c1 =? 132)
                    && (byte_code c2 =? 170))%N
                then String "K" (foldName r2)
                else String (strings.upper_byte c) (foldName r)
            | EmptyString => String (strings.upper_byte c) (foldName r)
            end
      | EmptyString => String (strings.upper_byte c) EmptyString
      end
  end.

Definition EqualFold (a b : string) : bool :=
  String.eqb (foldName a) (foldName b).

Section Structs.
Variable S : Type.

(** A field of a struct: its JSON name, and how a value is stored in it. *)
Definition field : Type := string * (value -> S -> result S error).

(** The field a key names: the one of that very name, else the first
    one that matches it without regard to case. *)
Definition find_field (fields : list field) (key : string) : option field :=
  match find (fun f => String.eqb (fst f) key) fields with
  | Some f => Some f
  | None => find (fun f => EqualFold (fst f) key) fields
  end.

(** The members of an object are stored one after the other; a key
    that names no field is skipped. *)
Fixpoint store_members (fields : list field) (members : list (string * value))
    (cur : S) : result S error :=
  match members with
  | [] => Ok cur
  | (key, v) :: members' =>
      match find_field fields key with
      | None => store_members fields members' cur
      | Some f =>
          match snd f v cur with
          | Ok cur' => store_members fields members' cur'
          | Err x => Err x
          end
      end
  end.

(** A struct takes a JSON object; [null] changes nothing. *)
Definition decode_struct (name : string) (fields : list field)
    (v : value) (cur : S) : result S error :=
  match v with
  | Object members => store_members fields members cur
  | Null => Ok cur
  | _ => Err (UnmarshalTypeError (kind v) name)
  end.

(** The field [name] of type [F], read by [get] and written by [set]. *)
Definition mk_field {F : Type} `{Unmarshaler F} (name : string)
    (get : S -> F) (set : S -> F -> S) : field :=
  (name, fun v cur =>
           match decode v (get cur) with
           | Ok x => Ok (set cur x)
           | Err e => Err e
           end).
End Structs.

(** [json.Unmarshal(data, &v)]: the input is checked as a whole first,
    then stored into [v]. *)
Definition Unmarshal {T : Type} `{Unmarshaler T} (data : string) (v : T)
  : result T error :=
  match Parse data with
  | None => Err SyntaxError
  | Some j => decode j v
  end.

(** *** Encoding *)

Definition hex_digit (n : N) : ascii :=
  if (n <? 10)%N then byte_of (48 + n) else byte_of (87 + n).

(** A string as [json.Marshal] writes it (HTML escaping on): quotes,
    backslashes, control bytes and the bytes of HTML are escaped, a byte
    that starts no well-formed rune is written as U+FFFD, U+2028 and U+2029 are
    escaped.  [pending] as in [unquote]. *)
Fixpoint encode_bytes (pending : nat) (s : string) : string :=
  match s with
  | EmptyString => EmptyString
  | String c r =>
      match pending with
      | S p => String c (encode_bytes p r)
      | O =>
          let b := byte_code c in
          if (b <? 128)%N then
            if Ascii.eqb c dquote || Ascii.eqb c "\"
            then String "\" (String c (encode_bytes 0 r))
            else if (b =? 10)%N then "\n" ++ encode_bytes 0 r
            else if (b =? 13)%N then "\r" ++ encode_bytes 0 r
            else if (b =? 9)%N then "\t" ++ encode_bytes 0 r
            else if (b <? 32)%N || Ascii.eqb c "<" || Ascii.eqb c ">"
                    || Ascii.eqb c "&"
            then "\u00" ++ String (hex_digit (b / 16))
                             (String (hex_digit (b mod 16)) (encode_bytes 0 r))
            else String c (encode_bytes 0 r)
          else
            match utf8.rune_len s with
            | O => "\u" ++ "fffd" ++ encode_bytes 0 r
            | S k =>
                match r with
                | String c1 (String c2 r2) =>
                    if ((b =? 226) && (byte_code c1 =? 128)
                        && ((byte_code c2 =? 168) || (byte_code c2 =? 169)))%N
                    then "\u202" ++ String (hex_digit (byte_code c2 - 160))
                                      (encode_bytes 0 r2)
                    else String c (encode_bytes k r)
                | _ => String c (encode_bytes k r)
                end
            end
      end
  end.

Definition encode_string (s : string) : string :=
  String dquote (encode_bytes 0 s ++ String dquote EmptyString).

Definition encode_int (i : Z) : string := strconv.Itoa i.

(** A [float64] as [json.Marshal] writes it: NaN and the infinities are
    refused; the exponent form is used below 1e-6 and from 1e21, and its
    exponent loses a leading zero. *)
Definition encode_float64 (f : float) : result string error :=
  if PrimFloat.is_nan f || PrimFloat.is_infinity f
  then Err (UnsupportedValueError (strconv.FormatFloat f "g"))
  else
    let a := PrimFloat.abs f in
    if negb (PrimFloat.is_zero a)
       && (PrimFloat.ltb a 0x1.0c6f7a0b5ed8dp-20 || PrimFloat.leb 0x1.b1ae4d6e2ef5p+69 a)
    then
      let b := strconv.FormatFloat f "e" in
      let n := String.length b in
      Ok (if (4 <=? n)%nat
             && String.eqb (substring (n - 4) 2 b) "e-"
             && String.eqb (substring (n - 2) 1 b) "0"
          then substring 0 (n - 2) b ++ substring (n - 1) 1 b
          else b)
    else Ok (strconv.FormatFloat f "f").

(** [json.Marshal] on the types the client encodes. *)
Class Marshaler (T : Type) : Type := {
  Marshal : T -> result string error
}.

#[global] Instance string_Marshaler : Marshaler string := {
  Marshal s := Ok (encode_string s)
}.
#[global] Instance int_Marshaler : Marshaler Z := {
  Marshal i := Ok (encode_int i)
}.
#[global] Instance float64_Marshaler : Marshaler float := {
  Marshal := encode_float64
}.

(** The fields of a struct in their order, each as its name and its
    encoding, separated by commas. *)
Fixpoint encode_fields (fields : list (string * result string error))
  : result string error :=
  match fields with
  | [] => Ok EmptyString
  | (name, r) :: fields' =>
      match r with
      | Err e => Err e
      | Ok s =>
          match encode_fields fields' with
          | Err e => Err e
          | Ok rest =>
              Ok (encode_string name ++ ":" ++ s
                  ++ match fields' with [] => EmptyString | _ => "," end ++ rest)
          end
      end
  end.

Definition encode_struct (fields : list (string * result string error))
  : result string error :=
  match encode_fields fields with
  | Ok s => Ok ("{" ++ s ++ "}")
  | Err e => Err e
  end.

Section SliceEncoding.
Context {T : Type} `{Marshaler T}.

(** The elements of a slice in their order, separated by commas. *)
Fixpoint encode_elements (l : list T) : result string error :=
  match l with
  | [] => Ok EmptyString
  | x :: l' =>
      match Marshal x with
      | Err e => Err e
      | Ok s =>
          match encode_elements l' with
          | Err e => Err e
          | Ok rest =>
              Ok (s ++ match l' with [] => EmptyString | _ => "," end ++ rest)
          end
      end
  end.

(** A slice: [null] for [nil], else an array. *)
#[global] Instance slice_Marshaler : Marshaler (option (list T)) := {
  Marshal s :=
    match s with
    | None => Ok "null"
    | Some l =>
        match encode_elements l with
        | Ok s => Ok ("[" ++ s ++ "]")
        | Err e => Err e
        end
    end
}.
End SliceEncoding.

End json.

(** ** Package [net/url] *)

Module url.

(** A parsed URL.  [RawPath] is the encoded path and is set only when it
    differs from the default encoding of [Path]. *)
Record URL : Type := {
  Scheme : string;
  Opaque : string;
  Host : string;
  Path : string;
  RawPath : string;
  ForceQuery : bool;
  RawQuery : string;
  Fragment : string
}.

Definition upperhex (n : N) : ascii :=
  if (n <? 10)%N then byte_of (48 + n) else byte_of (55 + n).

Definition unreserved (c : ascii) : bool :=
  strings.is_lower c || strings.is_upper c || strings.is_digit c
  || existsb (Ascii.eqb c) ["-"; "_"; "."; "~"]%char.

(** [url.QueryEscape]. *)
Fixpoint QueryEscape (s : string) : string :=
  match s with
  | EmptyString => EmptyString
  | String c r =>
      if unreserved c then String c (QueryEscape r)
      else if Ascii.eqb c " " then String "+" (QueryEscape r)
      else String "%" (String (upperhex (byte_code c / 16))
                         (String (upperhex (byte_code c mod 16)) (QueryEscape r)))
  end.

(** [url.Values]: a map from keys to lists of values. *)
Definition Values : Type := list (string * list string).

Definition Values_Set (q : Values) (key value : string) : Values :=
  (key, [value]) :: filter (fun kv => negb (String.eqb (fst kv) key)) q.

Fixpoint insert_sorted (kv : string * list string) (q : Values) : Values :=
  match q with
  | [] => [kv]
  | kv' :: q' =>
      if String.leb (fst kv) (fst kv') then kv :: q
      else kv' :: insert_sorted kv q'
  end.

Definition join (sep : string) (l : list string) : string :=
  match l with
  | [] => EmptyString
  | x :: l' => fold_left (fun acc y => acc ++ sep ++ y) l' x
  end.

(** [Values.Encode]: [key=value] pairs, sorted by key, joined by [&]. *)
Definition Values_Encode (q : Values) : string :=
  join "&"
    (flat_map
       (fun kv => map (fun v => QueryEscape (fst kv) ++ "=" ++ QueryEscape v) (snd kv))
       (fold_right insert_sorted [] q)).

End url.

(** ** Errors *)

(** The error envelope of the broker (lines 350 to 357). *)
Record TradingErrorPayload : Type := {
  Message : string;
  Code : string
}.

Record TradingError : Type := {
  TrackingID : string;
  Status : string;
  Payload : TradingErrorPayload
}.

#[global] Instance TradingErrorPayload_Unmarshaler
  : json.Unmarshaler TradingErrorPayload := {
  json.zero := {| Message := EmptyString; Code := EmptyString |};
  json.type_name :=
    json.struct_text [("Message", "string", "message"); ("Code", "string", "code")];
  json.decode :=
    json.decode_struct
      (json.struct_text [("Message", "string", "message"); ("Code", "string", "code")])
      [ json.mk_field "message" Message
          (fun t x => {| Message := x; Code := Code t |});
        json.mk_field "code" Code
          (fun t x => {| Message := Message t; Code := x |}) ]
}.

#[global] Instance TradingError_Unmarshaler : json.Unmarshaler TradingError := {
  json.zero := {| TrackingID := EmptyString; Status := EmptyString;
                  Payload := json.zero |};
  json.type_name := "sdk.TradingError";
  json.decode :=
    json.decode_struct "sdk.TradingError"
      [ json.mk_field "trackingId" TrackingID
          (fun t x => {| TrackingID := x; Status := Status t; Payload := Payload t |});
        json.mk_field "status" Status
          (fun t x => {| TrackingID := TrackingID t; Status := x; Payload := Payload t |});
        json.mk_field "payload" Payload
          (fun t x => {| TrackingID := TrackingID t; Status := Status t; Payload := x |}) ]
}.

(** The values of Go's [error] that the client meets. *)
Inductive error_value : Type :=
| ErrNotFound                        (* the sentinel of line 18 *)
| ATradingError (t : TradingError)   (* a TradingError, which has an Error method *)
| Errorf (msg : string)              (* errors.Errorf, with the formatted message *)
| Wrapf (cause : error_value) (msg : string)   (* errors.Wrapf around a cause *)
| JSONError (e : json.error)         (* an error of encoding/json *)
| External (msg : string)            (* an error of net/http or io, by its text *).

(** Go's [error]: an [error_value], or [nil]. *)
Definition error : Type := option error_value.
Definition nil_error : error := None.

(** [TradingError.Error] (lines 359 to 364). *)
Definition TradingError_Error (t : TradingError) : string :=
  "TrackingID: " ++ TrackingID t ++ ", Status: " ++ Status t
  ++ ", Message: " ++ Message (Payload t) ++ ", Code: " ++ Code (Payload t).

(** [TradingError.NotEnoughBalance] (lines 366 to 368). *)
Definition NotEnoughBalance (t : TradingError) : bool :=
  String.eqb (Code (Payload t)) "NOT_ENOUGH_BALANCE".

(** The method [Error] of an error: a wrapped error prints its message, a
    colon and its cause. *)
Fixpoint Error (e : error_value) : string :=
  match e with
  | ErrNotFound => "Not found"
  | ATradingError t => TradingError_Error t
  | Errorf msg => msg
  | Wrapf cause msg => msg ++ ": " ++ Error cause
  | JSONError e => json.Error e
  | External msg => msg
  end.

(** ** Package [net/http] *)

Module http.

Definition MethodGet : string := "GET".
Definition MethodPost : string := "POST".
Definition StatusOK : Z := 200.
Definition StatusNotFound : Z := 404.

(** The bytes of a token (RFC 7230). *)
Definition is_token_byte (c : ascii) : bool :=
  strings.is_lower c || strings.is_upper c || strings.is_digit c
  || existsb (Ascii.eqb c)
       ["!"; "#"; "$"; "%"; "&"; "'"; "*"; "+"; "-"; "."; "^"; "_"; "`"; "|"; "~"]%char.

Definition validMethod (method : string) : bool :=
  negb (String.eqb method EmptyString) && strings.forallb_bytes is_token_byte method.

(** [textproto.CanonicalMIMEHeaderKey]: the first letter and the letters
    after a hyphen in upper case, the others in lower case; a key that is
    no token is left as it is. *)
Fixpoint canonical (upper : bool) (s : string) : string :=
  match s with
  | EmptyString => EmptyString
  | String c r =>
      String (if upper then strings.upper_byte c else strings.lower_byte c)
        (canonical (Ascii.eqb c "-") r)
  end.

Definition CanonicalMIMEHeaderKey (s : string) : string :=
  if strings.forallb_bytes is_token_byte s then canonical true s else s.

(** [http.Header]: a map from canonical keys to lists of values. *)
Definition Header : Type := list (string * list string).

Definition Header_Set (h : Header) (key value : string) : Header :=
  let k := CanonicalMIMEHeaderKey key in
  (k, [value]) :: filter (fun kv => negb (String.eqb (fst kv) k)) h.

(** [Header.Get]: the first value of the key, if it has one. *)
Definition Header_Get (h : Header) (key : string) : option string :=
  match find (fun kv => String.eqb (fst kv) (CanonicalMIMEHeaderKey key)) h with
  | Some (_, v :: _) => Some v
  | _ => None
  end.

(** A request: [Request_Body] holds the bytes its body yields (none when
    the request has no body). *)
Record Request : Type := {
  Method : string;
  URL : url.URL;
  Request_Header : Header;
  Request_Body : string;
  ContentLength : Z
}.

(** A response: [Response_Body] is what reading the body stream to its
    end gives, the bytes and the error of [ioutil.ReadAll]. *)
Record Response : Type := {
  StatusCode : Z;
  Response_Body : string * error
}.

(** [http.Client], of which the code sets the time-out, in nanoseconds. *)
Record Client : Type := {
  Timeout : Z
}.

(** [removeEmptyPort]: a host that ends in a colon loses it. *)
Fixpoint removeEmptyPort (host : string) : string :=
  match host with
  | EmptyString => EmptyString
  | String c r =>
      if Ascii.eqb c ":" && String.eqb r EmptyString then EmptyString
      else String c (removeEmptyPort r)
  end.

End http.

(** ** What the client runs on

    The parser of [net/url], the clock format and the network are taken as
    given: the properties below hold whatever they do. *)
Class Platform : Type := {
  (** [url.Parse]; [None] when it reports an error. *)
  url_Parse : string -> option url.URL;
  (** [time.Time] and [Time.Format(time.RFC3339)]. *)
  time_Time : Type;
  Format_RFC3339 : time_Time -> string;
  (** The method [Do] of [http.Client]: the response of the network to a
      request, or the error of the transport. *)
  Client_Do : http.Client -> http.Request -> result http.Response error_value
}.

(** The types of the package that the file of the client uses and does not
    declare; each comes with the way [encoding/json] decodes it. *)
Class Domain : Type := {
  Instrument : Type;
  Instrument_json :: json.Unmarshaler Instrument;
  Operation : Type;
  Operation_json :: json.Unmarshaler Operation;
  PositionBalance : Type;
  PositionBalance_json :: json.Unmarshaler PositionBalance;
  CurrencyBalance : Type;
  CurrencyBalance_json :: json.Unmarshaler CurrencyBalance;
  PlacedLimitOrder : Type;
  PlacedLimitOrder_json :: json.Unmarshaler PlacedLimitOrder;
  Order : Type;
  Order_json :: json.Unmarshaler Order
}.

(** Modelled from the spec: the declaration of [OperationType] is not in
    the file of the client; the spec writes an operation as a JSON string
    (operation "Buy"), so it is a string type. *)
Definition OperationType : Type := string.

(** [OperationInterval] is converted by [string(interval)] (line 123). *)
Definition OperationInterval : Type := string.

(** ** Effects

    A call leaves a trace: the requests handed to the HTTP client, the
    inputs given to [json.Unmarshal], the response bodies closed. *)
Inductive event : Type :=
| EvDo (req : http.Request)
| EvUnmarshal (data : string)
| EvClose.

Definition IO (A : Type) : Type := list event * A.

Definition ret {A : Type} (a : A) : IO A := ([], a).

Definition bind {A B : Type} (m : IO A) (k : A -> IO B) : IO B :=
  let (t1, a) := m in
  let (t2, b) := k a in
  ((t1 ++ t2)%list, b).

Definition emit (e : event) : IO unit := ([e], tt).

Definition trace {A : Type} (m : IO A) : list event := fst m.
Definition value {A : Type} (m : IO A) : A := snd m.

Declare Scope io_scope.
Delimit Scope io_scope with io.
Notation "x <- m ;; k" := (bind m (fun x => k))
  (at level 61, m at next level, right associativity) : io_scope.
Notation "' pat <- m ;; k" := (bind m (fun x => match x with pat => k end))
  (at level 61, pat pattern, m at next level, right associativity) : io_scope.
Notation "m ;; k" := (bind m (fun _ => k))
  (at level 61, right associativity) : io_scope.
Local Open Scope io_scope.

(** [defer f]: [f] runs when the body has returned. *)
Definition defer {A : Type} (f : IO unit) (body : IO A) : IO A :=
  a <- body ;; f ;; ret a.

(** [json.Unmarshal(data, &v)], traced. *)
Definition json_Unmarshal {T : Type} `{json.Unmarshaler T} (data : string) (v : T)
  : IO (result T json.error) :=
  emit (EvUnmarshal data) ;; ret (json.Unmarshal data v).

(** A [[]byte]: [None] is the [nil] slice. *)
Definition bytes : Type := option string.

(** [string(b)], which is also what the verb [%s] prints. *)
Definition string_of_bytes (b : bytes) : string :=
  match b with
  | Some s => s
  | None => EmptyString
  end.

(** ** The client (src/trading_client.go) *)

Definition TradingApiURL : string := "https://api-invest.tinkoff.ru/openapi".

Definition time_Second : Z := 1000000000.

Record TradingClient : Type := {
  httpClient : http.Client;
  token : string;
  apiURL : string
}.

Definition NewTradingClientCustom (token apiURL : string) : TradingClient :=
  {| httpClient := {| http.Timeout := 5 * time_Second |};
     token := token;
     apiURL := apiURL |}.

Definition NewTradingClient (token : string) : TradingClient :=
  NewTradingClientCustom token TradingApiURL.

(** How an error of the decoder names a struct type: a declared type by
    its package and its name, a struct literal by its text, which holds
    the Go name of its field. *)
Inductive struct_name : Type :=
| declared (name : string)
| literal (field : string).

(** A struct with one field, of JSON name [tag]: the [response] types that
    the endpoints declare, and the struct inside the list envelopes. *)
Record tagged (k : struct_name) (tag : string) (T : Type) : Type :=
  Tagged { untag : T }.
Arguments Tagged {k tag T} _.
Arguments untag {k tag T} _.

Definition tagged_type_name (k : struct_name) (tag : string) (T : Type)
    {U : json.Unmarshaler T} : string :=
  match k with
  | declared name => name
  | literal field => json.struct_text [(field, json.type_name (T := T), tag)]
  end.
Arguments tagged_type_name k tag T {U}.

#[global] Instance tagged_Unmarshaler (k : struct_name) (tag : string) (T : Type)
  `{json.Unmarshaler T} : json.Unmarshaler (tagged k tag T) := {
  json.zero := Tagged json.zero;
  json.type_name := tagged_type_name k tag T;
  json.decode :=
    json.decode_struct (tagged_type_name k tag T)
      [ json.mk_field tag untag (fun _ x => Tagged x) ]
}.

#[global] Instance tagged_Marshaler (sn : struct_name) (tag : string) (T : Type)
  `{json.Marshaler T} : json.Marshaler (tagged sn tag T) := {
  json.Marshal x := json.encode_struct [ (tag, json.Marshal (untag x)) ]
}.

(** The struct [response] of an endpoint: one field [Payload] of type [T],
    of JSON name [payload].  The type is declared in the function, and an
    error names it [sdk.response]. *)
Definition response (T : Type) : Type := tagged (declared "sdk.response") "payload" T.

#[global] Instance response_Unmarshaler (T : Type) `{json.Unmarshaler T}
  : json.Unmarshaler (response T) := tagged_Unmarshaler (declared "sdk.response") "payload".

Definition Payload_of {T : Type} (resp : response T) : T := untag resp.

(** The body of the limit order (lines 233 to 237). *)
Record LimitOrder_payload : Type := {
  Lots : Z;
  Operation_ : OperationType;
  Price : float
}.

#[global] Instance LimitOrder_payload_Marshaler : json.Marshaler LimitOrder_payload := {
  json.Marshal p :=
    json.encode_struct
      [ ("lots", json.Marshal (Lots p));
        ("operation", json.Marshal (Operation_ p));
        ("price", json.Marshal (Price p)) ]
}.

(** The verb [%+v] on that struct. *)
Definition LimitOrder_payload_plus_v (p : LimitOrder_payload) : string :=
  "{Lots:" ++ strconv.Itoa (Lots p) ++ " Operation:" ++ Operation_ p
  ++ " Price:" ++ strconv.FormatFloat (Price p) "g" ++ "}".

(** A value of type [interface{}], with the way [json.Marshal] encodes it. *)
Inductive any : Type :=
| Any {T : Type} {M : json.Marshaler T} (v : T).

Definition json_Marshal_any (a : any) : result string json.error :=
  match a with
  | Any v => json.Marshal v
  end.

Section Client.

Context {P : Platform} {D : Domain}.

(** [http.NewRequest(method, url, body)], [body] being [nil] or a reader
    of the given bytes; [None] when it reports an error. *)
Definition http_NewRequest (method url : string) (body : option string)
  : option http.Request :=
  let method := if String.eqb method EmptyString then "GET" else method in
  if negb (http.validMethod method) then None
  else
    match url_Parse url with
    | None => None
    | Some u =>
        let u := {| url.Scheme := url.Scheme u;
                    url.Opaque := url.Opaque u;
                    url.Host := http.removeEmptyPort (url.Host u);
                    url.Path := url.Path u;
                    url.RawPath := url.RawPath u;
                    url.ForceQuery := url.ForceQuery u;
                    url.RawQuery := url.RawQuery u;
                    url.Fragment := url.Fragment u |} in
        Some {| http.Method := method;
                http.URL := u;
                http.Request_Header := [];
                http.Request_Body := match body with Some b => b | None => EmptyString end;
                http.ContentLength :=
                  match body with
                  | Some b => Z.of_nat (String.length b)
                  | None => 0
                  end |}
    end.

(** [http.Header.Set] on the header of a request. *)
Definition Request_Header_Set (req : http.Request) (key value : string)
  : http.Request :=
  {| http.Method := http.Method req;
     http.URL := http.URL req;
     http.Request_Header := http.Header_Set (http.Request_Header req) key value;
     http.Request_Body := http.Request_Body req;
     http.ContentLength := http.ContentLength req |}.

(** Lines 311 to 321. *)
Definition newRequest (c : TradingClient) (method url : string)
    (body : option string) : result http.Request error_value :=
  match http_NewRequest method url body with
  | None => Err (Errorf ("can't create http request to " ++ url))
  | Some req =>
      let req := Request_Header_Set req "Content-Type" "application/json" in
      let req := Request_Header_Set req "Authorization" ("Bearer " ++ token c) in
      Ok req
  end.

(** [c.httpClient.Do(req)], traced. *)
Definition httpClient_Do (c : TradingClient) (req : http.Request)
  : IO (result http.Response error_value) :=
  emit (EvDo req) ;; ret (Client_Do (httpClient c) req).

(** Lines 323 to 348.  The two results are kept as Go returns them. *)
Definition doRequest (c : TradingClient) (req : http.Request)
  : IO (bytes * error) :=
  r <- httpClient_Do c req ;;
  match r with
  | Err err =>
      ret (None, Some (Wrapf err ("can't do request to "
                                  ++ url.RawPath (http.URL req))))
  | Ok resp =>
      defer (emit EvClose)
        (let (body, err) := http.Response_Body resp in
         match err with
         | Some err =>
             ret (None, Some (Wrapf err ("can't read response body to "
                                         ++ url.RawPath (http.URL req))))
         | None =>
             if http.StatusCode resp =? http.StatusOK then
               ret (Some body, nil_error)
             else if http.StatusCode resp =? http.StatusNotFound then
               ret (None, Some ErrNotFound)
             else
               r <- json_Unmarshal body (json.zero : TradingError) ;;
               match r with
               | Ok tradingError => ret (None, Some (ATradingError tradingError))
               | Err _ =>
                   ret (None,
                        Some (Errorf ("bad response to "
                                      ++ url.RawPath (http.URL req)
                                      ++ " code=" ++ strconv.Itoa (http.StatusCode resp)
                                      ++ ", body=" ++ body)))
               end
         end)
  end.

(** Lines 40 to 63. *)
Definition SearchInstrumentByFIGI (c : TradingClient) (figi : string)
  : IO (Instrument * error) :=
  let path := apiURL c ++ "/market/search/by-figi?figi=" ++ figi in
  match newRequest c http.MethodGet path None with
  | Err err => ret (json.zero, Some err)
  | Ok req =>
      '(respBody, err) <- doRequest c req ;;
      match err with
      | Some err => ret (json.zero, Some err)
      | None =>
          r <- json_Unmarshal (string_of_bytes respBody)
                 (json.zero : response Instrument) ;;
          match r with
          | Err err =>
              ret (json.zero,
                   Some (Wrapf (JSONError err)
                           ("can't unmarshal response to " ++ path
                            ++ ", respBody=" ++ string_of_bytes respBody)))
          | Ok resp => ret (Payload_of resp, nil_error)
          end
      end
  end.

(** Lines 95 to 118. *)
Definition instruments (c : TradingClient) (path : string)
  : IO (option (list Instrument) * error) :=
  match newRequest c http.MethodGet path None with
  | Err err => ret (None, Some err)
  | Ok req =>
      '(respBody, err) <- doRequest c req ;;
      match err with
      | Some err => ret (None, Some err)
      | None =>
          r <- json_Unmarshal (string_of_bytes respBody)
                 (json.zero
                  : response (tagged (literal "Instruments") "instruments"
                               (option (list Instrument)))) ;;
          match r with
          | Err err =>
              ret (None,
                   Some (Wrapf (JSONError err)
                           ("can't unmarshal response to " ++ path
                            ++ ", respBody=" ++ string_of_bytes respBody)))
          | Ok resp => ret (untag (Payload_of resp), nil_error)
          end
      end
  end.

(** Lines 65 to 93. *)
Definition SearchInstrumentByTicker (c : TradingClient) (ticker : string)
  : IO (option (list Instrument) * error) :=
  let path := apiURL c ++ "/market/search/by-ticker?ticker=" ++ ticker in
  instruments c path.

Definition Currencies (c : TradingClient) : IO (option (list Instrument) * error) :=
  let path := apiURL c ++ "/market/currencies" in
  instruments c path.

Definition ETFs (c : TradingClient) : IO (option (list Instrument) * error) :=
  let path := apiURL c ++ "/market/etfs" in
  instruments c path.

Definition Bonds (c : TradingClient) : IO (option (list Instrument) * error) :=
  let path := apiURL c ++ "/market/bonds" in
  instruments c path.

Definition Stocks (c : TradingClient) : IO (option (list Instrument) * error) :=
  let path := apiURL c ++ "/market/stocks" in
  instruments c path.

(** The path of [Operations] (lines 121 to 129). *)
Definition Operations_path (c : TradingClient) (from : time_Time)
    (interval : OperationInterval) (figi : string) : string :=
  let q : url.Values :=
    [ ("from", [Format_RFC3339 from]); ("interval", [interval]) ] in
  let q := if negb (String.eqb figi EmptyString)
           then url.Values_Set q "figi" figi else q in
  apiURL c ++ "/operations?" ++ url.Values_Encode q.

(** Lines 120 to 151. *)
Definition Operations (c : TradingClient) (from : time_Time)
    (interval : OperationInterval) (figi : string)
  : IO (option (list Operation) * error) :=
  let path := Operations_path c from interval figi in
  match newRequest c http.MethodGet path None with
  | Err err => ret (None, Some err)
  | Ok req =>
      '(respBody, err) <- doRequest c req ;;
      match err with
      | Some err => ret (None, Some err)
      | None =>
          r <- json_Unmarshal (string_of_bytes respBody)
                 (json.zero : response (option (list Operation))) ;;
          match r with
          | Err err =>
              ret (None,
                   Some (Wrapf (JSONError err)
                           ("can't unmarshal response to " ++ path
                            ++ ", respBody=" ++ string_of_bytes respBody)))
          | Ok resp => ret (Payload_of resp, nil_error)
          end
      end
  end.

(** Lines 170 to 195. *)
Definition PositionsPortfolio (c : TradingClient)
  : IO (option (list PositionBalance) * error) :=
  let path := apiURL c ++ "/portfolio" in
  match newRequest c http.MethodGet path None with
  | Err err => ret (None, Some err)
  | Ok req =>
      '(respBody, err) <- doRequest c req ;;
      match err with
      | Some err => ret (None, Some err)
      | None =>
          r <- json_Unmarshal (string_of_bytes respBody)
                 (json.zero
                  : response (tagged (literal "Positions") "positions"
                               (option (list PositionBalance)))) ;;
          match r with
          | Err err =>
              ret (None,
                   Some (Wrapf (JSONError err)
                           ("can't unmarshal response to " ++ path
                            ++ ", respBody=" ++ string_of_bytes respBody)))
          | Ok resp => ret (untag (Payload_of resp), nil_error)
          end
      end
  end.

(** Lines 197 to 222. *)
Definition CurrenciesPortfolio (c : TradingClient)
  : IO (option (list CurrencyBalance) * error) :=
  let path := apiURL c ++ "/portfolio/currencies" in
  match newRequest c http.MethodGet path None with
  | Err err => ret (None, Some err)
  | Ok req =>
      '(respBody, err) <- doRequest c req ;;
      match err with
      | Some err => ret (None, Some err)
      | None =>
          r <- json_Unmarshal (string_of_bytes respBody)
                 (json.zero
                  : response (tagged (literal "Currencies") "currencies"
                               (option (list CurrencyBalance)))) ;;
          match r with
          | Err err =>
              ret (None,
                   Some (Wrapf (JSONError err)
                           ("can't unmarshal response to " ++ path
                            ++ ", respBody=" ++ string_of_bytes respBody)))
          | Ok resp => ret (untag (Payload_of resp), nil_error)
          end
      end
  end.

(** The struct [Portfolio], by the fields set at lines 164 to 167. *)
Record Portfolio_ : Type := {
  Portfolio_Currencies : option (list CurrencyBalance);
  Portfolio_Positions : option (list PositionBalance)
}.

Definition Portfolio_zero : Portfolio_ :=
  {| Portfolio_Currencies := None; Portfolio_Positions := None |}.

(** Lines 153 to 168. *)
Definition Portfolio (c : TradingClient) : IO (Portfolio_ * error) :=
  '(positions, err) <- PositionsPortfolio c ;;
  match err with
  | Some err => ret (Portfolio_zero, Some err)
  | None =>
      '(currencies, err) <- CurrenciesPortfolio c ;;
      match err with
      | Some err => ret (Portfolio_zero, Some err)
      | None =>
          ret ({| Portfolio_Currencies := currencies;
                  Portfolio_Positions := positions |}, nil_error)
      end
  end.

(** Lines 291 to 309: [bb] stays [nil] when [body] is [nil]. *)
Definition postJSONThrow (c : TradingClient) (url : string) (body : option any)
  : IO error :=
  let marshalled : result bytes json.error :=
    match body with
    | Some b =>
        match json_Marshal_any b with
        | Ok bb => Ok (Some bb)
        | Err err => Err err
        end
    | None => Ok None
    end in
  match marshalled with
  | Err _ => ret (Some (Errorf ("can't marshal request body to " ++ url)))
  | Ok bb =>
      match newRequest c http.MethodPost url (Some (string_of_bytes bb)) with
      | Err err => ret (Some err)
      | Ok req =>
          '(_, err) <- doRequest c req ;;
          ret err
      end
  end.

(** Lines 224 to 228. *)
Definition OrderCancel (c : TradingClient) (id : string) : IO error :=
  let path := apiURL c ++ "/orders/cancel?orderId=" ++ id in
  postJSONThrow c path None.

(** Lines 230 to 264. *)
Definition LimitOrder (c : TradingClient) (figi : string) (lots : Z)
    (operation : OperationType) (price : float)
  : IO (PlacedLimitOrder * error) :=
  let path := apiURL c ++ "/orders/limit-order?figi=" ++ figi in
  let payload := {| Lots := lots; Operation_ := operation; Price := price |} in
  match json.Marshal payload with
  | Err _ =>
      ret (json.zero,
           Some (Errorf ("can't marshal request to " ++ path ++ " body="
                         ++ LimitOrder_payload_plus_v payload)))
  | Ok bb =>
      match newRequest c http.MethodPost path (Some bb) with
      | Err err => ret (json.zero, Some err)
      | Ok req =>
          '(respBody, err) <- doRequest c req ;;
          match err with
          | Some err => ret (json.zero, Some err)
          | None =>
              r <- json_Unmarshal (string_of_bytes respBody)
                     (json.zero : response PlacedLimitOrder) ;;
              match r with
              | Err err =>
                  ret (json.zero,
                       Some (Wrapf (JSONError err)
                               ("can't unmarshal response to " ++ path
                                ++ ", respBody=" ++ string_of_bytes respBody)))
              | Ok resp => ret (Payload_of resp, nil_error)
              end
          end
      end
  end.

(** Lines 266 to 289. *)
Definition Orders (c : TradingClient) : IO (option (list Order) * error) :=
  let path := apiURL c ++ "/orders" in
  match newRequest c http.MethodGet path None with
  | Err err => ret (None, Some err)
  | Ok req =>
      '(respBody, err) <- doRequest c req ;;
      match err with
      | Some err => ret (None, Some err)
      | None =>
          r <- json_Unmarshal (string_of_bytes respBody)
                 (json.zero : response (option (list Order))) ;;
          match r with
          | Err err =>
              ret (None,
                   Some (Wrapf (JSONError err)
                           ("can't unmarshal response to " ++ path
                            ++ ", respBody=" ++ string_of_bytes respBody)))
          | Ok resp => ret (Payload_of resp, nil_error)
          end
      end
  end.

(** *** The shape the endpoints with a result share

    Every such endpoint builds a request, sends it, and decodes the body
    into a variable of its [response] type [R], of which it returns the
    field [payload]; an error of any step is returned with the zero
    value. *)
Definition unmarshal_response {R T : Type} `{json.Unmarshaler R}
    (zero : T) (payload : R -> T) (path : string) (respBody : bytes)
  : IO (T * error) :=
  r <- json_Unmarshal (string_of_bytes respBody) (json.zero : R) ;;
  match r with
  | Err err =>
      ret (zero,
           Some (Wrapf (JSONError err)
                   ("can't unmarshal response to " ++ path
                    ++ ", respBody=" ++ string_of_bytes respBody)))
  | Ok resp => ret (payload resp, nil_error)
  end.

Definition request_response {R T : Type} `{json.Unmarshaler R}
    (c : TradingClient) (method path : string) (body : option string)
    (zero : T) (payload : R -> T) : IO (T * error) :=
  match newRequest c method path body with
  | Err err => ret (zero, Some err)
  | Ok req =>
      '(respBody, err) <- doRequest c req ;;
      match err with
      | Some err => ret (zero, Some err)
      | None => unmarshal_response zero payload path respBody
      end
  end.

End Client.

(** ** A platform and a domain to run the client on

    [Reference.Parse] is [url.Parse] on the plain absolute URLs: a scheme
    of letters, [://], a host, and optionally a path that starts with a
    slash and a query after a question mark; host and path are written
    with unreserved bytes and the separators [/ : = &], the query also
    with escapes.  Such a path is its own default
    encoding, so [RawPath] is empty.  Other inputs are outside this
    reference and give [None]. *)
Module Reference.

Definition plain_byte (c : ascii) : bool :=
  url.unreserved c || existsb (Ascii.eqb c) ["/"; ":"; "="; "&"]%char.

(** The bytes of a query, which is not decoded: also those of an escape. *)
Definition query_byte (c : ascii) : bool :=
  plain_byte c || existsb (Ascii.eqb c) ["%"; "+"]%char.

(** [s] up to the first byte [sep] and after it; [None] without one. *)
Fixpoint cut (sep : ascii) (s : string) : option (string * string) :=
  match s with
  | EmptyString => None
  | String c r =>
      if Ascii.eqb c sep then Some (EmptyString, r)
      else match cut sep r with
           | Some (a, b) => Some (String c a, b)
           | None => None
           end
  end.

Definition is_letter (c : ascii) : bool := strings.is_lower c || strings.is_upper c.

Definition valid_host (h : string) : bool :=
  negb (String.eqb h EmptyString)
  && match cut ":" h with
     | None => strings.forallb_bytes url.unreserved h
     | Some (name, port) =>
         strings.forallb_bytes url.unreserved name
         && strings.forallb_bytes strings.is_digit port
     end.

Definition Parse (rawURL : string) : option url.URL :=
  match cut ":" rawURL with
  | Some (scheme, String s1 (String s2 rest)) =>
      let (rest, query) :=
        match cut "?" rest with
        | Some (a, b) => (a, Some b)
        | None => (rest, None)
        end in
      let (host, path) :=
        match cut "/" rest with
        | Some (h, p) => (h, String "/" p)
        | None => (rest, EmptyString)
        end in
      if Ascii.eqb s1 "/" && Ascii.eqb s2 "/"
         && negb (String.eqb scheme EmptyString)
         && strings.forallb_bytes is_letter scheme
         && valid_host host
         && strings.forallb_bytes plain_byte path
         && strings.forallb_bytes query_byte
              (match query with Some q => q | None => EmptyString end)
      then Some {| url.Scheme := strings.map_bytes strings.lower_byte scheme;
                   url.Opaque := EmptyString;
                   url.Host := host;
                   url.Path := path;
                   url.RawPath := EmptyString;
                   url.ForceQuery :=
                     match query with
                     | Some EmptyString => true
                     | _ => false
                     end;
                   url.RawQuery := match query with Some q => q | None => EmptyString end;
                   url.Fragment := EmptyString |}
      else None
  | _ => None
  end.

(** A platform whose network answers every request as [net] says, and
    whose times are held in their RFC 3339 form. *)
Definition platform (net : http.Request -> result http.Response error_value)
  : Platform :=
  {| url_Parse := Parse;
     time_Time := string;
     Format_RFC3339 := fun t => t;
     Client_Do := fun _ req => net req |}.

(** A network that answers every request with the same status and body. *)
Definition answer (status : Z) (body : string)
  : http.Request -> result http.Response error_value :=
  fun _ => Ok {| http.StatusCode := status; http.Response_Body := (body, None) |}.

(** A domain in which every payload is a struct with the one field
    [FIGI string] of JSON name [figi]. *)
Definition item : Type := tagged (declared "sdk.Instrument") "figi" string.

Definition domain : Domain :=
  {| Instrument := item; Operation := item; PositionBalance := item;
     CurrencyBalance := item; PlacedLimitOrder := item; Order := item |}.

(** A client, and the request it builds for [GET {apiURL}/orders]. *)
Definition client : TradingClient := NewTradingClient "t0ken".

Definition orders_request : http.Request :=
  {| http.Method := "GET";
     http.URL := {| url.Scheme := "https";
                    url.Opaque := EmptyString;
                    url.Host := "api-invest.tinkoff.ru";
                    url.Path := "/openapi/orders";
                    url.RawPath := EmptyString;
                    url.ForceQuery := false;
                    url.RawQuery := EmptyString;
                    url.Fragment := EmptyString |};
     http.Request_Header := [ ("Authorization", ["Bearer t0ken"]);
                              ("Content-Type", ["application/json"]) ];
     http.Request_Body := EmptyString;
     http.ContentLength := 0 |}.

End Reference.

(** ** The endpoints that return a payload, as one family

    [endpoint T] names a call of an endpoint whose payload has type [T];
    [call] runs it. *)
Section Endpoints.

Context {P : Platform} {D : Domain}.

Inductive endpoint : Type -> Type :=
| EpSearchInstrumentByFIGI (figi : string) : endpoint Instrument
| EpSearchInstrumentByTicker (ticker : string) : endpoint (option (list Instrument))
| EpCurrencies : endpoint (option (list Instrument))
| EpETFs : endpoint (option (list Instrument))
| EpBonds : endpoint (option (list Instrument))
| EpStocks : endpoint (option (list Instrument))
| EpOperations (from : time_Time) (interval : OperationInterval) (figi : string)
  : endpoint (option (list Operation))
| EpPositionsPortfolio : endpoint (option (list PositionBalance))
| EpCurrenciesPortfolio : endpoint (option (list CurrencyBalance))
| EpLimitOrder (figi : string) (lots : Z) (operation : OperationType) (price : float)
  : endpoint PlacedLimitOrder
| EpOrders : endpoint (option (list Order)).

Definition call {T : Type} (c : TradingClient) (e : endpoint T) : IO (T * error) :=
  match e with
  | EpSearchInstrumentByFIGI figi => SearchInstrumentByFIGI c figi
  | EpSearchInstrumentByTicker ticker => SearchInstrumentByTicker c ticker
  | EpCurrencies => Currencies c
  | EpETFs => ETFs c
  | EpBonds => Bonds c
  | EpStocks => Stocks c
  | EpOperations from interval figi => Operations c from interval figi
  | EpPositionsPortfolio => PositionsPortfolio c
  | EpCurrenciesPortfolio => CurrenciesPortfolio c
  | EpLimitOrder figi lots operation price => LimitOrder c figi lots operation price
  | EpOrders => Orders c
  end.

(** The method, the URL and the body of the request of an endpoint.  The
    body of a limit order is the encoding of its payload, which can fail. *)
Definition ep_method {T : Type} (e : endpoint T) : string :=
  match e with
  | EpLimitOrder _ _ _ _ => http.MethodPost
  | _ => http.MethodGet
  end.

Definition ep_path {T : Type} (c : TradingClient) (e : endpoint T) : string :=
  match e with
  | EpSearchInstrumentByFIGI figi => apiURL c ++ "/market/search/by-figi?figi=" ++ figi
  | EpSearchInstrumentByTicker ticker =>
      apiURL c ++ "/market/search/by-ticker?ticker=" ++ ticker
  | EpCurrencies => apiURL c ++ "/market/currencies"
  | EpETFs => apiURL c ++ "/market/etfs"
  | EpBonds => apiURL c ++ "/market/bonds"
  | EpStocks => apiURL c ++ "/market/stocks"
  | EpOperations from interval figi => Operations_path c from interval figi
  | EpPositionsPortfolio => apiURL c ++ "/portfolio"
  | EpCurrenciesPortfolio => apiURL c ++ "/portfolio/currencies"
  | EpLimitOrder figi _ _ _ => apiURL c ++ "/orders/limit-order?figi=" ++ figi
  | EpOrders => apiURL c ++ "/orders"
  end.

Definition ep_body {T : Type} (e : endpoint T) : result (option string) json.error :=
  match e with
  | EpLimitOrder _ lots operation price =>
      match json.Marshal {| Lots := lots; Operation_ := operation; Price := price |} with
      | Ok bb => Ok (Some bb)
      | Err x => Err x
      end
  | _ => Ok None
  end.

(** The envelope of an endpoint: the type [env_field] of the field
    [Payload] of its [response], and the part [env_get] of that field that
    the endpoint returns. *)
Record envelope (T : Type) : Type := {
  env_field : Type;
  env_json :: json.Unmarshaler env_field;
  env_get : env_field -> T;
  env_zero : T
}.

Definition whole {T : Type} `{json.Unmarshaler T} : envelope T :=
  {| env_field := T; env_get := fun x => x; env_zero := json.zero |}.

Definition named (field name : string) {T : Type} `{json.Unmarshaler T}
  : envelope (option (list T)) :=
  {| env_field := tagged (literal field) name (option (list T));
     env_get := untag;
     env_zero := None |}.

Definition ep_envelope {T : Type} (e : endpoint T) : envelope T :=
  match e with
  | EpSearchInstrumentByFIGI _ => whole
  | EpSearchInstrumentByTicker _ => named "Instruments" "instruments"
  | EpCurrencies => named "Instruments" "instruments"
  | EpETFs => named "Instruments" "instruments"
  | EpBonds => named "Instruments" "instruments"
  | EpStocks => named "Instruments" "instruments"
  | EpOperations _ _ _ => whole
  | EpPositionsPortfolio => named "Positions" "positions"
  | EpCurrenciesPortfolio => named "Currencies" "currencies"
  | EpLimitOrder _ _ _ _ => whole
  | EpOrders => whole
  end.

(** What the endpoint makes of a response body: the field [Payload] of a
    [response] decoded from it. *)
Definition env_unmarshal {T : Type} (v : envelope T) (data : string)
  : result T json.error :=
  match json.Unmarshal data (json.zero : response (env_field v)) with
  | Ok resp => Ok (env_get v (Payload_of resp))
  | Err x => Err x
  end.

(** The error of an endpoint whose response body does not decode. *)
Definition DecodeError (path : string) (respBody : bytes) (cause : json.error)
  : error_value :=
  Wrapf (JSONError cause)
    ("can't unmarshal response to " ++ path ++ ", respBody=" ++ string_of_bytes respBody).

(** The steps of an endpoint, in terms of the above. *)
Definition run {T : Type} (c : TradingClient) (e : endpoint T) : IO (T * error) :=
  let zero := env_zero (ep_envelope e) in
  match ep_body e with
  | Err _ =>
      ret (zero,
           Some (Errorf ("can't marshal request to " ++ ep_path c e ++ " body="
                         ++ match e with
                            | EpLimitOrder _ lots operation price =>
                                LimitOrder_payload_plus_v
                                  {| Lots := lots; Operation_ := operation; Price := price |}
                            | _ => EmptyString
                            end)))
  | Ok body =>
      match newRequest c (ep_method e) (ep_path c e) body with
      | Err err => ret (zero, Some err)
      | Ok req =>
          '(respBody, err) <- doRequest c req ;;
          match err with
          | Some err => ret (zero, Some err)
          | None =>
              emit (EvUnmarshal (string_of_bytes respBody)) ;;
              match env_unmarshal (ep_envelope e) (string_of_bytes respBody) with
              | Err x => ret (zero, Some (DecodeError (ep_path c e) respBody x))
              | Ok t => ret (t, nil_error)
              end
          end
      end
  end.

End Endpoints.

(** ** Encoders

    A type with a JSON encoding that its decoder reads back from the zero
    value.  The payload types are given with one when a property speaks
    of encoding them. *)
Class Encoder (T : Type) {U : json.Unmarshaler T} : Type := {
  to_json : T -> json.value;
  decode_to_json : forall t : T, json.decode (to_json t) json.zero = Ok t
}.
Arguments Encoder T {U}.

Class Encoders (D : Domain) : Type := {
  Instrument_enc :: Encoder Instrument;
  Operation_enc :: Encoder Operation;
  PositionBalance_enc :: Encoder PositionBalance;
  CurrencyBalance_enc :: Encoder CurrencyBalance;
  PlacedLimitOrder_enc :: Encoder PlacedLimitOrder;
  Order_enc :: Encoder Order
}.

(** The encoding of a slice: [null] for [nil], else the array of the
    encodings of its elements. *)
Definition slice_to_json {T : Type} `{Encoder T} (s : option (list T)) : json.value :=
  match s with
  | None => json.Null
  | Some l => json.Array (map to_json l)
  end.

(** The encoding of a struct with one field. *)
Definition tagged_to_json {T : Type} `{Encoder T} {k : struct_name} (tag : string)
    (x : tagged k tag T) : json.value :=
  json.Object [(tag, to_json (untag x))].

(** [names field key]: a member of key [key] is stored in the field of
    JSON name [field]. *)
Definition names (field key : string) : bool :=
  String.eqb field key || json.EqualFold field key.

(** The error envelope of the broker as a JSON value, by its members. *)
Definition error_envelope_members (trackingId status : string)
    (payload : list (string * json.value)) : list (string * json.value) :=
  [ ("trackingId", json.Str trackingId);
    ("status", json.Str status);
    ("payload", json.Object payload) ].

Definition error_payload_members (message code : string)
  : list (string * json.value) :=
  [ ("message", json.Str message); ("code", json.Str code) ].

(** The two headers that every request of the client carries. *)
Definition has_headers (c : TradingClient) (req : http.Request) : Prop :=
  http.Header_Get (http.Request_Header req) "Authorization"
    = Some ("Bearer " ++ token c)
  /\ http.Header_Get (http.Request_Header req) "Content-Type"
    = Some "application/json".

(** The requests handed to the HTTP client in a trace. *)
Fixpoint requests (tr : list event) : list http.Request :=
  match tr with
  | [] => []
  | EvDo req :: tr' => req :: requests tr'
  | _ :: tr' => requests tr'
  end.

(** The inputs given to [json.Unmarshal] in a trace. *)
Fixpoint unmarshalled (tr : list event) : list string :=
  match tr with
  | [] => []
  | EvUnmarshal data :: tr' => data :: unmarshalled tr'
  | _ :: tr' => unmarshalled tr'
  end.

(** The request that [newRequest] builds from a method, a parsed URL and
    the bytes of a body. *)
Definition built_request (c : TradingClient) (method : string) (u : url.URL)
    (body : string) : http.Request :=
  {| http.Method := method;
     http.URL := {| url.Scheme := url.Scheme u;
                    url.Opaque := url.Opaque u;
                    url.Host := http.removeEmptyPort (url.Host u);
                    url.Path := url.Path u;
                    url.RawPath := url.RawPath u;
                    url.ForceQuery := url.ForceQuery u;
                    url.RawQuery := url.RawQuery u;
                    url.Fragment := url.Fragment u |};
     http.Request_Header := [ ("Authorization", ["Bearer " ++ token c]);
                              ("Content-Type", ["application/json"]) ];
     http.Request_Body := body;
     http.ContentLength := Z.of_nat (String.length body) |}.

(** The success envelope of an endpoint around a payload [t]: the object
    with the member [payload], which holds the encoding of [t], or for the
    endpoints with a named list an object with that list as its member. *)
Definition ep_payload_json {D : Domain} {E : Encoders D} {P : Platform} {T : Type}
    (e : endpoint T) : T -> json.value :=
  match e in endpoint T return T -> json.value with
  | EpSearchInstrumentByFIGI _ => fun t => to_json t
  | EpSearchInstrumentByTicker _ => fun t => json.Object [("instruments", slice_to_json t)]
  | EpCurrencies => fun t => json.Object [("instruments", slice_to_json t)]
  | EpETFs => fun t => json.Object [("instruments", slice_to_json t)]
  | EpBonds => fun t => json.Object [("instruments", slice_to_json t)]
  | EpStocks => fun t => json.Object [("instruments", slice_to_json t)]
  | EpOperations _ _ _ => fun t => slice_to_json t
  | EpPositionsPortfolio => fun t => json.Object [("positions", slice_to_json t)]
  | EpCurrenciesPortfolio => fun t => json.Object [("currencies", slice_to_json t)]
  | EpLimitOrder _ _ _ _ => fun t => to_json t
  | EpOrders => fun t => slice_to_json t
  end.

Definition ep_response_json {D : Domain} {E : Encoders D} {P : Platform} {T : Type}
    (e : endpoint T) (t : T) : json.value :=
  json.Object [("payload", ep_payload_json e t)].

(** A JSON value that a struct takes: an object, or [null]. *)
Definition object_or_null (j : json.value) : bool :=
  match j with
  | json.Object _ | json.Null => true
  | _ => false
  end.

(** [j] has no member that is stored in the field of JSON name [field]. *)
Definition lacks_member (field : string) (j : json.value) : Prop :=
  match j with
  | json.Object ms => forall k v, In (k, v) ms -> names field k = false
  | _ => True
  end.

(** The decoder of [T] refuses the value [v]. *)
Definition rejects (T : Type) {U : json.Unmarshaler T} (v : json.value) : Prop :=
  exists (cur : T) (x : json.error), json.decode v cur = Err x.
Arguments rejects T {U} v.

(** ** The envelope of a payload, as a text

    The payload types with the encoding that [json.Marshal] gives them. *)
Class Marshalers (D : Domain) : Type := {
  Instrument_Marshaler :: json.Marshaler Instrument;
  Operation_Marshaler :: json.Marshaler Operation;
  PositionBalance_Marshaler :: json.Marshaler PositionBalance;
  CurrencyBalance_Marshaler :: json.Marshaler CurrencyBalance;
  PlacedLimitOrder_Marshaler :: json.Marshaler PlacedLimitOrder;
  Order_Marshaler :: json.Marshaler Order
}.

(** The [response] of an endpoint with the payload [t] in it. *)
Definition ep_response {D : Domain} {P : Platform} {T : Type} (e : endpoint T)
  : T -> response (env_field (ep_envelope e)) :=
  match e as e0 in endpoint T0
        return T0 -> response (env_field (ep_envelope e0)) with
  | EpSearchInstrumentByFIGI _ => fun t => Tagged t
  | EpSearchInstrumentByTicker _ => fun t => Tagged (Tagged t)
  | EpCurrencies => fun t => Tagged (Tagged t)
  | EpETFs => fun t => Tagged (Tagged t)
  | EpBonds => fun t => Tagged (Tagged t)
  | EpStocks => fun t => Tagged (Tagged t)
  | EpOperations _ _ _ => fun t => Tagged t
  | EpPositionsPortfolio => fun t => Tagged (Tagged t)
  | EpCurrenciesPortfolio => fun t => Tagged (Tagged t)
  | EpLimitOrder _ _ _ _ => fun t => Tagged t
  | EpOrders => fun t => Tagged t
  end.

(** The envelope around the payload [t] as [json.Marshal] writes it. *)
Definition ep_response_text {D : Domain} {M : Marshalers D} {P : Platform}
    {T : Type} (e : endpoint T) : T -> result string json.error :=
  match e as e0 in endpoint T0 return T0 -> result string json.error with
  | EpSearchInstrumentByFIGI figi =>
      fun t => json.Marshal (ep_response (EpSearchInstrumentByFIGI figi) t)
  | EpSearchInstrumentByTicker ticker =>
      fun t => json.Marshal (ep_response (EpSearchInstrumentByTicker ticker) t)
  | EpCurrencies => fun t => json.Marshal (ep_response EpCurrencies t)
  | EpETFs => fun t => json.Marshal (ep_response EpETFs t)
  | EpBonds => fun t => json.Marshal (ep_response EpBonds t)
  | EpStocks => fun t => json.Marshal (ep_response EpStocks t)
  | EpOperations from interval figi =>
      fun t => json.Marshal (ep_response (EpOperations from interval figi) t)
  | EpPositionsPortfolio => fun t => json.Marshal (ep_response EpPositionsPortfolio t)
  | EpCurrenciesPortfolio => fun t => json.Marshal (ep_response EpCurrenciesPortfolio t)
  | EpLimitOrder figi lots operation price =>
      fun t => json.Marshal (ep_response (EpLimitOrder figi lots operation price) t)
  | EpOrders => fun t => json.Marshal (ep_response EpOrders t)
  end.

(** [x] is read back: [json.Marshal] encodes it, and [json.Unmarshal]
    stores the very value [x] into a zero variable when it is given that
    encoding, also with [depth] objects and arrays around it. *)
Definition reads_back {A : Type} {M : json.Marshaler A} {U : json.Unmarshaler A}
    (depth : N) (x : A) : Prop :=
  exists (text : string) (j : json.value),
    json.Marshal x = Ok text
    /\ json.Parse text = Some j
    /\ (depth + json.nesting j <= json.maxNestingDepth)%N
    /\ json.decode j json.zero = Ok x.

(** Every element of a slice is read back. *)
Definition each_reads_back {A : Type} {M : json.Marshaler A} {U : json.Unmarshaler A}
    (depth : N) (s : option (list A)) : Prop :=
  forall x : A, In x (match s with Some l => l | None => [] end) -> reads_back depth x.

(** The parts of the payload of an endpoint are read back inside its
    envelope: the struct of an endpoint that returns one, each element of
    the list of an endpoint that returns a list.  The envelope puts one
    object around a struct, one object and one array around the elements
    of a list, and one more object around those of a named list. *)
Definition ep_reads_back {D : Domain} {M : Marshalers D} {P : Platform} {T : Type}
    (e : endpoint T) : T -> Prop :=
  match e in endpoint T0 return T0 -> Prop with
  | EpSearchInstrumentByFIGI _ => reads_back 1
  | EpSearchInstrumentByTicker _ => each_reads_back 3
  | EpCurrencies => each_reads_back 3
  | EpETFs => each_reads_back 3
  | EpBonds => each_reads_back 3
  | EpStocks => each_reads_back 3
  | EpOperations _ _ _ => each_reads_back 2
  | EpPositionsPortfolio => each_reads_back 3
  | EpCurrenciesPortfolio => each_reads_back 3
  | EpLimitOrder _ _ _ _ => reads_back 1
  | EpOrders => each_reads_back 2
  end.

(** The text of a struct with one field, of JSON name [key], around
    the text of that field. *)
Definition member_text (key text : string) : string :=
  String "{" (json.encode_string key ++ String ":" (text ++ "}")).

(** The encoding of the payloads of the reference domain. *)
Definition item_Marshaler : json.Marshaler Reference.item :=
  tagged_Marshaler (declared "sdk.Instrument") "figi".

Definition Reference_marshalers : Marshalers Reference.domain :=
  @Build_Marshalers Reference.domain item_Marshaler item_Marshaler item_Marshaler
    item_Marshaler item_Marshaler item_Marshaler.

(** A text of [n] arrays inside one another. *)
Definition nested (n : N) : string :=
  strings.Repeat "[" (N.to_nat n) ++ strings.Repeat "]" (N.to_nat n).

(** ** What the further properties speak of *)

(** The bodies closed in a trace, and the requests of a trace that the
    network answered with a response. *)
Fixpoint closes (tr : list event) : nat :=
  match tr with
  | [] => 0
  | EvClose :: tr' => S (closes tr')
  | _ :: tr' => closes tr'
  end.

Definition answered {P : Platform} (c : TradingClient) (req : http.Request) : bool :=
  match Client_Do (httpClient c) req with
  | Ok _ => true
  | Err _ => false
  end.

Fixpoint responses {P : Platform} (c : TradingClient) (tr : list event) : nat :=
  match tr with
  | [] => 0
  | EvDo req :: tr' => ((if answered c req then 1 else 0) + responses c tr')%nat
  | _ :: tr' => responses c tr'
  end.


(** The bytes that [url.QueryEscape] writes: the unreserved ones, the
    percent sign of an escape and the plus sign that stands for a space. *)
Definition escaped_byte (c : ascii) : bool :=
  url.unreserved c || Ascii.eqb c "%" || Ascii.eqb c "+".

(** The number of bytes [b] in [s]. *)
Fixpoint count_byte (b : ascii) (s : string) : nat :=
  match s with
  | EmptyString => 0
  | String c r => ((if Ascii.eqb c b then 1 else 0) + count_byte b r)%nat
  end.


(** A network that answers a request by the path of its URL, with status
    200 and the body listed for the path, and fails on other paths. *)
Definition routes (table : list (string * string))
  : http.Request -> result http.Response error_value :=
  fun req =>
    match find (fun r => String.eqb (fst r) (url.Path (http.URL req))) table with
    | Some (_, body) =>
        Ok {| http.StatusCode := 200; http.Response_Body := (body, None) |}
    | None => Err (External "connection refused")
    end.


(** The bytes of ASCII. *)
Definition is_ascii (c : ascii) : bool := (byte_code c <? 128)%N.

(** The parts of a JSON number: the integer part is 0 or starts with a
    digit from 1 to 9; the fraction is a point and digits; the exponent is
    the letter e, a sign or none, and digits. *)
Definition digits (s : string) : Prop :=
  s <> EmptyString /\ strings.forallb_bytes strings.is_digit s = true.

Definition int_part (ip : string) : Prop :=
  ip = "0"
  \/ exists (c : ascii) (ds : string),
       ip = String c ds /\ strings.is_digit c = true /\ Ascii.eqb c "0" = false
       /\ strings.forallb_bytes strings.is_digit ds = true.

Definition frac_part (fp : string) : Prop :=
  fp = EmptyString \/ exists ds : string, fp = String "." ds /\ digits ds.

Definition exp_part (ep : string) : Prop :=
  ep = EmptyString
  \/ exists sign ds : string,
       ep = String "e" (sign ++ ds)
       /\ (sign = EmptyString \/ sign = "+" \/ sign = "-") /\ digits ds.

Definition is_number (x : string) : Prop :=
  exists (neg : bool) (ip fp ep : string),
    x = (if neg then "-" else EmptyString) ++ ip ++ fp ++ ep
    /\ int_part ip /\ frac_part fp /\ exp_part ep.

(** What may follow a number literal: no digit, point or exponent letter. *)
Definition number_tail (t : string) : bool :=
  match t with
  | EmptyString => true
  | String c _ =>
      negb (strings.is_digit c || Ascii.eqb c "." || Ascii.eqb c "e" || Ascii.eqb c "E")
  end.

(** The four steps of [json.number_literal], each on its own. *)
Definition literal_sign (s : string) : string * string :=
  match s with
  | String c r => if Ascii.eqb c "-" then ("-", r) else ("", s)
  | EmptyString => ("", s)
  end.

Definition literal_int (s1 : string) : option (string * string) :=
  match s1 with
  | String c r =>
      if Ascii.eqb c "0" then Some ("0", r)
      else if strings.is_digit c then
        let (ds, rest) := json.span strings.is_digit r in Some (String c ds, rest)
      else None
  | EmptyString => None
  end.

Definition literal_frac (s2 : string) : option (string * string) :=
  match s2 with
  | String c r =>
      if Ascii.eqb c "." then
        match json.digits1 r with
        | Some (ds, rest) => Some (String "." ds, rest)
        | None => None
        end
      else Some ("", s2)
  | EmptyString => Some ("", s2)
  end.

Definition literal_exp (s3 : string) : option (string * string) :=
  match s3 with
  | String c r =>
      if Ascii.eqb c "e" || Ascii.eqb c "E" then
        let (esign, r1) :=
          match r with
          | String d r' =>
              if Ascii.eqb d "+" || Ascii.eqb d "-"
              then (String d "", r') else ("", r)
          | EmptyString => ("", r)
          end in
        match json.digits1 r1 with
        | Some (ds, rest) => Some (String c (esign ++ ds), rest)
        | None => None
        end
      else Some ("", s3)
  | EmptyString => Some ("", s3)
  end.

(** The first byte of [t], if it has one, does not satisfy [bad]. *)
Definition head_avoids (bad : ascii -> bool) (t : string) : Prop :=
  match t with
  | String c _ => bad c = false
  | EmptyString => True
  end.

(** * Properties *)

Unset Implicit Arguments.

(** ** Occurrences in byte strings *)

Lemma append_assoc (a b c : string) : (a ++ b) ++ c = a ++ (b ++ c).
Proof. induction a as [|x a IH]; simpl; [reflexivity | now rewrite IH]. Qed.

Lemma append_empty_r (a : string) : a ++ EmptyString = a.
Proof. induction a as [|x a IH]; simpl; [reflexivity | now rewrite IH]. Qed.

Lemma HasPrefix_iff (s p : string) :
  strings.HasPrefix s p = true <-> exists r, s = p ++ r.
Proof.
  revert s; induction p as [|c p IH]; intros s; simpl.
  - split; [intros _; now exists s | reflexivity].
  - destruct s as [|d s]; simpl.
    + split; [discriminate | intros [r Hr]; discriminate].
    + rewrite andb_true_iff, Ascii.eqb_eq, IH. split.
      * intros [-> [r ->]]. now exists r.
      * intros [r Hr]. injection Hr as -> ->. split; [reflexivity | now exists r].
Qed.

Lemma Contains_iff (s substr : string) :
  strings.Contains s substr = true <-> strings.Occurs substr s.
Proof.
  unfold strings.Occurs. induction s as [|c s IH].
  - simpl. rewrite orb_false_r, HasPrefix_iff. split.
    + intros [r Hr]. now exists EmptyString, r.
    + intros [[|x b] [a Ha]]; [now exists a | discriminate].
  - cbn [strings.Contains]. rewrite orb_true_iff, HasPrefix_iff, IH. split.
    + intros [[r Hr] | [b [a Ha]]].
      * now exists EmptyString, r.
      * exists (String c b), a. simpl. now rewrite Ha.
    + intros [[|x b] [a Ha]].
      * left. now exists a.
      * right. simpl in Ha. injection Ha as -> ->. now exists b, a.
Qed.

Lemma Occurs_middle (a s b : string) : strings.Occurs s (a ++ s ++ b).
Proof. now exists a, b. Qed.

Lemma Occurs_last (a s : string) : strings.Occurs s (a ++ s).
Proof. exists a, EmptyString. now rewrite append_empty_r. Qed.

Lemma Occurs_append_l (s a b : string) : strings.Occurs s a -> strings.Occurs s (a ++ b).
Proof.
  intros [x [y ->]]. exists x, (y ++ b). now rewrite !append_assoc.
Qed.

Lemma Occurs_append_r (s a b : string) : strings.Occurs s b -> strings.Occurs s (a ++ b).
Proof.
  intros [x [y ->]]. exists (a ++ x), y. now rewrite !append_assoc.
Qed.

Create HintDb occurs.
#[local] Hint Resolve Occurs_middle Occurs_last Occurs_append_l Occurs_append_r : occurs.

(** ** Decimal numerals *)

Section Numerals.

Local Open Scope N_scope.

Lemma byte_code_digit (d : N) : d < 10 -> byte_code (byte_of (48 + d)) - 48 = d.
Proof.
  intros H. unfold byte_code, byte_of. rewrite N_ascii_embedding by lia. lia.
Qed.

Lemma is_digit_byte_of (d : N) : d < 10 -> strings.is_digit (byte_of (48 + d)) = true.
Proof.
  intros H. unfold strings.is_digit, byte_code, byte_of.
  rewrite N_ascii_embedding by lia.
  apply andb_true_iff. split; apply N.leb_le; lia.
Qed.

Lemma digits_fuel_value (fuel : nat) :
  forall (n : N) (acc : string),
    n < 2 ^ N.of_nat fuel ->
    strconv.decimal_value (strconv.digits_fuel fuel n acc)
    = n * 10 ^ N.of_nat (String.length acc) + strconv.decimal_value acc.
Proof.
  induction fuel as [|fuel IH]; intros n acc Hn.
  - cbn in Hn. assert (n = 0) by lia. subst n. cbn. lia.
  - cbn [strconv.digits_fuel].
    assert (Hd : n mod 10 < 10) by (apply N.mod_lt; lia).
    destruct (N.ltb_spec n 10) as [Hlt | Hge].
    + cbn [strconv.decimal_value]. rewrite byte_code_digit by exact Hd.
      rewrite N.mod_small by exact Hlt. reflexivity.
    + rewrite IH.
      * cbn [strconv.decimal_value String.length].
        rewrite byte_code_digit by exact Hd.
        rewrite Nat2N.inj_succ, N.pow_succ_r'.
        rewrite (N.div_mod n 10) at 3 by lia. lia.
      * rewrite Nat2N.inj_succ, N.pow_succ_r' in Hn.
        apply N.Div0.div_lt_upper_bound. lia.
Qed.

Lemma digits_fuel_digits (fuel : nat) :
  forall (n : N) (acc : string),
    strings.forallb_bytes strings.is_digit acc = true ->
    strings.forallb_bytes strings.is_digit (strconv.digits_fuel fuel n acc) = true.
Proof.
  induction fuel as [|fuel IH]; intros n acc Hacc; [exact Hacc|].
  cbn [strconv.digits_fuel].
  assert (Hd : n mod 10 < 10) by (apply N.mod_lt; lia).
  assert (Hacc' : strings.forallb_bytes strings.is_digit
                    (String (byte_of (48 + n mod 10)) acc) = true)
    by (cbn [strings.forallb_bytes]; now rewrite is_digit_byte_of, Hacc).
  destruct (n <? 10); [exact Hacc' | exact (IH _ _ Hacc')].
Qed.

(** [FormatUint n] is a string of digits that writes [n]. *)
Lemma FormatUint_value (n : N) : strconv.decimal_value (strconv.FormatUint n) = n.
Proof.
  unfold strconv.FormatUint. rewrite digits_fuel_value.
  - cbn. lia.
  - rewrite Nat2N.inj_succ, N2Nat.id.
    destruct n as [|p]; [cbn; lia|]. apply N.log2_spec. lia.
Qed.

Lemma FormatUint_digits (n : N) :
  strings.forallb_bytes strings.is_digit (strconv.FormatUint n) = true.
Proof. apply digits_fuel_digits. reflexivity. Qed.

(** [Itoa i] writes [i]: its digits, after a minus sign when [i] is
    negative. *)
Lemma Itoa_value (i : Z) :
  (0 <= i)%Z /\ strconv.decimal_value (strconv.Itoa i) = Z.to_N i
  \/ (i < 0)%Z /\ exists ds, strconv.Itoa i = String "-" ds
                             /\ strconv.decimal_value ds = Z.to_N (- i).
Proof.
  destruct i as [|p|p].
  - left. split; [lia|]. reflexivity.
  - left. split; [lia|]. apply FormatUint_value.
  - right. split; [lia|]. eexists. split; [reflexivity|]. apply FormatUint_value.
Qed.

End Numerals.

(** ** The library models on sample inputs *)

Example Itoa_samples :
  strconv.Itoa 404 = "404" /\ strconv.Itoa 0 = "0" /\ strconv.Itoa (-17) = "-17".
Proof. repeat split. Qed.

Example encode_float64_samples :
  json.encode_float64 150.5%float = Ok "150.5"
  /\ json.encode_float64 0x1.999999999999ap-4%float = Ok "0.1"
  /\ json.encode_float64 100%float = Ok "100"
  /\ json.encode_float64 0x1.b1ae4d6e2ef5p+69%float = Ok "1e+21"
  /\ json.encode_float64 0x1.ad7f29abcaf48p-24%float = Ok "1e-7".
Proof. vm_compute. repeat split. Qed.


Example Parse_samples :
  json.Parse "{}" = Some (json.Object [])
  /\ json.Parse "" = None
  /\ json.Parse "<html>" = None
  /\ json.Parse (qq " {'a': [1, -2.5e3, true, null], 'b': 'x\n'} ")
     = Some (json.Object
               [ ("a", json.Array [ json.Number "1"; json.Number "-2.5e3";
                                    json.Bool true; json.Null ]);
                 ("b", json.Str (String "x" (String (byte_of 10) EmptyString))) ])
  /\ json.Parse (qq "{'a':1,}") = None
  /\ json.Parse "01" = None.
Proof. vm_compute. repeat split. Qed.

Example EqualFold_samples :
  json.EqualFold "payload" "PayLoad" = true
  /\ json.EqualFold "payload" "payloads" = false.
Proof. vm_compute. repeat split. Qed.

(** ** The scanner of JSON texts *)

Section Scanner.

Local Open Scope nat_scope.

Lemma skip_space_length (s : string) :
  String.length (json.skip_space s) <= String.length s.
Proof.
  induction s as [|c s IH]; simpl; [lia|].
  destruct (json.is_space c); simpl; lia.
Qed.

Lemma scan_string_length (s : string) :
  forall st raw rest, json.scan_string st s = Some (raw, rest) ->
    String.length rest < String.length s.
Proof.
  induction s as [|c s IH]; intros st raw rest; simpl; [discriminate|].
  assert (Hk : forall st',
             match json.scan_string st' s with
             | Some (raw0, rest0) => Some (String c raw0, rest0)
             | None => None
             end = Some (raw, rest) -> String.length rest < S (String.length s)).
  { intros st'. destruct (json.scan_string st' s) as [[raw0 rest0]|] eqn:E; [|discriminate].
    intros H; injection H as _ <-. apply IH in E. lia. }
  destruct st;
    repeat match goal with
      | |- (if ?b then _ else _) = _ -> _ => destruct b
      | |- Some _ = Some _ -> _ => intros H; injection H as _ <-; lia
      | |- None = Some _ -> _ => discriminate
      | |- _ => apply Hk
      end.
Qed.

Lemma string_literal_length (s lit rest : string) :
  json.string_literal s = Some (lit, rest) -> String.length rest < String.length s.
Proof.
  unfold json.string_literal.
  destruct (json.scan_string json.InString s) as [[raw r]|] eqn:E; [|discriminate].
  intros H; injection H as _ <-. exact (scan_string_length _ _ _ _ E).
Qed.

Lemma span_length (p : ascii -> bool) (s a b : string) :
  json.span p s = (a, b) -> String.length b <= String.length s.
Proof.
  revert a b; induction s as [|c s IH]; intros a b; simpl.
  - intros H; injection H as _ <-. simpl; lia.
  - destruct (p c).
    + destruct (json.span p s) as [a0 b0]. intros H; injection H as _ <-.
      specialize (IH _ _ eq_refl). lia.
    + intros H; injection H as _ <-. simpl; lia.
Qed.

Lemma digits1_length (s ds rest : string) :
  json.digits1 s = Some (ds, rest) -> String.length rest <= String.length s.
Proof.
  unfold json.digits1. destruct (json.span strings.is_digit s) as [a b] eqn:E.
  destruct a; [discriminate|]. intros H; injection H as _ <-.
  exact (span_length _ _ _ _ E).
Qed.

Lemma number_literal_length (s lit rest : string) :
  json.number_literal s = Some (lit, rest) -> String.length rest < String.length s.
Proof.
  unfold json.number_literal.
  set (sg := match s with String c r => if Ascii.eqb c "-" then ("-", r) else ("", s) | EmptyString => ("", s) end).
  assert (Hsg : String.length (snd sg) <= String.length s).
  { subst sg. destruct s as [|c r]; simpl; [lia|]. destruct (Ascii.eqb c "-"); simpl; lia. }
  destruct sg as [sign s1]. simpl in Hsg.
  destruct s1 as [|c r]; [discriminate|].
  set (ip := if Ascii.eqb c "0" then Some ("0", r) else if strings.is_digit c then let (ds, rest0) := json.span strings.is_digit r in Some (String c ds, rest0) else None).
  assert (Hip : forall x s2, ip = Some (x, s2) -> String.length s2 <= String.length r).
  { subst ip. intros x s2. destruct (Ascii.eqb c "0").
    - intros H; injection H as _ <-. lia.
    - destruct (strings.is_digit c); [|discriminate].
      destruct (json.span strings.is_digit r) as [ds rest0] eqn:E.
      intros H; injection H as _ <-. exact (span_length _ _ _ _ E). }
  destruct ip as [[x s2]|]; [|discriminate]. specialize (Hip _ _ eq_refl).
  simpl in Hsg.
  match goal with |- match ?fp with _ => _ end = _ -> _ => set (FP := fp) end.
  assert (Hfp : forall y s3, FP = Some (y, s3) -> String.length s3 <= String.length s2).
  { subst FP. intros y s3. destruct s2 as [|d r2].
    - intros H; injection H as _ <-. lia.
    - destruct (Ascii.eqb d ".").
      + destruct (json.digits1 r2) as [[ds rest0]|] eqn:E; [|discriminate].
        intros H; injection H as _ <-. apply digits1_length in E. simpl; lia.
      + intros H; injection H as _ <-. lia. }
  destruct FP as [[y s3]|]; [|discriminate]. specialize (Hfp _ _ eq_refl).
  match goal with |- match ?ep with _ => _ end = _ -> _ => set (EP := ep) end.
  assert (Hep : forall z s4, EP = Some (z, s4) -> String.length s4 <= String.length s3).
  { subst EP. intros z s4. destruct s3 as [|d r3].
    - intros H; injection H as _ <-. lia.
    - destruct (Ascii.eqb d "e" || Ascii.eqb d "E").
      + set (es := match r3 with String d0 r' => if Ascii.eqb d0 "+" || Ascii.eqb d0 "-" then (String d0 "", r') else ("", r3) | EmptyString => ("", r3) end).
        assert (Hes : String.length (snd es) <= String.length r3).
        { subst es. destruct r3 as [|d0 r']; simpl; [lia|].
          destruct (Ascii.eqb d0 "+" || Ascii.eqb d0 "-"); simpl; lia. }
        destruct es as [esign r1]. simpl in Hes.
        destruct (json.digits1 r1) as [[ds rest0]|] eqn:E; [|discriminate].
        intros H; injection H as _ <-. apply digits1_length in E. simpl; lia.
      + intros H; injection H as _ <-. lia. }
  destruct EP as [[z s4]|]; [|discriminate]. specialize (Hep _ _ eq_refl).
  intros H; injection H as _ <-. lia.
Qed.

Lemma strip_prefix_length (p s r : string) :
  json.strip_prefix p s = Some r -> String.length s = String.length p + String.length r.
Proof.
  revert s; induction p as [|a p IH]; intros s; simpl.
  - intros H; injection H as <-. lia.
  - destruct s as [|c s]; [discriminate|]. destruct (Ascii.eqb a c); [|discriminate].
    intros H. apply IH in H. simpl; lia.
Qed.

Ltac lens :=
  repeat match goal with
    | E : json.skip_space ?a = ?b |- _ =>
        let L := fresh "L" in
        pose proof (skip_space_length a) as L; rewrite E in L; revert E
    | E : json.string_literal ?a = Some (_, _) |- _ =>
        let L := fresh "L" in
        pose proof (string_literal_length _ _ _ E) as L; revert E
    | E : json.number_literal ?a = Some (_, _) |- _ =>
        let L := fresh "L" in
        pose proof (number_literal_length _ _ _ E) as L; revert E
    | E : json.strip_prefix ?a ?b = Some _ |- _ =>
        let L := fresh "L" in
        pose proof (strip_prefix_length _ _ _ E) as L; revert E
    end;
  intros;
  repeat match goal with
    | _ : context [json.skip_space ?a] |- _ =>
        lazymatch goal with
        | _ : String.length (json.skip_space a) <= String.length a |- _ => fail
        | _ => pose proof (skip_space_length a)
        end
    | |- context [json.skip_space ?a] =>
        lazymatch goal with
        | _ : String.length (json.skip_space a) <= String.length a |- _ => fail
        | _ => pose proof (skip_space_length a)
        end
    end;
  simpl String.length in *.

Ltac step IHv IHm IHe :=
  match goal with
  | H : None = Some _ |- _ => discriminate H
  | H : Some _ = Some _ |- _ => injection H as <- <-
  | H : option_map _ ?x = Some _ |- _ =>
      destruct x eqn:?; [cbn [option_map] in H |- * | discriminate H]
  | H : context [match json.parse_value ?f ?d ?x with _ => _ end] |- _ =>
      let E := fresh "E" in
      let Hl := fresh "Hl" in
      let Hm := fresh "Hm" in
      destruct (json.parse_value f d x) as [[? ?]|] eqn:E;
      [destruct (IHv _ _ _ _ E) as [Hl Hm]; try (rewrite Hm by (lens; lia))
      | discriminate H]
  | H : (match ?x with _ => _ end) = Some _ |- _ => destruct x eqn:?
  | H : (if ?b then _ else _) = Some _ |- _ => destruct b eqn:?
  end.

Ltac tail_call IHv IHm IHe :=
  match goal with
  | H : json.parse_members _ _ _ _ = Some _ |- json.parse_members _ _ _ _ = Some _ =>
      apply (proj2 (IHm _ _ _ _ _ H)); lens; lia
  | H : json.parse_elements _ _ _ _ = Some _ |- json.parse_elements _ _ _ _ = Some _ =>
      apply (proj2 (IHe _ _ _ _ _ H)); lens; lia
  | H : json.parse_members _ _ _ _ = Some _ |- _ < _ =>
      apply IHm in H as [? _]; lens; lia
  | H : json.parse_elements _ _ _ _ = Some _ |- _ < _ =>
      apply IHe in H as [? _]; lens; lia
  | |- _ < _ => lens; lia
  | |- Some _ = Some _ => reflexivity
  end.

Lemma parse_fuel (f : nat) :
  (forall d s v r, json.parse_value f d s = Some (v, r) ->
     String.length r < String.length s /\
     forall m, 2 * String.length s + 1 <= m -> json.parse_value m d s = Some (v, r))
  /\ (forall d s acc v r, json.parse_members f d s acc = Some (v, r) ->
     String.length r < String.length s /\
     forall m, 2 * String.length s + 1 <= m ->
       json.parse_members m d s acc = Some (v, r))
  /\ (forall d s acc v r, json.parse_elements f d s acc = Some (v, r) ->
     String.length r < String.length s /\
     forall m, 2 * String.length s + 2 <= m ->
       json.parse_elements m d s acc = Some (v, r)).
Proof.
  induction f as [|f [IHv [IHm IHe]]].
  { repeat split; discriminate. }
  split; [|split].
  - intros d s v r H. cbn [json.parse_value] in H. split.
    + repeat step IHv IHm IHe; tail_call IHv IHm IHe.
    + intros m Hm. destruct m as [|m]; [lia|]. cbn [json.parse_value].
      repeat step IHv IHm IHe; tail_call IHv IHm IHe.
  - intros d s acc v r H. cbn [json.parse_members] in H. split.
    + repeat step IHv IHm IHe; tail_call IHv IHm IHe.
    + intros m Hm. destruct m as [|m]; [lia|]. cbn [json.parse_members].
      repeat step IHv IHm IHe; tail_call IHv IHm IHe.
  - intros d s acc v r H. cbn [json.parse_elements] in H. split.
    + repeat step IHv IHm IHe; tail_call IHv IHm IHe.
    + intros m Hm. destruct m as [|m]; [lia|]. cbn [json.parse_elements].
      repeat step IHv IHm IHe; tail_call IHv IHm IHe.
Qed.

(** Fuel: a value that is read with some fuel is read with the fuel that
    [Parse] gives, so that [Parse] refuses an input only when no fuel
    makes a JSON text of it. *)
Theorem parse_value_fuel (f : nat) (d : N) (s : string) (v : json.value)
    (r : string) :
  json.parse_value f d s = Some (v, r) ->
  json.parse_value (2 * String.length s + 1) d s = Some (v, r).
Proof.
  intros H. destruct (parse_fuel f) as [Hv _].
  apply (proj2 (Hv d s v r H)). lia.
Qed.

Corollary Parse_complete (f : nat) (data : string) (v : json.value) (rest : string) :
  json.parse_value f 0 data = Some (v, rest) ->
  json.skip_space rest = EmptyString ->
  json.Parse data = Some v.
Proof.
  intros H Hrest. unfold json.Parse.
  now rewrite (parse_value_fuel f 0 data v rest H), Hrest.
Qed.

End Scanner.

(** ** The bound on nesting *)

Lemma nesting_members_le (ms : list (string * json.value)) (b : N) :
  (forall k x, In (k, x) ms -> (json.nesting x <= b)%N) ->
  (json.nesting (json.Object ms) <= 1 + b)%N.
Proof.
  cbn [json.nesting]. induction ms as [|[k x] ms IH]; cbn [fold_right snd]; intros H; [lia|].
  pose proof (H k x (or_introl eq_refl)).
  assert (forall k0 x0, In (k0, x0) ms -> (json.nesting x0 <= b)%N) as H'
    by (intros; eapply H; right; eassumption).
  specialize (IH H'). lia.
Qed.

Lemma nesting_elements_le (js : list json.value) (b : N) :
  (forall j, In j js -> (json.nesting j <= b)%N) ->
  (json.nesting (json.Array js) <= 1 + b)%N.
Proof.
  cbn [json.nesting]. induction js as [|j js IH]; cbn [fold_right]; intros H; [lia|].
  pose proof (H j (or_introl eq_refl)).
  assert (forall j0, In j0 js -> (json.nesting j0 <= b)%N) as H' by (intros; apply H; now right).
  specialize (IH H'). lia.
Qed.

(** What the scanner reads at depth [d] has no more than
    [maxNestingDepth] objects and arrays inside one another, those around
    it counted. *)
Lemma parse_within_bound (f : nat) :
  (forall d s v r, json.parse_value f d s = Some (v, r) ->
     (d <= json.maxNestingDepth)%N ->
     (d + json.nesting v <= json.maxNestingDepth)%N)
  /\ (forall d s acc v r, json.parse_members f d s acc = Some (v, r) ->
     (d <= json.maxNestingDepth)%N ->
     (forall k x, In (k, x) acc -> (d + json.nesting x <= json.maxNestingDepth)%N) ->
     exists ms, v = json.Object ms
       /\ forall k x, In (k, x) ms -> (d + json.nesting x <= json.maxNestingDepth)%N)
  /\ (forall d s acc v r, json.parse_elements f d s acc = Some (v, r) ->
     (d <= json.maxNestingDepth)%N ->
     (forall x, In x acc -> (d + json.nesting x <= json.maxNestingDepth)%N) ->
     exists vs, v = json.Array vs
       /\ forall x, In x vs -> (d + json.nesting x <= json.maxNestingDepth)%N).
Proof.
  induction f as [|f [IHv [IHm IHe]]]; [repeat split; discriminate|].
  split; [|split].
  - intros d s v r H Hd. cbn [json.parse_value] in H.
    destruct (json.skip_space s) as [|c r0]; [discriminate|].
    destruct (Ascii.eqb c "{").
    { destruct (N.ltb_spec d json.maxNestingDepth) as [Hlt|]; [|discriminate].
      destruct (json.skip_space r0) as [|c' r']; [discriminate|].
      destruct (Ascii.eqb c' "}").
      - injection H as <- <-. cbn [json.nesting fold_right]. lia.
      - destruct (IHm _ _ _ _ _ H) as (ms & -> & Hms); [lia | intros k x [] |].
        pose proof (nesting_members_le ms (json.maxNestingDepth - (d + 1))%N) as Hle.
        assert (forall k x, In (k, x) ms ->
                  (json.nesting x <= json.maxNestingDepth - (d + 1))%N) as Hb.
        { intros k x Hin. specialize (Hms k x Hin). lia. }
        specialize (Hle Hb). lia. }
    destruct (Ascii.eqb c "[").
    { destruct (N.ltb_spec d json.maxNestingDepth) as [Hlt|]; [|discriminate].
      destruct (json.skip_space r0) as [|c' r']; [discriminate|].
      destruct (Ascii.eqb c' "]").
      - injection H as <- <-. cbn [json.nesting fold_right]. lia.
      - destruct (IHe _ _ _ _ _ H) as (vs & -> & Hvs); [lia | intros x [] |].
        pose proof (nesting_elements_le vs (json.maxNestingDepth - (d + 1))%N) as Hle.
        assert (forall x, In x vs ->
                  (json.nesting x <= json.maxNestingDepth - (d + 1))%N) as Hb.
        { intros x Hin. specialize (Hvs x Hin). lia. }
        specialize (Hle Hb). lia. }
    assert (Hs : json.nesting v = 0%N).
    { destruct (Ascii.eqb c dquote).
      { destruct (json.string_literal r0) as [[str rest]|]; [|discriminate].
        now injection H as <- <-. }
      destruct (Ascii.eqb c "t").
      { destruct (json.strip_prefix "true" (String c r0)); [|discriminate].
        now injection H as <- <-. }
      destruct (Ascii.eqb c "f").
      { destruct (json.strip_prefix "false" (String c r0)); [|discriminate].
        now injection H as <- <-. }
      destruct (Ascii.eqb c "n").
      { destruct (json.strip_prefix "null" (String c r0)); [|discriminate].
        now injection H as <- <-. }
      destruct (json.number_literal (String c r0)) as [[lit rest]|]; [|discriminate].
      now injection H as <- <-. }
    lia.
  - intros d s acc v r H Hd Hacc. cbn [json.parse_members] in H.
    destruct s as [|q r0]; [discriminate|].
    destruct (Ascii.eqb q dquote); [|discriminate].
    destruct (json.string_literal r0) as [[key r1]|]; [|discriminate].
    destruct (json.skip_space r1) as [|colon r2]; [discriminate|].
    destruct (Ascii.eqb colon ":"); [|discriminate].
    destruct (json.parse_value f d r2) as [[vm r3]|] eqn:Ev; [|discriminate].
    pose proof (IHv _ _ _ _ Ev Hd) as Hvm.
    assert (Hacc' : forall k x, In (k, x) ((key, vm) :: acc) ->
                      (d + json.nesting x <= json.maxNestingDepth)%N).
    { intros k x [[= <- <-] | Hin]; [exact Hvm | exact (Hacc k x Hin)]. }
    destruct (json.skip_space r3) as [|dd r4]; [discriminate|].
    destruct (Ascii.eqb dd ",").
    + exact (IHm _ _ _ _ _ H Hd Hacc').
    + destruct (Ascii.eqb dd "}"); [|discriminate]. injection H as <- <-.
      exists (rev ((key, vm) :: acc)). split; [reflexivity|]. intros k x Hin.
      exact (Hacc' k x (proj2 (in_rev ((key, vm) :: acc) (k, x)) Hin)).
  - intros d s acc v r H Hd Hacc. cbn [json.parse_elements] in H.
    destruct (json.parse_value f d s) as [[vm r1]|] eqn:Ev; [|discriminate].
    pose proof (IHv _ _ _ _ Ev Hd) as Hvm.
    assert (Hacc' : forall x, In x (vm :: acc) ->
                      (d + json.nesting x <= json.maxNestingDepth)%N).
    { intros x [<- | Hin]; [exact Hvm | exact (Hacc x Hin)]. }
    destruct (json.skip_space r1) as [|dd r2]; [discriminate|].
    destruct (Ascii.eqb dd ",").
    + exact (IHe _ _ _ _ _ H Hd Hacc').
    + destruct (Ascii.eqb dd "]"); [|discriminate]. injection H as <- <-.
      exists (rev (vm :: acc)). split; [reflexivity|]. intros x Hin.
      exact (Hacc' x (proj2 (in_rev (vm :: acc) x) Hin)).
Qed.

(** A JSON text has no more than [maxNestingDepth] objects and arrays
    inside one another. *)
Lemma Parse_nesting (data : string) (j : json.value) :
  json.Parse data = Some j -> (json.nesting j <= json.maxNestingDepth)%N.
Proof.
  unfold json.Parse.
  destruct (json.parse_value _ 0 data) as [[v r]|] eqn:E; [|discriminate].
  destruct (json.skip_space r); [|discriminate]. intros [= <-].
  destruct (parse_within_bound (2 * String.length data + 1)) as [Hv _].
  exact (Hv _ _ _ _ E ltac:(discriminate)).
Qed.

(** The bound, on sample texts: ten thousand arrays inside one another
    are a JSON text, one more is none; and an object counts as well. *)
Example nesting_bound :
  json.Valid (nested 10000) = true
  /\ json.Valid (nested 10001) = false
  /\ json.Valid (qq "{'x':" ++ nested 9999 ++ "}") = true
  /\ json.Valid (qq "{'x':" ++ nested 10000 ++ "}") = false
  /\ json.Valid (qq "{'trackingId':" ++ nested 10000 ++ qq ",'payload':[]}") = false.
Proof. vm_compute. repeat split. Qed.

(** ** The response classifier *)

Section Classifier.

Context {P : Platform} {D : Domain}.
Variable c : TradingClient.
Variable req : http.Request.

(** What [doRequest] returns, by the outcome of the round trip. *)
Lemma doRequest_transport_error (cause : error_value) :
  Client_Do (httpClient c) req = Err cause ->
  doRequest c req =
    ([EvDo req],
     (None, Some (Wrapf cause ("can't do request to " ++ url.RawPath (http.URL req))))).
Proof. intros H. unfold doRequest, httpClient_Do. cbn. now rewrite H. Qed.

Lemma doRequest_read_error (status : Z) (data : string) (cause : error_value) :
  Client_Do (httpClient c) req =
    Ok {| http.StatusCode := status; http.Response_Body := (data, Some cause) |} ->
  doRequest c req =
    ([EvDo req; EvClose],
     (None, Some (Wrapf cause ("can't read response body to "
                               ++ url.RawPath (http.URL req))))).
Proof. intros H. unfold doRequest, httpClient_Do. cbn. now rewrite H. Qed.

Lemma doRequest_200 (body : string) :
  Client_Do (httpClient c) req =
    Ok {| http.StatusCode := 200; http.Response_Body := (body, None) |} ->
  doRequest c req = ([EvDo req; EvClose], (Some body, None)).
Proof. intros H. unfold doRequest, httpClient_Do. cbn. now rewrite H. Qed.

Lemma doRequest_404 (body : string) :
  Client_Do (httpClient c) req =
    Ok {| http.StatusCode := 404; http.Response_Body := (body, None) |} ->
  doRequest c req = ([EvDo req; EvClose], (None, Some ErrNotFound)).
Proof. intros H. unfold doRequest, httpClient_Do. cbn. now rewrite H. Qed.

Lemma doRequest_other (status : Z) (body : string) :
  Client_Do (httpClient c) req =
    Ok {| http.StatusCode := status; http.Response_Body := (body, None) |} ->
  status <> 200 -> status <> 404 ->
  doRequest c req =
    ([EvDo req; EvUnmarshal body; EvClose],
     (None,
      Some match json.Unmarshal body (json.zero : TradingError) with
           | Ok tradingError => ATradingError tradingError
           | Err _ =>
               Errorf ("bad response to " ++ url.RawPath (http.URL req)
                       ++ " code=" ++ strconv.Itoa status ++ ", body=" ++ body)
           end)).
Proof.
  intros H H200 H404. unfold doRequest, httpClient_Do. cbn. rewrite H. cbn.
  unfold http.StatusOK, http.StatusNotFound.
  destruct (Z.eqb_spec status 200) as [|_]; [contradiction|].
  destruct (Z.eqb_spec status 404) as [|_]; [contradiction|].
  cbn. now destruct (json.Unmarshal body _).
Qed.

End Classifier.

(** ** Decoding the error envelope *)

Lemma Permutation_3 (A : Type) (a b c : A) (l : list A) :
  Permutation l [a; b; c] ->
  l = [a; b; c] \/ l = [a; c; b] \/ l = [b; a; c]
  \/ l = [b; c; a] \/ l = [c; a; b] \/ l = [c; b; a].
Proof.
  intros H. apply Permutation_sym in H.
  pose proof (Permutation_length H) as Hl.
  destruct l as [|x [|y [|z [|? ?]]]]; try discriminate Hl.
  assert (Hx : In x [a; b; c]) by (eapply Permutation_in; [apply Permutation_sym, H | now left]).
  destruct Hx as [<- | [<- | [<- | []]]].
  - apply Permutation_cons_inv, Permutation_length_2_inv in H.
    destruct H as [H | H]; injection H as <- <-; auto.
  - assert (H' : Permutation (b :: [a; c]) (b :: [y; z]))
      by (eapply Permutation_trans; [apply perm_swap | exact H]).
    apply Permutation_cons_inv, Permutation_length_2_inv in H'.
    destruct H' as [H' | H']; injection H' as <- <-; auto 6.
  - assert (H' : Permutation (c :: [a; b]) (c :: [y; z])).
    { eapply Permutation_trans; [| exact H].
      change [a; b; c] with ([a; b] ++ [c])%list.
      apply Permutation_cons_append. }
    apply Permutation_cons_inv, Permutation_length_2_inv in H'.
    destruct H' as [H' | H']; injection H' as <- <-; auto 8.
Qed.

(** The decoder reads the envelope whatever the order of its members. *)
Lemma decode_error_envelope (ms pms : list (string * json.value))
    (trackingId status message code : string) :
  Permutation ms (error_envelope_members trackingId status pms) ->
  Permutation pms (error_payload_members message code) ->
  json.decode (json.Object ms) (json.zero : TradingError)
  = Ok {| TrackingID := trackingId; Status := status;
          Payload := {| Message := message; Code := code |} |}.
Proof.
  intros Hm Hp.
  apply Permutation_sym, Permutation_length_2_inv in Hp.
  apply Permutation_3 in Hm.
  destruct Hp as [-> | ->];
    destruct Hm as [-> | [-> | [-> | [-> | [-> | ->]]]]]; reflexivity.
Qed.

(** ** The claims about the classifier *)

(** C1: a response with status 404 makes [doRequest] return the sentinel
    [ErrNotFound] and a nil body whatever the body of the response holds,
    and the body is given to no decoder: the trace of the call is the round
    trip and the closing of the body, with no call of [json.Unmarshal]. *)
Theorem doRequest_404_ErrNotFound :
  forall (P : Platform) (c : TradingClient) (req : http.Request) (body : string),
    Client_Do (httpClient c) req =
      Ok {| http.StatusCode := 404; http.Response_Body := (body, None) |} ->
    value (doRequest c req) = (None, Some ErrNotFound)
    /\ trace (doRequest c req) = [EvDo req; EvClose]
    /\ unmarshalled (trace (doRequest c req)) = [].
Proof.
  intros P c req body H. rewrite (@doRequest_404 P c req body H). now repeat split.
Qed.

Lemma doRequest_404_ErrNotFound_witness :
  let P := Reference.platform (Reference.answer 404 "<html>no such page</html>") in
  value (doRequest Reference.client Reference.orders_request) = (None, Some ErrNotFound)
  /\ trace (doRequest Reference.client Reference.orders_request)
     = [EvDo Reference.orders_request; EvClose]
  /\ unmarshalled (trace (doRequest Reference.client Reference.orders_request)) = [].
Proof.
  intros P.
  apply (@doRequest_404_ErrNotFound P Reference.client Reference.orders_request
           "<html>no such page</html>").
  reflexivity.
Defined.

(** C2: on a response whose status is neither 200 nor 404, [doRequest]
    returns as its error the [TradingError] that [json.Unmarshal] makes of
    the body, whenever it makes one; when the body is the error envelope of
    the broker, its members in any order, that [TradingError] has the four
    strings of the envelope in its fields; and [NotEnoughBalance] holds of
    a [TradingError] exactly when its code is NOT_ENOUGH_BALANCE. *)
Theorem doRequest_TradingError :
  forall (P : Platform) (c : TradingClient) (req : http.Request)
         (status : Z) (body : string),
    Client_Do (httpClient c) req =
      Ok {| http.StatusCode := status; http.Response_Body := (body, None) |} ->
    status <> 200 -> status <> 404 ->
    (forall t : TradingError,
        json.Unmarshal body (json.zero : TradingError) = Ok t ->
        value (doRequest c req) = (None, Some (ATradingError t)))
    /\ (forall (ms pms : list (string * json.value))
               (trackingId status_ message code : string),
           json.Parse body = Some (json.Object ms) ->
           Permutation ms (error_envelope_members trackingId status_ pms) ->
           Permutation pms (error_payload_members message code) ->
           json.Unmarshal body (json.zero : TradingError)
           = Ok {| TrackingID := trackingId; Status := status_;
                   Payload := {| Message := message; Code := code |} |})
    /\ (forall t : TradingError,
           NotEnoughBalance t = true <-> Code (Payload t) = "NOT_ENOUGH_BALANCE").
Proof.
  intros P c req status body H H200 H404. split; [|split].
  - intros t Ht. now rewrite (doRequest_other c req status body H H200 H404), Ht.
  - intros ms pms trackingId status_ message code Hparse Hm Hp.
    unfold json.Unmarshal. rewrite Hparse.
    exact (decode_error_envelope _ _ _ _ _ _ Hm Hp).
  - intros t. unfold NotEnoughBalance. apply String.eqb_eq.
Qed.

Lemma doRequest_TradingError_witness :
  let body := qq "{'payload':{'code':'NOT_ENOUGH_BALANCE','message':'no money'}, 'trackingId':'a1b2','status':'Error'}" in
  let P := Reference.platform (Reference.answer 500 body) in
  let t := {| TrackingID := "a1b2"; Status := "Error";
              Payload := {| Message := "no money"; Code := "NOT_ENOUGH_BALANCE" |} |} in
  value (doRequest Reference.client Reference.orders_request)
  = (None, Some (ATradingError t))
  /\ NotEnoughBalance t = true.
Proof.
  intros body P t.
  destruct (@doRequest_TradingError P Reference.client Reference.orders_request
              500 body eq_refl) as [Hreturn [Henvelope Hbalance]];
    [discriminate | discriminate |].
  split.
  - apply Hreturn.
    apply (Henvelope
             [ ("payload", json.Object [ ("code", json.Str "NOT_ENOUGH_BALANCE");
                                         ("message", json.Str "no money") ]);
               ("trackingId", json.Str "a1b2");
               ("status", json.Str "Error") ]
             [ ("code", json.Str "NOT_ENOUGH_BALANCE"); ("message", json.Str "no money") ]).
    + vm_compute. reflexivity.
    + unfold error_envelope_members.
      change (Permutation
                (("payload", json.Object
                    [ ("code", json.Str "NOT_ENOUGH_BALANCE");
                      ("message", json.Str "no money") ])
                 :: [ ("trackingId", json.Str "a1b2"); ("status", json.Str "Error") ])
                ([ ("trackingId", json.Str "a1b2"); ("status", json.Str "Error") ]
                 ++ [ ("payload", json.Object
                         [ ("code", json.Str "NOT_ENOUGH_BALANCE");
                           ("message", json.Str "no money") ]) ])%list).
      apply Permutation_cons_append.
    + apply perm_swap.
  - apply Hbalance. reflexivity.
Defined.

(** C3: a response whose status is neither 200 nor 404 and whose body
    [json.Unmarshal] cannot store in a [TradingError] makes [doRequest]
    return an error made by [errors.Errorf], whose message contains the
    status code in decimal and the body as it came. *)
Theorem doRequest_generic_error :
  forall (P : Platform) (c : TradingClient) (req : http.Request)
         (status : Z) (body : string) (cause : json.error),
    Client_Do (httpClient c) req =
      Ok {| http.StatusCode := status; http.Response_Body := (body, None) |} ->
    status <> 200 -> status <> 404 ->
    json.Unmarshal body (json.zero : TradingError) = Err cause ->
    exists msg : string,
      value (doRequest c req) = (None, Some (Errorf msg))
      /\ Error (Errorf msg) = msg
      /\ strings.Occurs (strconv.Itoa status) msg
      /\ strings.Occurs body msg.
Proof.
  intros P c req status body cause H H200 H404 Hbad.
  rewrite (@doRequest_other P c req status body H H200 H404), Hbad.
  eexists. split; [reflexivity|]. split; [reflexivity|]. split.
  - apply Occurs_append_r, Occurs_append_r, Occurs_append_r, Occurs_append_l.
    exists EmptyString, EmptyString. now rewrite append_empty_r.
  - auto with occurs.
Qed.

Lemma doRequest_generic_error_witness :
  let P := Reference.platform (Reference.answer 502 "<html>Bad Gateway</html>") in
  exists msg : string,
    value (doRequest Reference.client Reference.orders_request) = (None, Some (Errorf msg))
    /\ Error (Errorf msg) = msg
    /\ strings.Occurs "502" msg
    /\ strings.Occurs "<html>Bad Gateway</html>" msg.
Proof.
  intros P.
  apply (@doRequest_generic_error P Reference.client Reference.orders_request 502
           "<html>Bad Gateway</html>" json.SyntaxError).
  - reflexivity.
  - discriminate.
  - discriminate.
  - vm_compute. reflexivity.
Defined.

(** C5: whatever the round trip gives, [doRequest] returns exactly one of
    a body and an error: with an error the body is nil, with a body the
    error is nil, and one of the two is not nil. *)
Theorem doRequest_body_xor_error :
  forall (P : Platform) (c : TradingClient) (req : http.Request),
    let (body, err) := value (doRequest c req) in
    (err <> None -> body = None)
    /\ (body <> None -> err = None)
    /\ (body <> None \/ err <> None).
Proof.
  intros P c req.
  destruct (Client_Do (httpClient c) req) as [[status [body [cause|]]]|cause] eqn:H.
  - rewrite (@doRequest_read_error P c req status body cause H). cbn.
    repeat split; try congruence. right. discriminate.
  - destruct (Z.eq_dec status 200) as [-> | H200].
    { rewrite (@doRequest_200 P c req body H). cbn.
      repeat split; try congruence. left. discriminate. }
    destruct (Z.eq_dec status 404) as [-> | H404].
    { rewrite (@doRequest_404 P c req body H). cbn.
      repeat split; try congruence. right. discriminate. }
    rewrite (@doRequest_other P c req status body H H200 H404). cbn.
    repeat split; try congruence. right. discriminate.
  - rewrite (@doRequest_transport_error P c req cause H). cbn.
    repeat split; try congruence. right. discriminate.
Qed.

(** ** The request builder *)

Section Builder.

Context {P : Platform}.
Variable c : TradingClient.

Lemma newRequest_built (method url : string) (body : string) (u : url.URL) :
  http.validMethod method = true ->
  url_Parse url = Some u ->
  newRequest c method url (Some body) = Ok (built_request c method u body).
Proof.
  intros Hm Hu. unfold newRequest, http_NewRequest.
  destruct (String.eqb_spec method EmptyString) as [-> | _]; [discriminate Hm|].
  rewrite Hm, Hu. reflexivity.
Qed.

Lemma newRequest_built_nil (method url : string) (u : url.URL) :
  http.validMethod method = true ->
  url_Parse url = Some u ->
  newRequest c method url None = Ok (built_request c method u EmptyString).
Proof.
  intros Hm Hu. unfold newRequest, http_NewRequest.
  destruct (String.eqb_spec method EmptyString) as [-> | _]; [discriminate Hm|].
  rewrite Hm, Hu. reflexivity.
Qed.

Lemma newRequest_has_headers (method url : string) (body : option string)
    (req : http.Request) :
  newRequest c method url body = Ok req -> has_headers c req.
Proof.
  unfold newRequest. destruct (http_NewRequest method url body) as [req0|] eqn:H0;
    [|discriminate].
  intros H; injection H as <-.
  unfold http_NewRequest in H0.
  destruct (negb _); [discriminate|].
  destruct (url_Parse url); [|discriminate].
  injection H0 as <-. split; reflexivity.
Qed.

Lemma newRequest_error (method url : string) (body : option string) (err : error_value) :
  newRequest c method url body = Err err ->
  err = Errorf ("can't create http request to " ++ url).
Proof.
  unfold newRequest. destruct (http_NewRequest method url body); [discriminate|].
  now intros H; injection H as <-.
Qed.

End Builder.

(** ** Traces *)

Lemma requests_app (t1 t2 : list event) :
  requests (t1 ++ t2)%list = (requests t1 ++ requests t2)%list.
Proof.
  induction t1 as [|[r| |] t1 IH]; simpl; [reflexivity | now rewrite IH | exact IH | exact IH].
Qed.

Lemma trace_bind (A B : Type) (m : IO A) (k : A -> IO B) :
  trace (bind m k) = (trace m ++ trace (k (value m)))%list.
Proof. destruct m as [t1 a]. unfold bind, trace, value. cbn. now destruct (k a). Qed.

Lemma value_bind (A B : Type) (m : IO A) (k : A -> IO B) :
  value (bind m k) = value (k (value m)).
Proof. destruct m as [t1 a]. unfold bind, value. cbn. now destruct (k a). Qed.

Lemma requests_doRequest {P : Platform} (c : TradingClient) (req : http.Request) :
  requests (trace (doRequest c req)) = [req].
Proof.
  destruct (Client_Do (httpClient c) req) as [[status [body [cause|]]]|cause] eqn:H.
  - now rewrite (@doRequest_read_error P c req status body cause H).
  - destruct (Z.eq_dec status 200) as [-> | H200].
    { now rewrite (@doRequest_200 P c req body H). }
    destruct (Z.eq_dec status 404) as [-> | H404].
    { now rewrite (@doRequest_404 P c req body H). }
    now rewrite (@doRequest_other P c req status body H H200 H404).
  - now rewrite (@doRequest_transport_error P c req cause H).
Qed.

(** ** The endpoints and their shape *)

Section Shape.

Context {P : Platform} {D : Domain}.
Variable c : TradingClient.

Ltac endpoint_shape :=
  match goal with
  | |- context [newRequest ?a ?b ?p ?d] => destruct (newRequest a b p d) as [req|err]
  end; [|reflexivity];
  match goal with
  | |- context [doRequest ?a ?r] => destruct (doRequest a r) as [tr [respBody [err|]]]
  end; [reflexivity|];
  unfold bind, json_Unmarshal, env_unmarshal, emit, ret, Payload_of;
  cbn [env_field env_get whole named env_json];
  match goal with
  | |- context [json.Unmarshal ?d ?z] => destruct (json.Unmarshal d z)
  end; reflexivity.

(** Every endpoint is an instance of [run]. *)
Lemma call_run (T : Type) (e : endpoint T) : call c e = run c e.
Proof.
  destruct e;
    unfold call, SearchInstrumentByFIGI, SearchInstrumentByTicker, Currencies, ETFs,
      Bonds, Stocks, instruments, Operations, PositionsPortfolio,
      CurrenciesPortfolio, LimitOrder, Orders, run;
    cbn [ep_body ep_method ep_path ep_envelope whole named env_zero];
    try (destruct (json.Marshal _); [|reflexivity]);
    endpoint_shape.
Qed.

(** The one request of an endpoint is the one that [newRequest] built. *)
Lemma requests_run (T : Type) (e : endpoint T) :
  requests (trace (run c e)) =
  match ep_body e with
  | Err _ => []
  | Ok b =>
      match newRequest c (ep_method e) (ep_path c e) b with
      | Err _ => []
      | Ok req => [req]
      end
  end.
Proof.
  unfold run. destruct (ep_body e) as [b|x]; [|reflexivity].
  destruct (newRequest c (ep_method e) (ep_path c e) b) as [req|err]; [|reflexivity].
  rewrite trace_bind, requests_app, requests_doRequest.
  destruct (value (doRequest c req)) as [respBody [err|]]; [reflexivity|].
  rewrite trace_bind. cbn.
  now destruct (env_unmarshal (ep_envelope e) (string_of_bytes respBody)).
Qed.

(** An endpoint forwards the error of [newRequest] and of [doRequest] as
    it is, with the zero value. *)
Lemma run_newRequest_error (T : Type) (e : endpoint T) (b : option string)
    (err : error_value) :
  ep_body e = Ok b ->
  newRequest c (ep_method e) (ep_path c e) b = Err err ->
  run c e = ([], (env_zero (ep_envelope e), Some err)).
Proof. intros Hb Hn. unfold run. now rewrite Hb, Hn. Qed.

Lemma run_doRequest_error (T : Type) (e : endpoint T) (b : option string)
    (req : http.Request) (respBody : bytes) (err : error_value) :
  ep_body e = Ok b ->
  newRequest c (ep_method e) (ep_path c e) b = Ok req ->
  value (doRequest c req) = (respBody, Some err) ->
  value (run c e) = (env_zero (ep_envelope e), Some err).
Proof.
  intros Hb Hn Hd. unfold run. rewrite Hb, Hn, value_bind, Hd. reflexivity.
Qed.

(** An endpoint on a response of status 200. *)
Lemma run_200 (T : Type) (e : endpoint T) (b : option string)
    (req : http.Request) (body : string) :
  ep_body e = Ok b ->
  newRequest c (ep_method e) (ep_path c e) b = Ok req ->
  Client_Do (httpClient c) req =
    Ok {| http.StatusCode := 200; http.Response_Body := (body, None) |} ->
  run c e =
    ([EvDo req; EvClose; EvUnmarshal body],
     match env_unmarshal (ep_envelope e) body with
     | Ok t => (t, None)
     | Err x => (env_zero (ep_envelope e),
                 Some (DecodeError (ep_path c e) (Some body) x))
     end).
Proof.
  intros Hb Hn Hd. unfold run.
  rewrite Hb, Hn, (@doRequest_200 P c req body Hd). cbn.
  now destruct (env_unmarshal (ep_envelope e) body).
Qed.

End Shape.

(** ** Decoding a struct with one field *)

Section Tagged.

Context {sn : struct_name} {T : Type} {U : json.Unmarshaler T}.
Variable tag : string.

Let the_field : json.field (tagged sn tag T) :=
  json.mk_field tag untag (fun _ x => Tagged x).

Lemma find_field_hit (key : string) :
  names tag key = true -> json.find_field [the_field] key = Some the_field.
Proof.
  unfold names, json.find_field, the_field, json.mk_field. cbn [find fst].
  destruct (String.eqb tag key); cbn [orb]; [reflexivity|].
  now intros ->.
Qed.

Lemma find_field_miss (key : string) :
  names tag key = false -> json.find_field [the_field] key = None.
Proof.
  unfold names, json.find_field, the_field, json.mk_field. cbn [find fst].
  destruct (String.eqb tag key); cbn [orb]; [discriminate|].
  now intros ->.
Qed.

(** Members that do not name the field leave the struct as it is. *)
Lemma decode_tagged_missing (ms : list (string * json.value)) (cur : tagged sn tag T) :
  (forall k v, In (k, v) ms -> names tag k = false) ->
  json.decode (json.Object ms) cur = Ok cur.
Proof.
  cbn. fold the_field. induction ms as [|[k v] ms IH]; intros Hms; cbn; [reflexivity|].
  rewrite find_field_miss by (apply (Hms k v); now left).
  apply IH. intros k' v' Hin. apply (Hms k' v'). now right.
Qed.

(** The object with the one member [tag] stores the member in the field. *)
Lemma decode_tagged_single (v : json.value) (x : T) :
  json.decode v json.zero = Ok x ->
  json.decode (json.Object [(tag, v)]) (json.zero : tagged sn tag T) = Ok (Tagged x).
Proof.
  intros Hv. cbn. fold the_field.
  rewrite find_field_hit by (unfold names; now rewrite String.eqb_refl).
  cbn. now rewrite Hv.
Qed.

(** The decoder fails on a value that is neither an object nor [null], and
    on an object with a member that names the field and holds a value
    that the type of the field refuses; it fails on nothing else. *)
Lemma decode_tagged_error (j : json.value) (cur : tagged sn tag T) (x : json.error) :
  json.decode j cur = Err x ->
  object_or_null j = false
  \/ exists ms k v, j = json.Object ms /\ In (k, v) ms /\ names tag k = true
                    /\ rejects T v.
Proof.
  destruct j as [| b | lit | s | elems | ms]; cbn; try (intros _; now left);
    try discriminate.
  fold the_field. intros Hms. right. exists ms.
  revert cur Hms. induction ms as [|[k v] ms IH]; intros cur; cbn; [discriminate|].
  destruct (names tag k) eqn:Hk.
  - rewrite (find_field_hit k Hk). cbn.
    destruct (json.decode v (untag cur)) as [y|z] eqn:Hv.
    + intros Hms. destruct (IH _ Hms) as (k' & v' & _ & Hin & Hk' & Hr).
      exists k', v'. repeat split; trivial. now right.
    + intros _. exists k, v. repeat split; trivial; [now left|].
      now exists (untag cur), z.
  - rewrite (find_field_miss k Hk). intros Hms.
    destruct (IH _ Hms) as (k' & v' & _ & Hin & Hk' & Hr).
    exists k', v'. repeat split; trivial. now right.
Qed.

End Tagged.

(** ** Decoding an encoded payload *)

Lemma decode_elements_to_json (T : Type) {U : json.Unmarshaler T} {E : Encoder T}
    (l : list T) :
  json.decode_elements (map to_json l) [] = Ok l.
Proof.
  induction l as [|t l IH]; cbn; [reflexivity|].
  now rewrite decode_to_json, IH.
Qed.

Lemma decode_slice_to_json (T : Type) {U : json.Unmarshaler T} {E : Encoder T}
    (s : option (list T)) :
  json.decode (slice_to_json s) json.zero = Ok s.
Proof.
  destruct s as [l|]; cbn; [|reflexivity]. now rewrite decode_elements_to_json.
Qed.

Section Envelopes.

Context {P : Platform} {D : Domain}.

(** The zero value that an endpoint returns is what it reads off a
    [response] that nothing was stored in. *)
Lemma env_get_zero (T : Type) (e : endpoint T) :
  env_get (ep_envelope e) json.zero = env_zero (ep_envelope e).
Proof. destruct e; reflexivity. Qed.

Lemma env_unmarshal_parsed (T : Type) (v : envelope T) (body : string) (j : json.value) :
  json.Parse body = Some j ->
  env_unmarshal v body =
  match json.decode j (json.zero : response (env_field v)) with
  | Ok resp => Ok (env_get v (Payload_of resp))
  | Err x => Err x
  end.
Proof. intros Hj. unfold env_unmarshal, json.Unmarshal. now rewrite Hj. Qed.

Lemma env_unmarshal_invalid (T : Type) (v : envelope T) (body : string) :
  json.Parse body = None -> env_unmarshal v body = Err json.SyntaxError.
Proof. intros Hj. unfold env_unmarshal, json.Unmarshal. now rewrite Hj. Qed.

(** Round trip: the envelope around the encoding of [t] decodes to [t]. *)
Lemma env_unmarshal_response_json {E : Encoders D} (T : Type) (e : endpoint T)
    (t : T) (body : string) :
  json.Parse body = Some (ep_response_json e t) ->
  env_unmarshal (ep_envelope e) body = Ok t.
Proof.
  intros Hj. rewrite (env_unmarshal_parsed _ _ _ _ Hj). unfold ep_response_json, response.
  destruct e; cbn [ep_envelope ep_payload_json whole named env_field env_get env_json];
    first
      [ rewrite (@decode_tagged_single (declared "sdk.response") _ _ "payload" _ _
                   (decode_to_json t))
      | rewrite (@decode_tagged_single (declared "sdk.response") _ _ "payload" _ _
                   (decode_slice_to_json _ t))
      | rewrite (@decode_tagged_single (declared "sdk.response") _ _ "payload" _ _
                   (decode_tagged_single _ _ _ (decode_slice_to_json _ t))) ];
    reflexivity.
Qed.

(** A body without the member [payload] decodes to the zero value. *)
Lemma env_unmarshal_lacking (T : Type) (e : endpoint T) (body : string)
    (j : json.value) :
  json.Parse body = Some j ->
  object_or_null j = true ->
  lacks_member "payload" j ->
  env_unmarshal (ep_envelope e) body = Ok (env_zero (ep_envelope e)).
Proof.
  intros Hj Hobj Hlack. rewrite (env_unmarshal_parsed _ _ _ _ Hj).
  destruct j as [| b | lit | s | elems | ms]; try discriminate Hobj.
  - cbn. now rewrite <- env_get_zero.
  - unfold response. rewrite (@decode_tagged_missing (declared "sdk.response") _ _ "payload" ms _ Hlack).
    apply f_equal, env_get_zero.
Qed.

(** The causes of a decode error. *)
Lemma env_unmarshal_error (T : Type) (e : endpoint T) (body : string) (x : json.error) :
  env_unmarshal (ep_envelope e) body = Err x ->
  json.Parse body = None
  \/ exists j, json.Parse body = Some j
       /\ (object_or_null j = false
           \/ exists ms k v, j = json.Object ms /\ In (k, v) ms
                /\ names "payload" k = true
                /\ rejects (env_field (ep_envelope e)) v).
Proof.
  destruct (json.Parse body) as [j|] eqn:Hj; [|now left].
  rewrite (env_unmarshal_parsed _ _ _ _ Hj). intros Hx. right. exists j.
  split; [reflexivity|].
  destruct (json.decode j _) as [resp|y] eqn:Hd; [discriminate|].
  unfold response in Hd. exact (@decode_tagged_error (declared "sdk.response") _ _ "payload" _ _ _ Hd).
Qed.

End Envelopes.

(** ** Encoders of the reference domain *)

Lemma decode_Str (s : string) : json.decode (json.Str s) (json.zero : string) = Ok s.
Proof. reflexivity. Qed.

#[global] Instance string_Encoder : Encoder string :=
  {| to_json := json.Str; decode_to_json := decode_Str |}.

Lemma decode_tagged_to_json (k : struct_name) (tag : string) (T : Type)
    {U : json.Unmarshaler T} {E : Encoder T} (x : tagged k tag T) :
  json.decode (tagged_to_json x) json.zero = Ok x.
Proof.
  destruct x as [y]. unfold tagged_to_json.
  exact (decode_tagged_single tag _ _ (decode_to_json y)).
Qed.

#[global] Instance tagged_Encoder (k : struct_name) (tag : string) (T : Type)
    {U : json.Unmarshaler T} {E : Encoder T} : Encoder (tagged k tag T) :=
  {| to_json := tagged_to_json (tag := tag);
     decode_to_json := decode_tagged_to_json k tag T |}.

Definition Reference_encoders : Encoders Reference.domain.
Proof.
  constructor; unfold Reference.domain; cbn; exact (@tagged_Encoder _ "figi" string _ _).
Defined.

(** ** The claims about the request builder and the envelope decoders *)

(** C4: the request that [newRequest] returns, whatever the method, the
    URL and the body, carries the header Authorization with the value
    Bearer and the token of the client, and the header Content-Type with
    the value application/json; and so does every request that an
    endpoint, [OrderCancel] or [Portfolio] hands to the HTTP client. *)
Theorem requests_carry_the_headers :
  forall (P : Platform) (D : Domain) (c : TradingClient),
    (forall (method url : string) (body : option string) (req : http.Request),
        newRequest c method url body = Ok req -> has_headers c req)
    /\ (forall (T : Type) (e : endpoint T) (req : http.Request),
           In req (requests (trace (call c e))) -> has_headers c req)
    /\ (forall (id : string) (req : http.Request),
           In req (requests (trace (OrderCancel c id))) -> has_headers c req)
    /\ (forall req : http.Request,
           In req (requests (trace (Portfolio c))) -> has_headers c req).
Proof.
  intros P D c.
  assert (Hnew : forall method url body req,
             newRequest c method url body = Ok req -> has_headers c req)
    by (intros; eapply newRequest_has_headers; eassumption).
  assert (Hcall : forall (T : Type) (e : endpoint T) (req : http.Request),
             In req (requests (trace (call c e))) -> has_headers c req).
  { intros T e req. rewrite call_run, requests_run.
    destruct (ep_body e) as [b|]; [|intros []].
    destruct (newRequest c (ep_method e) (ep_path c e) b) as [r|] eqn:Hn; [|intros []].
    intros [<- | []]. exact (Hnew _ _ _ _ Hn). }
  split; [exact Hnew | split; [exact Hcall | split]].
  - intros id req. unfold OrderCancel, postJSONThrow. cbn [string_of_bytes].
    destruct (newRequest c http.MethodPost _ (Some EmptyString)) as [r|] eqn:Hn;
      [|intros []].
    rewrite trace_bind, requests_app, requests_doRequest.
    destruct (value (doRequest c r)) as [respBody err]. cbn.
    intros [<- | []]. exact (Hnew _ _ _ _ Hn).
  - intros req H. unfold Portfolio in H. rewrite trace_bind, requests_app in H.
    apply in_app_or in H. destruct H as [H | H].
    + exact (Hcall _ EpPositionsPortfolio req H).
    + destruct (value (PositionsPortfolio c)) as [positions [err|]]; [destruct H|].
      rewrite trace_bind, requests_app in H. apply in_app_or in H.
      destruct H as [H | H].
      * exact (Hcall _ EpCurrenciesPortfolio req H).
      * destruct (value (CurrenciesPortfolio c)) as [currencies [err|]]; destruct H.
Qed.

Lemma requests_carry_the_headers_witness :
  has_headers Reference.client Reference.orders_request.
Proof.
  apply (proj1 (@requests_carry_the_headers
                  (Reference.platform (Reference.answer 200 "{}"))
                  Reference.domain Reference.client)
           "GET" "https://api-invest.tinkoff.ru/openapi/orders" None).
  vm_compute. reflexivity.
Defined.

(** C10, as the code has it: on a response of status 200 whose body is a
    JSON object with no member that names the field payload, or is null,
    every endpoint returns the zero value of its payload type and no
    error; and an endpoint returns a decode error only when the body is no
    JSON text, or is a JSON value other than an object and null, or is an
    object with a member that names the field payload and holds a value
    that the type of the field refuses.  A JSON text is what [json.Parse]
    reads, as the library does: a text with more than [json.maxNestingDepth]
    objects and arrays inside one another is none. *)
Theorem missing_payload_is_zero :
  forall (P : Platform) (D : Domain) (c : TradingClient)
         (T : Type) (e : endpoint T)
         (b : option string) (req : http.Request) (body : string),
    ep_body e = Ok b ->
    newRequest c (ep_method e) (ep_path c e) b = Ok req ->
    Client_Do (httpClient c) req =
      Ok {| http.StatusCode := 200; http.Response_Body := (body, None) |} ->
    (forall j : json.value,
        json.Parse body = Some j ->
        object_or_null j = true ->
        lacks_member "payload" j ->
        value (call c e) = (env_zero (ep_envelope e), None))
    /\ (forall (t : T) (err : error_value),
           value (call c e) = (t, Some err) ->
           json.Parse body = None
           \/ exists j, json.Parse body = Some j
                /\ (object_or_null j = false
                    \/ exists ms k v, j = json.Object ms /\ In (k, v) ms
                         /\ names "payload" k = true
                         /\ rejects (env_field (ep_envelope e)) v)).
Proof.
  intros P D c T e b req body Hb Hn Hd.
  rewrite call_run, (run_200 c T e b req body Hb Hn Hd).
  split.
  - intros j Hj Hobj Hlack. now rewrite (env_unmarshal_lacking T e body j Hj Hobj Hlack).
  - intros t err. destruct (env_unmarshal (ep_envelope e) body) as [t'|x] eqn:Hu;
      [discriminate|].
    intros _. exact (env_unmarshal_error T e body x Hu).
Qed.

Lemma missing_payload_is_zero_witness :
  let P := Reference.platform (Reference.answer 200 "{}") in
  value (call (D := Reference.domain) Reference.client EpOrders) = (None, None).
Proof.
  intros P.
  refine (proj1 (@missing_payload_is_zero P Reference.domain Reference.client
                   _ EpOrders None Reference.orders_request "{}" _ _ _)
            (json.Object []) _ _ _).
  - reflexivity.
  - vm_compute. reflexivity.
  - reflexivity.
  - vm_compute. reflexivity.
  - reflexivity.
  - intros k v [].
Defined.

(** C10, as the claim states it, fails: the body [[]] is valid JSON and
    has no member payload, and [Orders] returns a decode error on it. *)
Lemma missing_payload_counterexample :
  let P := Reference.platform (Reference.answer 200 "[]") in
  json.Parse "[]" = Some (json.Array [])
  /\ lacks_member "payload" (json.Array [])
  /\ value (Orders (D := Reference.domain) Reference.client)
     = (None,
        Some (DecodeError "https://api-invest.tinkoff.ru/openapi/orders" (Some "[]")
                (json.UnmarshalTypeError "array" "sdk.response"))).
Proof.
  intros P. split; [|split].
  - vm_compute. reflexivity.
  - exact I.
  - vm_compute. reflexivity.
Qed.

(** A body that is no JSON text to the library, as one that is nested
    deeper than the scanner allows ([nesting_bound]), gives a decode error
    whatever its members are, and no zero value without an error. *)
Lemma invalid_body_is_a_decode_error {P : Platform} {D : Domain} (c : TradingClient)
    (T : Type) (e : endpoint T) (b : option string) (req : http.Request)
    (body : string) :
  ep_body e = Ok b ->
  newRequest c (ep_method e) (ep_path c e) b = Ok req ->
  Client_Do (httpClient c) req =
    Ok {| http.StatusCode := 200; http.Response_Body := (body, None) |} ->
  json.Parse body = None ->
  value (call c e)
  = (env_zero (ep_envelope e),
     Some (DecodeError (ep_path c e) (Some body) json.SyntaxError)).
Proof.
  intros Hb Hn Hd Hj.
  now rewrite call_run, (run_200 c T e b req body Hb Hn Hd),
    (env_unmarshal_invalid T (ep_envelope e) body Hj).
Qed.

(** ** The two scenarios *)

Lemma Marshal_limit_order_150_5 :
  json.Marshal {| Lots := 10; Operation_ := "Buy"; Price := 150.5%float |}
  = Ok (qq "{'lots':10,'operation':'Buy','price':150.5}").
Proof. vm_compute. reflexivity. Qed.

(** C7: [LimitOrder] with the FIGI BBG000B9XRY4, 10 lots, the operation
    Buy and the price 150.5 hands one request to the HTTP client: the
    request that [newRequest] builds for the method POST and the URL
    [{apiURL}/orders/limit-order?figi=BBG000B9XRY4], with the body
    [{"lots":10,"operation":"Buy","price":150.5}], which is the encoding
    of the payload. *)
Theorem LimitOrder_request :
  forall (P : Platform) (D : Domain) (c : TradingClient) (u : url.URL),
    url_Parse (apiURL c ++ "/orders/limit-order?figi=BBG000B9XRY4") = Some u ->
    let body := qq "{'lots':10,'operation':'Buy','price':150.5}" in
    let req := built_request c "POST" u body in
    json.Marshal {| Lots := 10; Operation_ := "Buy"; Price := 150.5%float |} = Ok body
    /\ newRequest c "POST" (apiURL c ++ "/orders/limit-order?figi=BBG000B9XRY4")
         (Some body) = Ok req
    /\ http.Method req = "POST"
    /\ http.Request_Body req = body
    /\ requests (trace (LimitOrder c "BBG000B9XRY4" 10 "Buy" 150.5%float)) = [req].
Proof.
  intros P D c u Hu. cbv zeta.
  pose proof (newRequest_built c "POST" _ (qq "{'lots':10,'operation':'Buy','price':150.5}")
                u eq_refl Hu) as Hn.
  split; [exact Marshal_limit_order_150_5|].
  split; [exact Hn|]. split; [reflexivity|]. split; [reflexivity|].
  change (LimitOrder c "BBG000B9XRY4" 10 "Buy" 150.5%float)
    with (call c (EpLimitOrder "BBG000B9XRY4" 10 "Buy" 150.5%float)).
  rewrite call_run, requests_run. cbn [ep_body ep_method ep_path].
  rewrite Marshal_limit_order_150_5. unfold http.MethodPost. cbv beta iota.
  change (apiURL c ++ "/orders/limit-order?figi=" ++ "BBG000B9XRY4")
    with (apiURL c ++ "/orders/limit-order?figi=BBG000B9XRY4").
  now rewrite Hn.
Qed.

Lemma LimitOrder_request_witness :
  let P := Reference.platform
             (Reference.answer 200 (qq "{'payload':{'figi':'BBG000B9XRY4'}}")) in
  let body := qq "{'lots':10,'operation':'Buy','price':150.5}" in
  requests (trace (LimitOrder (D := Reference.domain) Reference.client
                     "BBG000B9XRY4" 10 "Buy" 150.5%float))
  = [ {| http.Method := "POST";
         http.URL := {| url.Scheme := "https";
                        url.Opaque := EmptyString;
                        url.Host := "api-invest.tinkoff.ru";
                        url.Path := "/openapi/orders/limit-order";
                        url.RawPath := EmptyString;
                        url.ForceQuery := false;
                        url.RawQuery := "figi=BBG000B9XRY4";
                        url.Fragment := EmptyString |};
         http.Request_Header := [ ("Authorization", ["Bearer t0ken"]);
                                  ("Content-Type", ["application/json"]) ];
         http.Request_Body := body;
         http.ContentLength := 43 |} ].
Proof.
  intros P body.
  exact (proj2 (proj2 (proj2 (proj2
           (@LimitOrder_request P Reference.domain Reference.client
              {| url.Scheme := "https";
                 url.Opaque := EmptyString;
                 url.Host := "api-invest.tinkoff.ru";
                 url.Path := "/openapi/orders/limit-order";
                 url.RawPath := EmptyString;
                 url.ForceQuery := false;
                 url.RawQuery := "figi=BBG000B9XRY4";
                 url.Fragment := EmptyString |}
              eq_refl))))).
Defined.

(** C8: [OrderCancel] with the id 42 hands one request to the HTTP
    client: the request that [newRequest] builds for the method POST and
    the URL [{apiURL}/orders/cancel?orderId=42], with an empty body.  On a
    response of status 200 it returns no error whatever the body holds,
    and the body is given to no decoder: the trace of the call is the round
    trip and the closing of the body. *)
Theorem OrderCancel_42 :
  forall (P : Platform) (c : TradingClient) (u : url.URL),
    url_Parse (apiURL c ++ "/orders/cancel?orderId=42") = Some u ->
    let req := built_request c "POST" u EmptyString in
    newRequest c "POST" (apiURL c ++ "/orders/cancel?orderId=42") (Some EmptyString)
    = Ok req
    /\ http.Method req = "POST"
    /\ http.Request_Body req = EmptyString
    /\ requests (trace (OrderCancel c "42")) = [req]
    /\ (forall body : string,
           Client_Do (httpClient c) req =
             Ok {| http.StatusCode := 200; http.Response_Body := (body, None) |} ->
           OrderCancel c "42" = ([EvDo req; EvClose], None)).
Proof.
  intros P c u Hu. cbv zeta.
  pose proof (newRequest_built c "POST" _ EmptyString u eq_refl Hu) as Hn.
  split; [exact Hn|]. split; [reflexivity|]. split; [reflexivity|].
  unfold OrderCancel, postJSONThrow, http.MethodPost. cbn [string_of_bytes].
  change (apiURL c ++ "/orders/cancel?orderId=" ++ "42")
    with (apiURL c ++ "/orders/cancel?orderId=42").
  rewrite Hn. split.
  - rewrite trace_bind, requests_app, requests_doRequest.
    now destruct (value (doRequest c _)).
  - intros body Hd. now rewrite (doRequest_200 c _ body Hd).
Qed.

Lemma OrderCancel_42_witness :
  let P := Reference.platform (Reference.answer 200 "cancelled, and not JSON") in
  OrderCancel Reference.client "42"
  = ([ EvDo {| http.Method := "POST";
               http.URL := {| url.Scheme := "https";
                              url.Opaque := EmptyString;
                              url.Host := "api-invest.tinkoff.ru";
                              url.Path := "/openapi/orders/cancel";
                              url.RawPath := EmptyString;
                              url.ForceQuery := false;
                              url.RawQuery := "orderId=42";
                              url.Fragment := EmptyString |};
               http.Request_Header := [ ("Authorization", ["Bearer t0ken"]);
                                        ("Content-Type", ["application/json"]) ];
               http.Request_Body := EmptyString;
               http.ContentLength := 0 |};
       EvClose ],
     None).
Proof.
  intros P.
  exact (proj2 (proj2 (proj2 (proj2
           (@OrderCancel_42 P Reference.client
              {| url.Scheme := "https";
                 url.Opaque := EmptyString;
                 url.Host := "api-invest.tinkoff.ru";
                 url.Path := "/openapi/orders/cancel";
                 url.RawPath := EmptyString;
                 url.ForceQuery := false;
                 url.RawQuery := "orderId=42";
                 url.Fragment := EmptyString |}
              eq_refl))))
           "cancelled, and not JSON" eq_refl).
Defined.

(** ** The errors of a call and their context *)

(** C9, as the code has it: every error of a call reaches the caller, an
    endpoint returning the error of the request builder and of
    [doRequest] as it is.  The message of a decode error contains the URL
    of the request, the body as it came and the text of the JSON error it
    wraps; the error of the request builder contains the URL; the errors
    of a failed round trip and of a failed read of the body wrap their
    cause, whose text they contain.  A response of status 404 and an error
    envelope of the broker are returned as the bare [ErrNotFound] and
    [TradingError], with no URL. *)
Theorem errors_and_their_context :
  forall (P : Platform) (D : Domain) (c : TradingClient),
    (forall (method url : string) (body : option string) (err : error_value),
        newRequest c method url body = Err err ->
        exists msg, err = Errorf msg /\ strings.Occurs url (Error err))
    /\ (forall (req : http.Request) (cause : error_value),
           Client_Do (httpClient c) req = Err cause ->
           exists msg, value (doRequest c req) = (None, Some (Wrapf cause msg))
                       /\ strings.Occurs (Error cause) (Error (Wrapf cause msg)))
    /\ (forall (req : http.Request) (status : Z) (data : string) (cause : error_value),
           Client_Do (httpClient c) req =
             Ok {| http.StatusCode := status; http.Response_Body := (data, Some cause) |} ->
           exists msg, value (doRequest c req) = (None, Some (Wrapf cause msg))
                       /\ strings.Occurs (Error cause) (Error (Wrapf cause msg)))
    /\ (forall (req : http.Request) (body : string),
           Client_Do (httpClient c) req =
             Ok {| http.StatusCode := 404; http.Response_Body := (body, None) |} ->
           value (doRequest c req) = (None, Some ErrNotFound))
    /\ (forall (req : http.Request) (status : Z) (body : string) (t : TradingError),
           Client_Do (httpClient c) req =
             Ok {| http.StatusCode := status; http.Response_Body := (body, None) |} ->
           status <> 200 -> status <> 404 ->
           json.Unmarshal body (json.zero : TradingError) = Ok t ->
           value (doRequest c req) = (None, Some (ATradingError t)))
    /\ (forall (T : Type) (e : endpoint T) (b : option string) (err : error_value),
           ep_body e = Ok b ->
           newRequest c (ep_method e) (ep_path c e) b = Err err ->
           value (call c e) = (env_zero (ep_envelope e), Some err))
    /\ (forall (T : Type) (e : endpoint T) (b : option string) (req : http.Request)
               (respBody : bytes) (err : error_value),
           ep_body e = Ok b ->
           newRequest c (ep_method e) (ep_path c e) b = Ok req ->
           value (doRequest c req) = (respBody, Some err) ->
           value (call c e) = (env_zero (ep_envelope e), Some err))
    /\ (forall (T : Type) (e : endpoint T) (b : option string) (req : http.Request)
               (body : string) (x : json.error),
           ep_body e = Ok b ->
           newRequest c (ep_method e) (ep_path c e) b = Ok req ->
           Client_Do (httpClient c) req =
             Ok {| http.StatusCode := 200; http.Response_Body := (body, None) |} ->
           env_unmarshal (ep_envelope e) body = Err x ->
           let err := DecodeError (ep_path c e) (Some body) x in
           value (call c e) = (env_zero (ep_envelope e), Some err)
           /\ strings.Occurs (ep_path c e) (Error err)
           /\ strings.Occurs body (Error err)
           /\ strings.Occurs (json.Error x) (Error err)).
Proof.
  intros P D c. repeat apply conj.
  - intros method url body err H. rewrite (newRequest_error c _ _ _ _ H).
    eexists. split; [reflexivity|]. cbn [Error]. auto with occurs.
  - intros req cause H. rewrite (doRequest_transport_error c req cause H).
    eexists. split; [reflexivity|]. cbn [Error]. auto with occurs.
  - intros req status data cause H.
    rewrite (doRequest_read_error c req status data cause H).
    eexists. split; [reflexivity|]. cbn [Error]. auto with occurs.
  - intros req body H. now rewrite (doRequest_404 c req body H).
  - intros req status body t H H200 H404 Ht.
    now rewrite (doRequest_other c req status body H H200 H404), Ht.
  - intros T e b err Hb Hn. now rewrite call_run, (run_newRequest_error c T e b err Hb Hn).
  - intros T e b req respBody err Hb Hn Hd. rewrite call_run.
    exact (run_doRequest_error c T e b req respBody err Hb Hn Hd).
  - intros T e b req body x Hb Hn Hd Hx err.
    rewrite call_run, (run_200 c T e b req body Hb Hn Hd), Hx.
    split; [reflexivity|]. subst err. unfold DecodeError. cbn [Error string_of_bytes].
    repeat split.
    + apply Occurs_append_l, Occurs_append_r, Occurs_append_l.
      exists EmptyString, EmptyString. now rewrite append_empty_r.
    + apply Occurs_append_l. auto with occurs.
    + auto with occurs.
Qed.

Lemma errors_and_their_context_witness :
  let P := Reference.platform (Reference.answer 200 "<html>") in
  let url := "https://api-invest.tinkoff.ru/openapi/orders" in
  let err := DecodeError url (Some "<html>") json.SyntaxError in
  value (call (D := Reference.domain) Reference.client EpOrders) = (None, Some err)
  /\ strings.Occurs url (Error err)
  /\ strings.Occurs "<html>" (Error err)
  /\ strings.Occurs (json.Error json.SyntaxError) (Error err).
Proof.
  intros P url err.
  refine (proj2 (proj2 (proj2 (proj2 (proj2 (proj2 (proj2
            (@errors_and_their_context P Reference.domain Reference.client)))))))
            _ EpOrders None Reference.orders_request "<html>" json.SyntaxError
            _ _ _ _).
  - reflexivity.
  - vm_compute. reflexivity.
  - reflexivity.
  - vm_compute. reflexivity.
Defined.

(** C9, as the claim states it, fails: on a response of status 404
    [Orders] returns the bare sentinel, whose message holds no URL. *)
Lemma error_context_counterexample :
  let P := Reference.platform (Reference.answer 404 "no such page") in
  let url := "https://api-invest.tinkoff.ru/openapi/orders" in
  ep_path Reference.client (EpOrders (D := Reference.domain)) = url
  /\ value (Orders (D := Reference.domain) Reference.client) = (None, Some ErrNotFound)
  /\ Error ErrNotFound = "Not found"
  /\ ~ strings.Occurs url (Error ErrNotFound).
Proof.
  intros P url. repeat split.
  intros H. apply Contains_iff in H. vm_compute in H. discriminate H.
Qed.

(** The context that [doRequest] puts into its own messages is the field
    [RawPath] of the URL, which is empty for a URL such as that of
    [Orders]: the message of the generic error then names no URL. *)
Example generic_error_names_no_url :
  let P := Reference.platform (Reference.answer 502 "<html>") in
  value (Orders (D := Reference.domain) Reference.client)
  = (None, Some (Errorf "bad response to  code=502, body=<html>")).
Proof. vm_compute. reflexivity. Qed.

(** * Further properties of the client *)

(** ** The classifier, from the side of its caller *)

Lemma closes_app (t1 t2 : list event) :
  closes (t1 ++ t2)%list = (closes t1 + closes t2)%nat.
Proof.
  induction t1 as [|[r| |] t1 IH]; simpl; [reflexivity | exact IH | exact IH | now rewrite IH].
Qed.

Lemma responses_app {P : Platform} (c : TradingClient) (t1 t2 : list event) :
  responses c (t1 ++ t2)%list = (responses c t1 + responses c t2)%nat.
Proof.
  induction t1 as [|[r| |] t1 IH]; simpl; [reflexivity | | exact IH | exact IH].
  rewrite IH. lia.
Qed.

(** The traces of [doRequest]: the round trip, then the decoding of an
    error envelope if there is one to decode, then the closing of the body
    if there is a response. *)
Lemma doRequest_trace {P : Platform} (c : TradingClient) (req : http.Request) :
  match Client_Do (httpClient c) req with
  | Err _ => trace (doRequest c req) = [EvDo req]
  | Ok resp =>
      trace (doRequest c req) = [EvDo req; EvClose]
      \/ trace (doRequest c req)
         = [EvDo req; EvUnmarshal (fst (http.Response_Body resp)); EvClose]
  end.
Proof.
  destruct (Client_Do (httpClient c) req) as [[status [body [cause|]]]|cause] eqn:H.
  - left. now rewrite (doRequest_read_error c req status body cause H).
  - destruct (Z.eq_dec status 200) as [-> | H200].
    { left. now rewrite (doRequest_200 c req body H). }
    destruct (Z.eq_dec status 404) as [-> | H404].
    { left. now rewrite (doRequest_404 c req body H). }
    right. now rewrite (doRequest_other c req status body H H200 H404).
  - now rewrite (doRequest_transport_error c req cause H).
Qed.

Lemma doRequest_settled {P : Platform} (c : TradingClient) (req : http.Request) :
  closes (trace (doRequest c req)) = responses c (trace (doRequest c req)).
Proof.
  pose proof (doRequest_trace c req) as H. unfold answered in *.
  destruct (Client_Do (httpClient c) req) as [resp|cause] eqn:Hd.
  - destruct H as [-> | ->]; cbn; unfold answered; now rewrite Hd.
  - rewrite H. cbn. unfold answered. now rewrite Hd.
Qed.

Lemma run_settled {P : Platform} {D : Domain} (c : TradingClient) (T : Type)
    (e : endpoint T) :
  closes (trace (run c e)) = responses c (trace (run c e)).
Proof.
  unfold run. destruct (ep_body e) as [b|x]; [|reflexivity].
  destruct (newRequest c (ep_method e) (ep_path c e) b) as [req|err]; [|reflexivity].
  rewrite trace_bind, closes_app, responses_app, doRequest_settled.
  destruct (value (doRequest c req)) as [respBody [err|]]; [reflexivity|].
  rewrite trace_bind. cbn.
  now destruct (env_unmarshal (ep_envelope e) (string_of_bytes respBody)).
Qed.

(** X1: [doRequest] returns a body exactly when the round trip gave a
    response of status 200 whose body could be read, and the body it
    returns is then the body of the response, byte for byte. *)
Theorem doRequest_body_iff_200 :
  forall (P : Platform) (c : TradingClient) (req : http.Request) (body : string),
    value (doRequest c req) = (Some body, None)
    <-> Client_Do (httpClient c) req
        = Ok {| http.StatusCode := 200; http.Response_Body := (body, None) |}.
Proof.
  intros P c req body. split.
  - destruct (Client_Do (httpClient c) req) as [[status [body' [cause|]]]|cause] eqn:H.
    + now rewrite (doRequest_read_error c req status body' cause H).
    + destruct (Z.eq_dec status 200) as [-> | H200].
      { rewrite (doRequest_200 c req body' H). cbn. now intros [= ->]. }
      destruct (Z.eq_dec status 404) as [-> | H404].
      { now rewrite (doRequest_404 c req body' H). }
      now rewrite (doRequest_other c req status body' H H200 H404).
    + now rewrite (doRequest_transport_error c req cause H).
  - intros H. now rewrite (doRequest_200 c req body H).
Qed.

(** X2: every response that a call obtains has its body closed, once, and
    nothing is closed when the round trip gave no response: in the trace of
    [doRequest], of every endpoint, of [OrderCancel] and of [Portfolio] the
    closings are as many as the answered requests; in the trace of
    [doRequest] the request comes first and the closing last. *)
Theorem bodies_are_closed :
  forall (P : Platform) (D : Domain) (c : TradingClient),
    (forall req : http.Request,
        closes (trace (doRequest c req)) = responses c (trace (doRequest c req))
        /\ exists mid, trace (doRequest c req)
                       = (EvDo req :: mid ++ (if answered c req then [EvClose] else []))%list
                       /\ closes mid = 0%nat)
    /\ (forall (T : Type) (e : endpoint T),
           closes (trace (call c e)) = responses c (trace (call c e)))
    /\ (forall id : string,
           closes (trace (OrderCancel c id)) = responses c (trace (OrderCancel c id)))
    /\ closes (trace (Portfolio c)) = responses c (trace (Portfolio c)).
Proof.
  intros P D c. split; [|split; [|split]].
  - intros req. split; [apply doRequest_settled|].
    pose proof (doRequest_trace c req) as H. unfold answered.
    destruct (Client_Do (httpClient c) req) as [resp|cause].
    + destruct H as [-> | ->]; [now exists [] | now eexists [_]].
    + rewrite H. now exists [].
  - intros T e. rewrite call_run. apply run_settled.
  - intros id. unfold OrderCancel, postJSONThrow. cbn [string_of_bytes].
    destruct (newRequest c http.MethodPost _ (Some EmptyString)) as [r|]; [|reflexivity].
    rewrite trace_bind, closes_app, responses_app, doRequest_settled.
    now destruct (value (doRequest c r)).
  - unfold Portfolio. rewrite trace_bind, closes_app, responses_app.
    change (PositionsPortfolio c) with (call c EpPositionsPortfolio).
    rewrite call_run, run_settled. f_equal.
    destruct (value (run c EpPositionsPortfolio)) as [positions [err|]]; [reflexivity|].
    rewrite trace_bind, closes_app, responses_app.
    change (CurrenciesPortfolio c) with (call c EpCurrenciesPortfolio).
    rewrite call_run, run_settled. f_equal.
    now destruct (value (run c EpCurrenciesPortfolio)) as [currencies [err|]].
Qed.

(** ** Error bodies that are no error envelope *)

Lemma store_members_skips (S : Type) (fields : list (json.field S))
    (ms : list (string * json.value)) (cur : S) :
  (forall k v, In (k, v) ms -> json.find_field fields k = None) ->
  json.store_members fields ms cur = Ok cur.
Proof.
  induction ms as [|[k v] ms IH]; intros Hms; cbn; [reflexivity|].
  rewrite (Hms k v) by now left.
  apply IH. intros k' v' Hin. apply (Hms k' v'). now right.
Qed.

Lemma find_field_TradingError_miss (k : string) :
  names "trackingId" k = false -> names "status" k = false ->
  names "payload" k = false ->
  json.find_field
    [ json.mk_field "trackingId" TrackingID
        (fun t x => {| TrackingID := x; Status := Status t; Payload := Payload t |});
      json.mk_field "status" Status
        (fun t x => {| TrackingID := TrackingID t; Status := x; Payload := Payload t |});
      json.mk_field "payload" Payload
        (fun t x => {| TrackingID := TrackingID t; Status := Status t; Payload := x |}) ]
    k = None.
Proof.
  unfold names. intros H1 H2 H3.
  apply orb_false_iff in H1, H2, H3. destruct H1 as [E1 F1], H2 as [E2 F2], H3 as [E3 F3].
  unfold json.find_field, json.mk_field. cbn [find fst].
  now rewrite E1, E2, E3, F1, F2, F3.
Qed.

(** X3: a response of a status other than 200 and 404 whose body is a
    JSON object with none of the members of the error envelope, or is
    null, is reported as a [TradingError] with four empty strings, not as
    the generic error: [json.Unmarshal] skips the members it has no field
    for and so succeeds.  The body is a JSON text as [json.Parse] reads
    it, nested no deeper than the scanner allows. *)
Theorem doRequest_empty_TradingError :
  forall (P : Platform) (c : TradingClient) (req : http.Request)
         (status : Z) (body : string) (j : json.value),
    Client_Do (httpClient c) req =
      Ok {| http.StatusCode := status; http.Response_Body := (body, None) |} ->
    status <> 200 -> status <> 404 ->
    json.Parse body = Some j ->
    object_or_null j = true ->
    lacks_member "trackingId" j -> lacks_member "status" j -> lacks_member "payload" j ->
    value (doRequest c req)
    = (None,
       Some (ATradingError
               {| TrackingID := EmptyString; Status := EmptyString;
                  Payload := {| Message := EmptyString; Code := EmptyString |} |})).
Proof.
  intros P c req status body j H H200 H404 Hj Hobj L1 L2 L3.
  rewrite (doRequest_other c req status body H H200 H404).
  unfold json.Unmarshal. rewrite Hj.
  destruct j as [| b | lit | s | elems | ms]; try discriminate Hobj; [reflexivity|].
  cbn [json.decode TradingError_Unmarshaler json.decode_struct].
  rewrite store_members_skips; [reflexivity|].
  intros k v Hin. apply find_field_TradingError_miss; [eapply L1 | eapply L2 | eapply L3]; eassumption.
Qed.

Lemma doRequest_empty_TradingError_witness :
  let P := Reference.platform (Reference.answer 500 (qq "{'error':'internal'}")) in
  value (doRequest Reference.client Reference.orders_request)
  = (None,
     Some (ATradingError
             {| TrackingID := EmptyString; Status := EmptyString;
                Payload := {| Message := EmptyString; Code := EmptyString |} |})).
Proof.
  intros P.
  apply (@doRequest_empty_TradingError P Reference.client Reference.orders_request 500
           (qq "{'error':'internal'}") (json.Object [("error", json.Str "internal")]));
    try discriminate; try reflexivity;
    intros k v [[= <- <-] | []]; vm_compute; reflexivity.
Defined.

(** ** The request of an endpoint *)

Lemma ep_method_valid {P : Platform} {D : Domain} (T : Type) (e : endpoint T) :
  http.validMethod (ep_method e) = true.
Proof. now destruct e. Qed.

Lemma ep_path_prefix {P : Platform} {D : Domain} (c : TradingClient) (T : Type)
    (e : endpoint T) :
  strings.HasPrefix (ep_path c e) (apiURL c) = true.
Proof. apply HasPrefix_iff. destruct e; cbn; eexists; reflexivity. Qed.

Lemma newRequest_parsed {P : Platform} (c : TradingClient) (method url : string)
    (body : option string) (u : url.URL) :
  http.validMethod method = true ->
  url_Parse url = Some u ->
  newRequest c method url body
  = Ok (built_request c method u (match body with Some b => b | None => EmptyString end)).
Proof.
  intros Hm Hu. destruct body as [b|].
  - exact (newRequest_built c method url b u Hm Hu).
  - exact (newRequest_built_nil c method url u Hm Hu).
Qed.

Lemma newRequest_unparsed {P : Platform} (c : TradingClient) (method url : string)
    (body : option string) :
  url_Parse url = None ->
  newRequest c method url body = Err (Errorf ("can't create http request to " ++ url)).
Proof.
  intros Hu. unfold newRequest, http_NewRequest. rewrite Hu.
  now destruct (negb _).
Qed.

(** X4: every endpoint hands the HTTP client at most one request.  It
    hands it none when its payload cannot be encoded or its URL does not
    parse; otherwise it hands it the one request that [newRequest] builds
    from its method, its URL, which starts with the base URL of the client,
    and its body, which is empty unless the endpoint is [LimitOrder]. *)
Theorem endpoint_sends_one_request :
  forall (P : Platform) (D : Domain) (c : TradingClient) (T : Type) (e : endpoint T),
    strings.HasPrefix (ep_path c e) (apiURL c) = true
    /\ (ep_method e = "GET" -> ep_body e = Ok None)
    /\ (requests (trace (call c e)) = []
        /\ ((exists x, ep_body e = Err x) \/ url_Parse (ep_path c e) = None)
        \/ exists (u : url.URL) (body : option string),
             ep_body e = Ok body
             /\ url_Parse (ep_path c e) = Some u
             /\ requests (trace (call c e))
                = [built_request c (ep_method e) u
                     (match body with Some b => b | None => EmptyString end)]).
Proof.
  intros P D c T e. split; [apply ep_path_prefix|]. split.
  { destruct e; try reflexivity. discriminate. }
  rewrite call_run, requests_run.
  destruct (ep_body e) as [body|x] eqn:Hb.
  - destruct (url_Parse (ep_path c e)) as [u|] eqn:Hu.
    + right. exists u, body. repeat split.
      now rewrite (newRequest_parsed c _ _ body u (ep_method_valid T e) Hu).
    + left. rewrite (newRequest_unparsed c _ _ body Hu). split; [reflexivity | now right].
  - left. split; [reflexivity|]. left. now exists x.
Qed.

(** X5: an endpoint that returns an error returns the zero value of its
    result with it: the zero struct, the nil slice, the zero [Portfolio];
    no part of a response is returned beside an error. *)
Theorem error_comes_with_zero_value :
  forall (P : Platform) (D : Domain) (c : TradingClient),
    (forall (T : Type) (e : endpoint T) (t : T) (err : error_value),
        value (call c e) = (t, Some err) -> t = env_zero (ep_envelope e))
    /\ (forall (p : Portfolio_) (err : error_value),
           value (Portfolio c) = (p, Some err) -> p = Portfolio_zero).
Proof.
  intros P D c. split.
  - intros T e t err. rewrite call_run. unfold run.
    destruct (ep_body e) as [b|x]; [|now intros [= <- _]].
    destruct (newRequest c (ep_method e) (ep_path c e) b) as [req|err0];
      [|now intros [= <- _]].
    rewrite value_bind.
    destruct (value (doRequest c req)) as [respBody [err1|]]; [now intros [= <- _]|].
    rewrite value_bind. cbn.
    destruct (env_unmarshal (ep_envelope e) (string_of_bytes respBody));
      [discriminate | now intros [= <- _]].
  - intros p err. unfold Portfolio. rewrite value_bind.
    destruct (value (PositionsPortfolio c)) as [positions [err1|]]; [now intros [= <- _]|].
    rewrite value_bind.
    destruct (value (CurrenciesPortfolio c)) as [currencies [err2|]];
      [now intros [= <- _] | discriminate].
Qed.

(** ** [Portfolio] *)

(** X6: when the request for the positions fails, [Portfolio] returns the
    error of that request with the zero [Portfolio], and the currencies
    are not asked for: the one request of the call is the one for the
    positions. *)
Theorem Portfolio_stops_at_the_first_error :
  forall (P : Platform) (D : Domain) (c : TradingClient) (u : url.URL)
         (respBody : bytes) (err : error_value),
    url_Parse (apiURL c ++ "/portfolio") = Some u ->
    let req := built_request c "GET" u EmptyString in
    value (doRequest c req) = (respBody, Some err) ->
    Portfolio c = (trace (doRequest c req), (Portfolio_zero, Some err))
    /\ requests (trace (Portfolio c)) = [req].
Proof.
  intros P D c u respBody err Hu req Hd.
  assert (Hp : PositionsPortfolio c = (trace (doRequest c req), (None, Some err))).
  { unfold PositionsPortfolio, http.MethodGet. cbv zeta.
    rewrite (newRequest_built_nil c "GET" _ u eq_refl Hu). fold req.
    destruct (doRequest c req) as [tr [b e]]. cbn in Hd. injection Hd as -> ->.
    cbn. now rewrite app_nil_r. }
  assert (H : Portfolio c = (trace (doRequest c req), (Portfolio_zero, Some err))).
  { unfold Portfolio. rewrite Hp. cbn. now rewrite app_nil_r. }
  split; [exact H|]. rewrite H. apply requests_doRequest.
Qed.

Lemma Portfolio_stops_at_the_first_error_witness :
  let P := Reference.platform (Reference.answer 404 "no such page") in
  value (Portfolio (D := Reference.domain) Reference.client)
  = (Portfolio_zero, Some ErrNotFound)
  /\ List.length (requests (trace (Portfolio (D := Reference.domain) Reference.client)))
     = 1%nat.
Proof.
  intros P.
  destruct (@Portfolio_stops_at_the_first_error P Reference.domain Reference.client
              {| url.Scheme := "https";
                 url.Opaque := EmptyString;
                 url.Host := "api-invest.tinkoff.ru";
                 url.Path := "/openapi/portfolio";
                 url.RawPath := EmptyString;
                 url.ForceQuery := false;
                 url.RawQuery := EmptyString;
                 url.Fragment := EmptyString |}
              None ErrNotFound eq_refl eq_refl) as [Hv Hr].
  split; [now rewrite Hv | now rewrite Hr].
Defined.

(** X7: when both requests are answered with status 200 and the envelopes
    of a list of positions and of a list of currencies, [Portfolio] returns
    the two lists in one [Portfolio] and no error, having asked for the
    positions first and for the currencies second. *)
Theorem Portfolio_round_trip :
  forall (P : Platform) (D : Domain) (E : Encoders D) (c : TradingClient)
         (u1 u2 : url.URL) (body1 body2 : string)
         (positions : option (list PositionBalance))
         (currencies : option (list CurrencyBalance)),
    url_Parse (apiURL c ++ "/portfolio") = Some u1 ->
    url_Parse (apiURL c ++ "/portfolio/currencies") = Some u2 ->
    let req1 := built_request c "GET" u1 EmptyString in
    let req2 := built_request c "GET" u2 EmptyString in
    Client_Do (httpClient c) req1 =
      Ok {| http.StatusCode := 200; http.Response_Body := (body1, None) |} ->
    Client_Do (httpClient c) req2 =
      Ok {| http.StatusCode := 200; http.Response_Body := (body2, None) |} ->
    json.Parse body1 = Some (ep_response_json EpPositionsPortfolio positions) ->
    json.Parse body2 = Some (ep_response_json EpCurrenciesPortfolio currencies) ->
    value (Portfolio c)
    = ({| Portfolio_Currencies := currencies; Portfolio_Positions := positions |}, None)
    /\ requests (trace (Portfolio c)) = [req1; req2].
Proof.
  intros P D E c u1 u2 body1 body2 positions currencies Hu1 Hu2 req1 req2
    Hd1 Hd2 Hj1 Hj2.
  assert (Hp : PositionsPortfolio c
               = ([EvDo req1; EvClose; EvUnmarshal body1], (positions, None))).
  { change (PositionsPortfolio c) with (call c EpPositionsPortfolio).
    rewrite call_run,
      (run_200 c _ EpPositionsPortfolio None req1 body1 eq_refl
         (newRequest_built_nil c "GET" _ u1 eq_refl Hu1) Hd1).
    now rewrite (env_unmarshal_response_json _ EpPositionsPortfolio positions body1 Hj1). }
  assert (Hc : CurrenciesPortfolio c
               = ([EvDo req2; EvClose; EvUnmarshal body2], (currencies, None))).
  { change (CurrenciesPortfolio c) with (call c EpCurrenciesPortfolio).
    rewrite call_run,
      (run_200 c _ EpCurrenciesPortfolio None req2 body2 eq_refl
         (newRequest_built_nil c "GET" _ u2 eq_refl Hu2) Hd2).
    now rewrite (env_unmarshal_response_json _ EpCurrenciesPortfolio currencies body2 Hj2). }
  unfold Portfolio. rewrite Hp, Hc. split; reflexivity.
Qed.

Lemma Portfolio_round_trip_witness :
  let P := Reference.platform
             (routes
                [ ("/openapi/portfolio",
                   qq "{'payload':{'positions':[{'figi':'BBG000B9XRY4'}]}}");
                  ("/openapi/portfolio/currencies",
                   qq "{'payload':{'currencies':[]}}") ]) in
  let positions : option (list (@PositionBalance Reference.domain)) :=
    Some [Tagged "BBG000B9XRY4"] in
  let currencies : option (list (@CurrencyBalance Reference.domain)) := Some [] in
  value (Portfolio (D := Reference.domain) Reference.client)
  = ({| Portfolio_Currencies := currencies; Portfolio_Positions := positions |}, None).
Proof.
  intros P positions currencies.
  refine (proj1 (@Portfolio_round_trip P Reference.domain Reference_encoders
                   Reference.client
                   {| url.Scheme := "https";
                      url.Opaque := EmptyString;
                      url.Host := "api-invest.tinkoff.ru";
                      url.Path := "/openapi/portfolio";
                      url.RawPath := EmptyString;
                      url.ForceQuery := false;
                      url.RawQuery := EmptyString;
                      url.Fragment := EmptyString |}
                   {| url.Scheme := "https";
                      url.Opaque := EmptyString;
                      url.Host := "api-invest.tinkoff.ru";
                      url.Path := "/openapi/portfolio/currencies";
                      url.RawPath := EmptyString;
                      url.ForceQuery := false;
                      url.RawQuery := EmptyString;
                      url.Fragment := EmptyString |}
                   (qq "{'payload':{'positions':[{'figi':'BBG000B9XRY4'}]}}")
                   (qq "{'payload':{'currencies':[]}}")
                   positions currencies _ _ _ _ _ _)).
  - reflexivity.
  - reflexivity.
  - reflexivity.
  - reflexivity.
  - vm_compute. reflexivity.
  - vm_compute. reflexivity.
Defined.

(** ** The query of [Operations] *)

Lemma Operations_path_shape {P : Platform} (c : TradingClient) (from : time_Time)
    (interval : OperationInterval) (figi : string) :
  Operations_path c from interval figi
  = apiURL c ++ "/operations?"
    ++ ((if String.eqb figi EmptyString then EmptyString
         else "figi=" ++ url.QueryEscape figi ++ "&")
        ++ "from=" ++ url.QueryEscape (Format_RFC3339 from)
        ++ "&interval=" ++ url.QueryEscape interval).
Proof.
  unfold Operations_path. destruct (String.eqb figi EmptyString); cbn.
  - reflexivity.
  - now rewrite !append_assoc.
Qed.

(** X8: the URL of [Operations] lists the parameters in the order of their
    keys, each value escaped: [figi] first, and only when it is not empty,
    then [from], then [interval]. *)
Theorem Operations_path_query :
  forall (P : Platform) (c : TradingClient) (from : time_Time)
         (interval : OperationInterval) (figi : string),
    Operations_path c from interval figi
    = apiURL c ++ "/operations?"
      ++ (if String.eqb figi EmptyString then EmptyString
          else "figi=" ++ url.QueryEscape figi ++ "&")
      ++ "from=" ++ url.QueryEscape (Format_RFC3339 from)
      ++ "&interval=" ++ url.QueryEscape interval.
Proof.
  intros P c from interval figi. rewrite Operations_path_shape.
  now destruct (String.eqb figi EmptyString).
Qed.

Lemma upperhex_unreserved (c : ascii) :
  url.unreserved (url.upperhex (byte_code c / 16)) = true
  /\ url.unreserved (url.upperhex (byte_code c mod 16)) = true.
Proof. destruct c as [[] [] [] [] [] [] [] []]; vm_compute; split; reflexivity. Qed.

Lemma QueryEscape_escaped (s : string) :
  strings.forallb_bytes escaped_byte (url.QueryEscape s) = true.
Proof.
  induction s as [|c s IH]; [reflexivity|]. cbn [url.QueryEscape].
  destruct (url.unreserved c) eqn:Hc.
  - cbn [strings.forallb_bytes]. unfold escaped_byte at 1. now rewrite Hc, IH.
  - destruct (Ascii.eqb c " ").
    + cbn [strings.forallb_bytes]. now rewrite IH.
    + destruct (upperhex_unreserved c) as [H1 H2].
      cbn [strings.forallb_bytes]. unfold escaped_byte at 2 3.
      now rewrite H1, H2, IH.
Qed.

Lemma count_byte_app (b : ascii) (s t : string) :
  count_byte b (s ++ t) = (count_byte b s + count_byte b t)%nat.
Proof. induction s as [|c s IH]; cbn; [reflexivity | rewrite IH; lia]. Qed.

Lemma count_byte_none (p : ascii -> bool) (b : ascii) (s : string) :
  p b = false -> strings.forallb_bytes p s = true -> count_byte b s = 0%nat.
Proof.
  intros Hb. induction s as [|c s IH]; cbn; [reflexivity|].
  intros H. apply andb_true_iff in H. destruct H as [Hc Hs].
  destruct (Ascii.eqb_spec c b) as [-> | _]; [congruence | now apply IH].
Qed.

(** X9: [url.QueryEscape] writes unreserved bytes, percent signs and plus
    signs only, so that a value of [Operations] cannot add a parameter to
    the query or end it: the query has one [=] for each parameter and one
    [&] between two parameters, whatever the values hold. *)
Theorem Operations_query_separators :
  forall (P : Platform) (c : TradingClient) (from : time_Time)
         (interval : OperationInterval) (figi : string),
    (forall s : string, strings.forallb_bytes escaped_byte (url.QueryEscape s) = true)
    /\ exists query : string,
         Operations_path c from interval figi = apiURL c ++ "/operations?" ++ query
         /\ count_byte "=" query = (if String.eqb figi EmptyString then 2 else 3)%nat
         /\ count_byte "&" query = (if String.eqb figi EmptyString then 1 else 2)%nat
         /\ count_byte "?" query = 0%nat
         /\ count_byte "#" query = 0%nat.
Proof.
  intros P c from interval figi. split; [exact QueryEscape_escaped|].
  assert (Hnone : forall (b : ascii) (s : string),
             escaped_byte b = false -> count_byte b (url.QueryEscape s) = 0%nat)
    by (intros b s Hb; exact (count_byte_none escaped_byte b _ Hb (QueryEscape_escaped s))).
  eexists. split; [apply Operations_path_shape|].
  destruct (String.eqb figi EmptyString);
    repeat split; cbn; rewrite ?count_byte_app; cbn; rewrite ?count_byte_app; cbn;
    rewrite !Hnone by reflexivity; reflexivity.
Qed.

Lemma upperhex_inj (n m : N) :
  (n < 16)%N -> (m < 16)%N -> url.upperhex n = url.upperhex m -> n = m.
Proof.
  intros Hn Hm H. apply (f_equal byte_code) in H. unfold url.upperhex in H.
  unfold byte_code, byte_of in H.
  destruct (N.ltb_spec n 10), (N.ltb_spec m 10);
    rewrite !N_ascii_embedding in H by lia; lia.
Qed.

Lemma byte_code_inj (a b : ascii) : byte_code a = byte_code b -> a = b.
Proof.
  unfold byte_code. intros H.
  now rewrite <- (ascii_N_embedding a), <- (ascii_N_embedding b), H.
Qed.

Lemma escape_inj (a b : ascii) :
  url.upperhex (byte_code a / 16) = url.upperhex (byte_code b / 16) ->
  url.upperhex (byte_code a mod 16) = url.upperhex (byte_code b mod 16) ->
  a = b.
Proof.
  intros H1 H2.
  assert (Ha : (byte_code a < 256)%N) by apply N_ascii_bounded.
  assert (Hb : (byte_code b < 256)%N) by apply N_ascii_bounded.
  apply upperhex_inj in H1;
    [| apply N.Div0.div_lt_upper_bound; lia | apply N.Div0.div_lt_upper_bound; lia ].
  apply upperhex_inj in H2; [| apply N.mod_lt; lia | apply N.mod_lt; lia ].
  apply byte_code_inj.
  rewrite (N.div_mod (byte_code a) 16), (N.div_mod (byte_code b) 16) by lia.
  now rewrite H1, H2.
Qed.

(** X10: [url.QueryEscape] loses nothing: two different values have
    different escaped forms, and so have two different "figi" values, times
    or intervals different URLs of [Operations]. *)
Theorem QueryEscape_injective :
  forall s t : string, s <> t -> url.QueryEscape s <> url.QueryEscape t.
Proof.
  intros s t Hne H. apply Hne. clear Hne. revert t H.
  induction s as [|a s IH]; intros [|b t]; cbn [url.QueryEscape].
  - reflexivity.
  - destruct (url.unreserved b); [discriminate|]. destruct (Ascii.eqb b " "); discriminate.
  - destruct (url.unreserved a); [discriminate|]. destruct (Ascii.eqb a " "); discriminate.
  - destruct (url.unreserved a) eqn:Ua, (url.unreserved b) eqn:Ub.
    + intros [= -> H]. now rewrite (IH t H).
    + destruct (Ascii.eqb b " "); intros [= -> H]; discriminate Ua.
    + destruct (Ascii.eqb a " "); intros [= <- H]; discriminate Ub.
    + destruct (Ascii.eqb_spec a " ") as [-> | Na], (Ascii.eqb_spec b " ") as [-> | Nb].
      * intros [= H]. now rewrite (IH t H).
      * discriminate.
      * discriminate.
      * intros [= H1 H2 H]. now rewrite (escape_inj a b H1 H2), (IH t H).
Qed.

Lemma QueryEscape_injective_witness :
  url.QueryEscape "03:04:05 03:00" <> url.QueryEscape "03:04:05+03:00".
Proof. apply QueryEscape_injective. discriminate. Defined.

(** ** The body of a limit order *)

(** [json.Marshal] on the payload of a limit order fails exactly when it
    fails on the price. *)
Lemma Marshal_LimitOrder_payload (lots : Z) (operation : OperationType) (price : float) :
  json.Marshal {| Lots := lots; Operation_ := operation; Price := price |}
  = match json.encode_float64 price with
    | Ok p =>
        Ok ("{" ++ json.encode_string "lots" ++ ":" ++ strconv.Itoa lots
            ++ "," ++ json.encode_string "operation" ++ ":" ++ json.encode_string operation
            ++ "," ++ json.encode_string "price" ++ ":" ++ p ++ "}")
    | Err x => Err x
    end.
Proof.
  cbn [json.Marshal LimitOrder_payload_Marshaler Lots Operation_ Price
       json.string_Marshaler json.int_Marshaler json.float64_Marshaler].
  unfold json.encode_struct. cbn [json.encode_fields]. unfold json.encode_int.
  destruct (json.encode_float64 price) as [p|x]; [|reflexivity].
  f_equal. rewrite !append_assoc. reflexivity.
Qed.

Lemma encode_float64_finite (price : float) :
  PrimFloat.is_nan price || PrimFloat.is_infinity price = false ->
  exists p, json.encode_float64 price = Ok p.
Proof.
  intros H. unfold json.encode_float64. rewrite H.
  destruct (negb _ && _); eexists; reflexivity.
Qed.

Lemma encode_float64_non_finite (price : float) :
  PrimFloat.is_nan price || PrimFloat.is_infinity price = true ->
  json.encode_float64 price
  = Err (json.UnsupportedValueError (strconv.FormatFloat price "g")).
Proof. intros H. unfold json.encode_float64. now rewrite H. Qed.

(** X11: [LimitOrder] with a price that is not a number or is infinite
    sends nothing: [json.Marshal] refuses the payload, and the call returns
    an error that names the URL, with the zero value.  With any other price
    the payload is encoded, and the request is sent if the URL parses. *)
Theorem LimitOrder_price_must_be_finite :
  forall (P : Platform) (D : Domain) (c : TradingClient) (figi : string) (lots : Z)
         (operation : OperationType) (price : float),
    let path := apiURL c ++ "/orders/limit-order?figi=" ++ figi in
    (PrimFloat.is_nan price || PrimFloat.is_infinity price = true ->
     exists msg : string,
       LimitOrder c figi lots operation price = ([], (json.zero, Some (Errorf msg)))
       /\ strings.Occurs path msg)
    /\ (PrimFloat.is_nan price || PrimFloat.is_infinity price = false ->
        forall u : url.URL,
          url_Parse path = Some u ->
          exists body : string,
            json.Marshal {| Lots := lots; Operation_ := operation; Price := price |}
            = Ok body
            /\ requests (trace (LimitOrder c figi lots operation price))
               = [built_request c "POST" u body]).
Proof.
  intros P D c figi lots operation price path. split.
  - intros H. unfold LimitOrder. cbv zeta.
    rewrite Marshal_LimitOrder_payload, (encode_float64_non_finite price H).
    eexists. split; [reflexivity|]. fold path. auto with occurs.
  - intros H u Hu. destruct (encode_float64_finite price H) as [p Hp].
    pose proof (Marshal_LimitOrder_payload lots operation price) as Hm.
    rewrite Hp in Hm. eexists. split; [exact Hm|].
    change (LimitOrder c figi lots operation price)
      with (call c (EpLimitOrder figi lots operation price)).
    rewrite call_run, requests_run. cbn [ep_body ep_method ep_path]. rewrite Hm.
    fold path. unfold http.MethodPost.
    now rewrite (newRequest_built c "POST" path _ u eq_refl Hu).
Qed.

Lemma LimitOrder_price_must_be_finite_witness :
  let P := Reference.platform (Reference.answer 200 "{}") in
  exists msg : string,
    LimitOrder (D := Reference.domain) Reference.client "BBG000B9XRY4" 1 "Buy" infinity
    = ([], (json.zero, Some (Errorf msg)))
    /\ strings.Occurs
         "https://api-invest.tinkoff.ru/openapi/orders/limit-order?figi=BBG000B9XRY4" msg.
Proof.
  intros P.
  apply (proj1 (@LimitOrder_price_must_be_finite P Reference.domain Reference.client
                  "BBG000B9XRY4" 1 "Buy" infinity)).
  reflexivity.
Defined.

(** ** [postJSONThrow] and [OrderCancel] *)

Lemma doRequest_no_error_iff {P : Platform} (c : TradingClient) (req : http.Request) :
  snd (value (doRequest c req)) = None
  <-> exists body : string,
        Client_Do (httpClient c) req
        = Ok {| http.StatusCode := 200; http.Response_Body := (body, None) |}.
Proof.
  split.
  - destruct (Client_Do (httpClient c) req) as [[status [body' [cause|]]]|cause] eqn:H.
    + now rewrite (doRequest_read_error c req status body' cause H).
    + destruct (Z.eq_dec status 200) as [-> | H200]; [intros _; now exists body'|].
      destruct (Z.eq_dec status 404) as [-> | H404].
      { now rewrite (doRequest_404 c req body' H). }
      now rewrite (doRequest_other c req status body' H H200 H404).
    + now rewrite (doRequest_transport_error c req cause H).
  - intros [body H]. now rewrite (doRequest_200 c req body H).
Qed.

(** X12: [OrderCancel] with any id hands the HTTP client one request, the
    POST to [{apiURL}/orders/cancel?orderId={id}] with an empty body, the
    id written as it is.  It returns no error exactly when the response
    has status 200 and its body could be read; the body is never decoded.
    When the URL does not parse it sends nothing and returns the error of
    the request builder. *)
Theorem OrderCancel_succeeds_iff_200 :
  forall (P : Platform) (c : TradingClient) (id : string),
    let path := apiURL c ++ "/orders/cancel?orderId=" ++ id in
    (forall u : url.URL,
        url_Parse path = Some u ->
        let req := built_request c "POST" u EmptyString in
        requests (trace (OrderCancel c id)) = [req]
        /\ (value (OrderCancel c id) = None
            <-> exists body : string,
                  Client_Do (httpClient c) req
                  = Ok {| http.StatusCode := 200; http.Response_Body := (body, None) |})
        /\ (value (OrderCancel c id) = None ->
            unmarshalled (trace (OrderCancel c id)) = []))
    /\ (url_Parse path = None ->
        OrderCancel c id = ([], Some (Errorf ("can't create http request to " ++ path)))).
Proof.
  intros P c id path. split.
  - intros u Hu req.
    assert (Hc : OrderCancel c id = (trace (doRequest c req), snd (value (doRequest c req)))).
    { unfold OrderCancel, postJSONThrow, http.MethodPost. cbn [string_of_bytes]. fold path.
      rewrite (newRequest_built c "POST" path EmptyString u eq_refl Hu). fold req.
      destruct (doRequest c req) as [tr [b e]]. cbn. now rewrite app_nil_r. }
    rewrite Hc. cbn [trace value fst snd]. split; [apply requests_doRequest|].
    split; [apply doRequest_no_error_iff|].
    intros H. apply doRequest_no_error_iff in H. destruct H as [body H].
    now rewrite (doRequest_200 c req body H).
  - intros Hu. unfold OrderCancel, postJSONThrow. cbn [string_of_bytes]. fold path.
    now rewrite (newRequest_unparsed c _ path _ Hu).
Qed.

Lemma OrderCancel_succeeds_iff_200_witness :
  let P := Reference.platform (Reference.answer 204 EmptyString) in
  List.length (requests (trace (OrderCancel Reference.client "42"))) = 1%nat
  /\ value (OrderCancel Reference.client "42") <> None.
Proof.
  intros P.
  destruct (proj1 (@OrderCancel_succeeds_iff_200 P Reference.client "42")
              {| url.Scheme := "https";
                 url.Opaque := EmptyString;
                 url.Host := "api-invest.tinkoff.ru";
                 url.Path := "/openapi/orders/cancel";
                 url.RawPath := EmptyString;
                 url.ForceQuery := false;
                 url.RawQuery := "orderId=42";
                 url.Fragment := EmptyString |}
              eq_refl) as [Hr [Hiff _]].
  split; [now rewrite Hr|].
  intros H. apply Hiff in H. destruct H as [body H]. discriminate H.
Defined.

(** X13: [postJSONThrow] with a body sends the encoding of the body, and
    sends nothing when the body cannot be encoded: it then returns an error
    that names the URL. *)
Theorem postJSONThrow_body :
  forall (P : Platform) (c : TradingClient) (url : string)
         (T : Type) (M : json.Marshaler T) (v : T),
    (forall x : json.error,
        json.Marshal v = Err x ->
        postJSONThrow c url (Some (Any v))
        = ([], Some (Errorf ("can't marshal request body to " ++ url))))
    /\ (forall (bb : string) (u : url.URL),
           json.Marshal v = Ok bb ->
           url_Parse url = Some u ->
           let req := built_request c "POST" u bb in
           postJSONThrow c url (Some (Any v))
           = (trace (doRequest c req), snd (value (doRequest c req)))
           /\ requests (trace (postJSONThrow c url (Some (Any v)))) = [req]).
Proof.
  intros P c url T M v. split.
  - intros x Hx. unfold postJSONThrow, json_Marshal_any. now rewrite Hx.
  - intros bb u Hm Hu req.
    assert (H : postJSONThrow c url (Some (Any v))
                = (trace (doRequest c req), snd (value (doRequest c req)))).
    { unfold postJSONThrow, json_Marshal_any, http.MethodPost. rewrite Hm.
      cbn [string_of_bytes].
      rewrite (newRequest_built c "POST" url bb u eq_refl Hu). fold req.
      destruct (doRequest c req) as [tr [b e]]. cbn. now rewrite app_nil_r. }
    split; [exact H|]. rewrite H. apply requests_doRequest.
Qed.

(** ** The header of a request *)

(** X14: the header of a request of the client holds the two fields that
    [newRequest] sets and no other, and a field is found under any
    spelling of its name that has the same canonical form. *)
Theorem newRequest_header_lookup :
  forall (P : Platform) (c : TradingClient) (method url : string)
         (body : option string) (req : http.Request) (key : string),
    newRequest c method url body = Ok req ->
    http.Header_Get (http.Request_Header req) key
    = if String.eqb (http.CanonicalMIMEHeaderKey key) "Authorization"
      then Some ("Bearer " ++ token c)
      else if String.eqb (http.CanonicalMIMEHeaderKey key) "Content-Type"
           then Some "application/json"
           else None.
Proof.
  intros P c method url body req key. unfold newRequest.
  destruct (http_NewRequest method url body) as [req0|] eqn:H0; [|discriminate].
  intros H; injection H as <-.
  unfold http_NewRequest in H0.
  destruct (negb _); [discriminate|].
  destruct (url_Parse url); [|discriminate].
  injection H0 as <-.
  change (http.Request_Header _)
    with [ ("Authorization", ["Bearer " ++ token c]);
           ("Content-Type", ["application/json"]) ].
  unfold http.Header_Get. cbn [find fst].
  rewrite (String.eqb_sym _ (http.CanonicalMIMEHeaderKey key)).
  destruct (String.eqb (http.CanonicalMIMEHeaderKey key) "Authorization"); [reflexivity|].
  rewrite (String.eqb_sym _ (http.CanonicalMIMEHeaderKey key)).
  now destruct (String.eqb (http.CanonicalMIMEHeaderKey key) "Content-Type").
Qed.

Lemma newRequest_header_lookup_witness :
  http.Header_Get (http.Request_Header Reference.orders_request) "content-type"
  = Some "application/json"
  /\ http.Header_Get (http.Request_Header Reference.orders_request) "Accept" = None.
Proof.
  split.
  - exact (@newRequest_header_lookup (Reference.platform (Reference.answer 200 "{}"))
             Reference.client "GET" "https://api-invest.tinkoff.ru/openapi/orders" None
             Reference.orders_request "content-type" eq_refl).
  - exact (@newRequest_header_lookup (Reference.platform (Reference.answer 200 "{}"))
             Reference.client "GET" "https://api-invest.tinkoff.ru/openapi/orders" None
             Reference.orders_request "Accept" eq_refl).
Defined.

(** ** Envelopes with other members *)

Lemma decode_tagged_among (sn : struct_name) (tag : string) (T : Type) {U : json.Unmarshaler T}
    (pre post : list (string * json.value)) (k : string) (v : json.value)
    (cur : tagged sn tag T) (x : T) :
  (forall k' v', In (k', v') (pre ++ post)%list -> names tag k' = false) ->
  names tag k = true ->
  json.decode v (untag cur) = Ok x ->
  json.decode (json.Object (pre ++ (k, v) :: post)%list) cur = Ok (Tagged x).
Proof.
  intros Hothers Hk Hv. cbn.
  induction pre as [|[k' v'] pre IH]; cbn.
  - rewrite (find_field_hit tag k Hk). cbn. rewrite Hv.
    apply (decode_tagged_missing tag post (Tagged x)).
    intros k' v' Hin. apply (Hothers k' v'). exact Hin.
  - rewrite (find_field_miss tag k') by (apply (Hothers k' v'); now left).
    apply IH. intros k'' v'' Hin. apply (Hothers k'' v''). now right.
Qed.

(** X15: an endpoint reads the payload out of an envelope that has other
    members too, such as the tracking id and the status that the broker
    adds, and whatever the case of the letters of the key payload: the
    members that name no field of the response are skipped.  The body is
    a JSON text as [json.Parse] reads it, so that no member is nested
    deeper than the scanner allows. *)
Theorem payload_among_other_members :
  forall (P : Platform) (D : Domain) (c : TradingClient) (T : Type) (e : endpoint T)
         (b : option string) (req : http.Request) (body : string)
         (pre post : list (string * json.value)) (k : string) (v : json.value)
         (x : env_field (ep_envelope e)),
    ep_body e = Ok b ->
    newRequest c (ep_method e) (ep_path c e) b = Ok req ->
    Client_Do (httpClient c) req =
      Ok {| http.StatusCode := 200; http.Response_Body := (body, None) |} ->
    json.Parse body = Some (json.Object (pre ++ (k, v) :: post)%list) ->
    names "payload" k = true ->
    (forall k' v', In (k', v') (pre ++ post)%list -> names "payload" k' = false) ->
    json.decode v json.zero = Ok x ->
    value (call c e) = (env_get (ep_envelope e) x, None).
Proof.
  intros P D c T e b req body pre post k v x Hb Hn Hd Hj Hk Hothers Hv.
  rewrite call_run, (run_200 c T e b req body Hb Hn Hd).
  rewrite (env_unmarshal_parsed T (ep_envelope e) body _ Hj).
  pose proof (decode_tagged_among (declared "sdk.response") "payload" _ pre post k v (Tagged json.zero) x
                Hothers Hk Hv) as H.
  match goal with
  | |- context [json.decode ?j ?z] =>
      replace (json.decode j z) with (Ok (Tagged x) : result (response _) json.error)
        by (symmetry; exact H)
  end.
  reflexivity.
Qed.

Lemma payload_among_other_members_witness :
  let body := qq "{'trackingId':'a1b2','Payload':[{'figi':'BBG000B9XRY4'}],'status':'Ok'}" in
  let P := Reference.platform (Reference.answer 200 body) in
  let orders : option (list (@Order Reference.domain)) := Some [Tagged "BBG000B9XRY4"] in
  value (call (D := Reference.domain) Reference.client EpOrders) = (orders, None).
Proof.
  intros body P orders.
  refine (@payload_among_other_members P Reference.domain Reference.client _ EpOrders
            None Reference.orders_request body
            [("trackingId", json.Str "a1b2")] [("status", json.Str "Ok")]
            "Payload" (json.Array [json.Object [("figi", json.Str "BBG000B9XRY4")]])
            orders _ _ _ _ _ _ _).
  - reflexivity.
  - vm_compute. reflexivity.
  - reflexivity.
  - vm_compute. reflexivity.
  - vm_compute. reflexivity.
  - intros k' v' [[= <- <-] | [[= <- <-] | []]]; vm_compute; reflexivity.
  - vm_compute. reflexivity.
Defined.

(** ** Errors of the broker, as the caller of an endpoint sees them *)

(** X16: when the broker answers the request of an endpoint with a status
    other than 200 and 404 and its error envelope, the endpoint returns the
    [TradingError] of that envelope with the zero value, and the text of
    the error shows the tracking id, the status, the message and the code
    of the envelope. *)
Theorem endpoint_reports_broker_error :
  forall (P : Platform) (D : Domain) (c : TradingClient) (T : Type) (e : endpoint T)
         (b : option string) (req : http.Request) (status : Z) (body : string)
         (ms pms : list (string * json.value))
         (trackingId status_ message code : string),
    ep_body e = Ok b ->
    newRequest c (ep_method e) (ep_path c e) b = Ok req ->
    Client_Do (httpClient c) req =
      Ok {| http.StatusCode := status; http.Response_Body := (body, None) |} ->
    status <> 200 -> status <> 404 ->
    json.Parse body = Some (json.Object ms) ->
    Permutation ms (error_envelope_members trackingId status_ pms) ->
    Permutation pms (error_payload_members message code) ->
    let t := {| TrackingID := trackingId; Status := status_;
                Payload := {| Message := message; Code := code |} |} in
    value (call c e) = (env_zero (ep_envelope e), Some (ATradingError t))
    /\ Error (ATradingError t)
       = "TrackingID: " ++ trackingId ++ ", Status: " ++ status_
         ++ ", Message: " ++ message ++ ", Code: " ++ code
    /\ (NotEnoughBalance t = true <-> code = "NOT_ENOUGH_BALANCE").
Proof.
  intros P D c T e b req status body ms pms trackingId status_ message code
    Hb Hn Hd H200 H404 Hj Hm Hp t.
  split; [|split].
  - rewrite call_run.
    apply (run_doRequest_error c T e b req None (ATradingError t) Hb Hn).
    rewrite (doRequest_other c req status body Hd H200 H404).
    unfold json.Unmarshal. rewrite Hj.
    now rewrite (decode_error_envelope _ _ _ _ _ _ Hm Hp).
  - reflexivity.
  - unfold NotEnoughBalance. cbn [Payload Code t]. apply String.eqb_eq.
Qed.

Lemma endpoint_reports_broker_error_witness :
  let body := qq "{'trackingId':'a1b2','status':'Error','payload':{'message':'no money','code':'NOT_ENOUGH_BALANCE'}}" in
  let P := Reference.platform (Reference.answer 500 body) in
  exists err : error_value,
    value (LimitOrder (D := Reference.domain) Reference.client
             "BBG000B9XRY4" 10 "Buy" 150.5%float)
    = (json.zero, Some err)
    /\ Error err = "TrackingID: a1b2, Status: Error, Message: no money, Code: NOT_ENOUGH_BALANCE".
Proof.
  intros body P.
  destruct (@endpoint_reports_broker_error P Reference.domain Reference.client _
              (EpLimitOrder "BBG000B9XRY4" 10 "Buy" 150.5%float)
              (Some (qq "{'lots':10,'operation':'Buy','price':150.5}"))
              (built_request Reference.client "POST"
                 {| url.Scheme := "https";
                    url.Opaque := EmptyString;
                    url.Host := "api-invest.tinkoff.ru";
                    url.Path := "/openapi/orders/limit-order";
                    url.RawPath := EmptyString;
                    url.ForceQuery := false;
                    url.RawQuery := "figi=BBG000B9XRY4";
                    url.Fragment := EmptyString |}
                 (qq "{'lots':10,'operation':'Buy','price':150.5}"))
              500 body
              (error_envelope_members "a1b2" "Error"
                 (error_payload_members "no money" "NOT_ENOUGH_BALANCE"))
              (error_payload_members "no money" "NOT_ENOUGH_BALANCE")
              "a1b2" "Error" "no money" "NOT_ENOUGH_BALANCE")
    as [Hv [He _]].
  - vm_compute. reflexivity.
  - vm_compute. reflexivity.
  - reflexivity.
  - discriminate.
  - discriminate.
  - vm_compute. reflexivity.
  - apply Permutation_refl.
  - apply Permutation_refl.
  - eexists. split; [exact Hv | exact He].
Defined.

(** ** The texts of the errors of [doRequest] *)

Lemma Itoa_digits (i : Z) :
  exists digits : string,
    strconv.Itoa i = (if i <? 0 then "-" else EmptyString) ++ digits
    /\ strings.forallb_bytes strings.is_digit digits = true
    /\ strconv.decimal_value digits = Z.to_N (Z.abs i).
Proof.
  destruct i as [|p|p]; cbn [strconv.Itoa Z.ltb Z.compare].
  - exists "0". repeat split.
  - exists (strconv.FormatUint (Z.to_N (Zpos p))).
    split; [reflexivity|]. split; [apply FormatUint_digits | apply FormatUint_value].
  - exists (strconv.FormatUint (Npos p)).
    split; [reflexivity|]. split; [apply FormatUint_digits | apply FormatUint_value].
Qed.

(** X17: the texts of the errors that [doRequest] makes.  A failed round
    trip and a failed read give a text that ends in the text of the cause;
    the generic error gives the status code in decimal digits and the body
    as it came.  The place of the URL in each text holds the field
    [RawPath] of the URL of the request, so that the texts name no URL when
    that field is empty. *)
Theorem doRequest_error_texts :
  forall (P : Platform) (c : TradingClient) (req : http.Request),
    let raw := url.RawPath (http.URL req) in
    (forall cause : error_value,
        Client_Do (httpClient c) req = Err cause ->
        exists err, value (doRequest c req) = (None, Some err)
                    /\ Error err = "can't do request to " ++ raw ++ ": " ++ Error cause)
    /\ (forall (status : Z) (data : string) (cause : error_value),
           Client_Do (httpClient c) req =
             Ok {| http.StatusCode := status; http.Response_Body := (data, Some cause) |} ->
           exists err, value (doRequest c req) = (None, Some err)
                       /\ Error err
                          = "can't read response body to " ++ raw ++ ": " ++ Error cause)
    /\ (forall (status : Z) (body : string) (x : json.error),
           Client_Do (httpClient c) req =
             Ok {| http.StatusCode := status; http.Response_Body := (body, None) |} ->
           status <> 200 -> status <> 404 ->
           json.Unmarshal body (json.zero : TradingError) = Err x ->
           exists (err : error_value) (digits : string),
             value (doRequest c req) = (None, Some err)
             /\ Error err
                = "bad response to " ++ raw ++ " code="
                  ++ (if status <? 0 then "-" else EmptyString) ++ digits
                  ++ ", body=" ++ body
             /\ strings.forallb_bytes strings.is_digit digits = true
             /\ strconv.decimal_value digits = Z.to_N (Z.abs status)).
Proof.
  intros P c req raw. split; [|split].
  - intros cause H. rewrite (doRequest_transport_error c req cause H).
    eexists. split; reflexivity.
  - intros status data cause H. rewrite (doRequest_read_error c req status data cause H).
    eexists. split; reflexivity.
  - intros status body x H H200 H404 Hx.
    rewrite (doRequest_other c req status body H H200 H404), Hx.
    destruct (Itoa_digits status) as (digits & Hi & Hd & Hv).
    eexists. exists digits. split; [reflexivity|]. split; [|split; assumption].
    cbn [Error]. rewrite Hi. fold raw. now rewrite !append_assoc.
Qed.

(** ** The constructors of the client *)

(** X18: a client made by [NewTradingClient] talks to the API of the
    broker: every request of its endpoints is built from a URL that starts
    with [TradingApiURL] and carries the token it was made with; its HTTP
    client has a time-out of five seconds.  [NewTradingClientCustom] does
    the same with the base URL it is given. *)
Theorem NewTradingClient_requests :
  forall (P : Platform) (D : Domain) (token url : string) (T : Type) (e : endpoint T),
    let c := NewTradingClientCustom token url in
    NewTradingClient token = NewTradingClientCustom token TradingApiURL
    /\ http.Timeout (httpClient c) = 5000000000
    /\ forall req : http.Request,
         In req (requests (trace (call c e))) ->
         exists (path : string) (u : url.URL) (body : string),
           strings.HasPrefix path url = true
           /\ url_Parse path = Some u
           /\ req = built_request c (ep_method e) u body
           /\ http.Header_Get (http.Request_Header req) "Authorization"
              = Some ("Bearer " ++ token).
Proof.
  intros P D token url T e c. split; [reflexivity|]. split; [reflexivity|].
  intros req. rewrite call_run, requests_run.
  destruct (ep_body e) as [b|]; [|intros []].
  destruct (url_Parse (ep_path c e)) as [u|] eqn:Hu.
  - rewrite (newRequest_parsed c _ _ b u (ep_method_valid T e) Hu).
    intros [<- | []]. exists (ep_path c e), u. eexists.
    split; [exact (ep_path_prefix c T e)|]. repeat split. exact Hu.
  - rewrite (newRequest_unparsed c _ _ b Hu). intros [].
Qed.

(** ** A payload that the decoder refuses *)

Lemma decode_elements_bad (T : Type) {U : json.Unmarshaler T}
    (good rest : list json.value) (bad : json.value) (l : list T) (x : json.error) :
  json.decode_elements good [] = Ok l ->
  json.decode bad json.zero = Err x ->
  json.decode_elements (good ++ bad :: rest)%list [] = Err x.
Proof.
  revert l. induction good as [|v good IH]; intros l Hg Hb; cbn.
  - now rewrite Hb.
  - cbn in Hg. destruct (json.decode v json.zero) as [y|z]; [|discriminate].
    destruct (json.decode_elements good []) as [l'|z] eqn:Hl; [|discriminate].
    now rewrite (IH l' eq_refl Hb).
Qed.

Lemma decode_tagged_refused (sn : struct_name) (tag : string) (T : Type) {U : json.Unmarshaler T}
    (pre post : list (string * json.value)) (k : string) (v : json.value)
    (cur : tagged sn tag T) (x : json.error) :
  (forall k' v', In (k', v') pre -> names tag k' = false) ->
  names tag k = true ->
  json.decode v (untag cur) = Err x ->
  json.decode (json.Object (pre ++ (k, v) :: post)%list) cur = Err x.
Proof.
  intros Hpre Hk Hv. cbn.
  induction pre as [|[k' v'] pre IH]; cbn.
  - rewrite (find_field_hit tag k Hk). cbn. now rewrite Hv.
  - rewrite (find_field_miss tag k') by (apply (Hpre k' v'); now left).
    apply IH. intros k'' v'' Hin. apply (Hpre k'' v''). now right.
Qed.

(** X19: a payload that the decoder of its type refuses fails the whole
    call, whatever the members after it hold: the endpoint returns the
    zero value and a decode error.  A list is refused as soon as one of its
    elements is: no list of the elements that did decode is returned. *)
Theorem refused_payload_fails_the_call :
  forall (P : Platform) (D : Domain) (c : TradingClient) (T : Type) (e : endpoint T)
         (b : option string) (req : http.Request) (body : string)
         (pre post : list (string * json.value)) (k : string) (v : json.value)
         (x : json.error),
    ep_body e = Ok b ->
    newRequest c (ep_method e) (ep_path c e) b = Ok req ->
    Client_Do (httpClient c) req =
      Ok {| http.StatusCode := 200; http.Response_Body := (body, None) |} ->
    json.Parse body = Some (json.Object (pre ++ (k, v) :: post)%list) ->
    (forall k' v', In (k', v') pre -> names "payload" k' = false) ->
    names "payload" k = true ->
    json.decode v (json.zero : env_field (ep_envelope e)) = Err x ->
    (exists z : json.error,
        value (call c e)
        = (env_zero (ep_envelope e), Some (DecodeError (ep_path c e) (Some body) z)))
    /\ forall (A : Type) (U : json.Unmarshaler A) (good rest : list json.value)
              (bad : json.value) (l : list A) (y : json.error),
         json.decode_elements good [] = Ok l ->
         json.decode bad (json.zero : A) = Err y ->
         exists z : json.error,
           json.decode (json.Array (good ++ bad :: rest)%list)
             (json.zero : option (list A))
           = Err z.
Proof.
  intros P D c T e b req body pre post k v x Hb Hn Hd Hj Hpre Hk Hv. split.
  - exists x. rewrite call_run, (run_200 c T e b req body Hb Hn Hd).
    rewrite (env_unmarshal_parsed T (ep_envelope e) body _ Hj).
    pose proof (decode_tagged_refused (declared "sdk.response") "payload" _ pre post k v (Tagged json.zero) x
                  Hpre Hk Hv) as H.
    match goal with
    | |- context [json.decode ?j ?z] =>
        replace (json.decode j z)
          with (Err x : result (response (env_field (ep_envelope e))) json.error)
          by (symmetry; exact H)
    end.
    reflexivity.
  - intros A U good rest bad l y Hg Hbad. exists y. cbn.
    now rewrite (decode_elements_bad A good rest bad l y Hg Hbad).
Qed.

Lemma refused_payload_fails_the_call_witness :
  let body := qq "{'payload':[{'figi':'BBG000B9XRY4'},{'figi':7}]}" in
  let P := Reference.platform (Reference.answer 200 body) in
  exists z : json.error,
    value (call (D := Reference.domain) Reference.client EpOrders)
    = (None,
       Some (DecodeError "https://api-invest.tinkoff.ru/openapi/orders" (Some body) z)).
Proof.
  intros body P.
  refine (proj1 (@refused_payload_fails_the_call P Reference.domain Reference.client
                   _ EpOrders None Reference.orders_request body [] []
                   "payload"
                   (json.Array [ json.Object [("figi", json.Str "BBG000B9XRY4")];
                                 json.Object [("figi", json.Number "7")] ])
                   (json.UnmarshalTypeError "number" "string")
                   _ _ _ _ _ _ _)).
  - reflexivity.
  - vm_compute. reflexivity.
  - reflexivity.
  - vm_compute. reflexivity.
  - intros k' v' [].
  - vm_compute. reflexivity.
  - vm_compute. reflexivity.
Defined.

(** ** Strings through [json.Marshal] and [json.Unmarshal] *)

Lemma unquote_encode_byte (c : ascii) (r : string) :
  is_ascii c = true ->
  json.unquote 0 (json.encode_bytes 0 (String c r))
  = String c (json.unquote 0 (json.encode_bytes 0 r)).
Proof.
  destruct c as [[] [] [] [] [] [] [] []]; intros H; try discriminate H; reflexivity.
Qed.

Lemma scan_encode_byte (c : ascii) (r tail rest : string) :
  is_ascii c = true ->
  json.scan_string json.InString (json.encode_bytes 0 r ++ tail)
  = Some (json.encode_bytes 0 r, rest) ->
  json.scan_string json.InString (json.encode_bytes 0 (String c r) ++ tail)
  = Some (json.encode_bytes 0 (String c r), rest).
Proof.
  destruct c as [[] [] [] [] [] [] [] []]; intros H Hr; try discriminate H;
    cbn; rewrite Hr; reflexivity.
Qed.

Lemma unquote_encode_bytes (s : string) :
  strings.forallb_bytes is_ascii s = true ->
  json.unquote 0 (json.encode_bytes 0 s) = s.
Proof.
  induction s as [|c s IH]; [reflexivity|]. cbn [strings.forallb_bytes].
  intros H. apply andb_true_iff in H. destruct H as [Hc Hs].
  now rewrite (unquote_encode_byte c s Hc), (IH Hs).
Qed.

Lemma scan_encode_bytes (s rest : string) :
  strings.forallb_bytes is_ascii s = true ->
  json.scan_string json.InString (json.encode_bytes 0 s ++ String dquote rest)
  = Some (json.encode_bytes 0 s, rest).
Proof.
  induction s as [|c s IH]; [reflexivity|]. cbn [strings.forallb_bytes].
  intros H. apply andb_true_iff in H. destruct H as [Hc Hs].
  exact (scan_encode_byte c s _ rest Hc (IH Hs)).
Qed.

(** X20: a string of ASCII bytes that [json.Marshal] has written, such as
    the operation in the body of a limit order, is a JSON text that
    [json.Unmarshal] reads back as the same string, whatever quotes,
    backslashes, control bytes and HTML bytes it holds. *)
Theorem Marshal_string_round_trip :
  forall s : string,
    strings.forallb_bytes is_ascii s = true ->
    exists text : string,
      json.Marshal s = Ok text
      /\ json.Parse text = Some (json.Str s)
      /\ json.Unmarshal text (json.zero : string) = Ok s.
Proof.
  intros s Hs. exists (json.encode_string s). split; [reflexivity|].
  assert (Hp : json.Parse (json.encode_string s) = Some (json.Str s)).
  { unfold json.Parse, json.encode_string. rewrite Nat.add_1_r.
    cbn [json.parse_value json.skip_space].
    change (json.is_space dquote) with false. cbv iota.
    change (Ascii.eqb dquote "{") with false.
    change (Ascii.eqb dquote "[") with false.
    change (Ascii.eqb dquote dquote) with true. cbv iota.
    unfold json.string_literal.
    rewrite (scan_encode_bytes s EmptyString Hs), (unquote_encode_bytes s Hs).
    reflexivity. }
  split; [exact Hp|]. unfold json.Unmarshal. now rewrite Hp.
Qed.

Lemma Marshal_string_round_trip_witness :
  exists text : string,
    json.Marshal "Buy <&> Sell" = Ok text
    /\ json.Parse text = Some (json.Str "Buy <&> Sell")
    /\ json.Unmarshal text (json.zero : string) = Ok "Buy <&> Sell".
Proof. apply Marshal_string_round_trip. reflexivity. Defined.

(** ** When an endpoint succeeds *)

Lemma doRequest_no_error {P : Platform} (c : TradingClient) (req : http.Request)
    (respBody : bytes) :
  value (doRequest c req) = (respBody, None) ->
  exists body : string,
    respBody = Some body
    /\ Client_Do (httpClient c) req
       = Ok {| http.StatusCode := 200; http.Response_Body := (body, None) |}.
Proof.
  destruct (Client_Do (httpClient c) req) as [[status [body' [cause|]]]|cause] eqn:H.
  - now rewrite (doRequest_read_error c req status body' cause H).
  - destruct (Z.eq_dec status 200) as [-> | H200].
    { rewrite (doRequest_200 c req body' H). cbn. intros [= <-]. now exists body'. }
    destruct (Z.eq_dec status 404) as [-> | H404].
    { now rewrite (doRequest_404 c req body' H). }
    now rewrite (doRequest_other c req status body' H H200 H404).
  - now rewrite (doRequest_transport_error c req cause H).
Qed.

(** X21: an endpoint returns a value and no error exactly when its request
    could be built, the response had status 200, its body could be read,
    and the body decoded into the [response] of the endpoint; the value is
    then the payload decoded from that body. *)
Theorem endpoint_succeeds_iff :
  forall (P : Platform) (D : Domain) (c : TradingClient) (T : Type) (e : endpoint T)
         (t : T),
    value (call c e) = (t, None)
    <-> exists (b : option string) (req : http.Request) (body : string),
          ep_body e = Ok b
          /\ newRequest c (ep_method e) (ep_path c e) b = Ok req
          /\ Client_Do (httpClient c) req
             = Ok {| http.StatusCode := 200; http.Response_Body := (body, None) |}
          /\ env_unmarshal (ep_envelope e) body = Ok t.
Proof.
  intros P D c T e t. rewrite call_run. split.
  - unfold run.
    destruct (ep_body e) as [b|x]; [|discriminate].
    destruct (newRequest c (ep_method e) (ep_path c e) b) as [req|err0] eqn:Hn;
      [|discriminate].
    rewrite value_bind.
    destruct (value (doRequest c req)) as [respBody [err1|]] eqn:Hd; [discriminate|].
    destruct (doRequest_no_error c req respBody Hd) as [body [-> Hdo]].
    rewrite value_bind. cbn.
    destruct (env_unmarshal (ep_envelope e) body) as [t'|x] eqn:Hu; [|discriminate].
    intros [= <-]. now exists b, req, body.
  - intros (b & req & body & Hb & Hn & Hd & Hu).
    now rewrite (run_200 c T e b req body Hb Hn Hd), Hu.
Qed.

(** ** Numbers through [json.Marshal] *)

Lemma length_append (a b : string) :
  String.length (a ++ b) = (String.length a + String.length b)%nat.
Proof. induction a as [|c a IH]; cbn; [reflexivity | now rewrite IH]. Qed.

Lemma forallb_bytes_app (p : ascii -> bool) (a b : string) :
  strings.forallb_bytes p (a ++ b)
  = strings.forallb_bytes p a && strings.forallb_bytes p b.
Proof.
  induction a as [|c a IH]; cbn; [reflexivity|]. now rewrite IH, andb_assoc.
Qed.

Lemma span_app (p : ascii -> bool) (ds t : string) :
  strings.forallb_bytes p ds = true ->
  head_avoids p t ->
  json.span p (ds ++ t) = (ds, t).
Proof.
  intros Hds Ht. induction ds as [|c ds IH]; cbn [append json.span].
  - destruct t as [|c r]; [reflexivity|]. cbn [json.span]. cbn in Ht. now rewrite Ht.
  - cbn in Hds. apply andb_true_iff in Hds. destruct Hds as [Hc Hds].
    now rewrite Hc, (IH Hds).
Qed.

Lemma digits1_app (ds t : string) :
  digits ds -> head_avoids strings.is_digit t -> json.digits1 (ds ++ t) = Some (ds, t).
Proof.
  intros [Hne Hds] Ht. unfold json.digits1. rewrite (span_app _ ds t Hds Ht).
  destruct ds; [contradiction | reflexivity].
Qed.

Lemma number_literal_steps (s : string) :
  json.number_literal s
  = let (sign, s1) := literal_sign s in
    match literal_int s1 with
    | None => None
    | Some (ip, s2) =>
        match literal_frac s2 with
        | None => None
        | Some (fp, s3) =>
            match literal_exp s3 with
            | None => None
            | Some (ep, s4) => Some (sign ++ ip ++ fp ++ ep, s4)
            end
        end
    end.
Proof. reflexivity. Qed.

Lemma digit_is_not (c x : ascii) :
  strings.is_digit c = true -> strings.is_digit x = false -> Ascii.eqb c x = false.
Proof.
  intros Hc Hx. destruct (Ascii.eqb_spec c x) as [-> | _]; [congruence | reflexivity].
Qed.

Lemma number_tail_avoids (t : string) :
  number_tail t = true ->
  head_avoids strings.is_digit t
  /\ head_avoids (fun c => Ascii.eqb c ".") t
  /\ head_avoids (fun c => Ascii.eqb c "e" || Ascii.eqb c "E") t.
Proof.
  destruct t as [|c r]; cbn; [now repeat split|].
  intros H. apply negb_true_iff in H.
  apply orb_false_iff in H. destruct H as [H HE].
  apply orb_false_iff in H. destruct H as [H He].
  apply orb_false_iff in H. destruct H as [Hd Hp].
  repeat split; trivial. now rewrite He, HE.
Qed.

Lemma literal_exp_app (ep t : string) :
  exp_part ep -> number_tail t = true -> literal_exp (ep ++ t) = Some (ep, t).
Proof.
  intros Hep Ht. destruct (number_tail_avoids t Ht) as (Hd & _ & He).
  destruct Hep as [-> | (sign & ds & -> & Hsign & Hds)].
  - cbn [append]. destruct t as [|c r]; [reflexivity|]. cbn in He |- *. now rewrite He.
  - assert (Hhead : exists d ds', ds = String d ds' /\ strings.is_digit d = true).
    { destruct Hds as [Hne Hall]. destruct ds as [|d ds']; [contradiction|].
      cbn in Hall. apply andb_true_iff in Hall. exists d, ds'. now split. }
    destruct Hhead as (d & ds' & -> & Hdd).
    cbn [append literal_exp]. change (Ascii.eqb "e" "e" || Ascii.eqb "e" "E") with true.
    cbv iota. rewrite append_assoc.
    destruct Hsign as [-> | [-> | ->]]; cbn [append].
    + rewrite (digit_is_not d "+" Hdd eq_refl), (digit_is_not d "-" Hdd eq_refl).
      cbn [orb]. change (String d (ds' ++ t)) with (String d ds' ++ t).
      now rewrite (digits1_app _ t Hds Hd).
    + change (Ascii.eqb "+" "+" || Ascii.eqb "+" "-") with true. cbv iota.
      change (String d (ds' ++ t)) with (String d ds' ++ t).
      now rewrite (digits1_app _ t Hds Hd).
    + change (Ascii.eqb "-" "+" || Ascii.eqb "-" "-") with true. cbv iota.
      change (String d (ds' ++ t)) with (String d ds' ++ t).
      now rewrite (digits1_app _ t Hds Hd).
Qed.

Lemma exp_tail_avoids (ep t : string) :
  exp_part ep -> number_tail t = true ->
  head_avoids strings.is_digit (ep ++ t)
  /\ head_avoids (fun c => Ascii.eqb c ".") (ep ++ t).
Proof.
  intros Hep Ht. destruct (number_tail_avoids t Ht) as (Hd & Hp & _).
  destruct Hep as [-> | (sign & ds & -> & _)]; [now split | now split].
Qed.

Lemma literal_frac_app (fp rest : string) :
  frac_part fp ->
  head_avoids strings.is_digit rest ->
  head_avoids (fun c => Ascii.eqb c ".") rest ->
  literal_frac (fp ++ rest) = Some (fp, rest).
Proof.
  intros Hfp Hd Hp. destruct Hfp as [-> | (ds & -> & Hds)].
  - cbn [append]. destruct rest as [|c r]; [reflexivity|]. cbn in Hp |- *. now rewrite Hp.
  - cbn [append literal_frac]. change (Ascii.eqb "." ".") with true. cbv iota.
    now rewrite (digits1_app ds rest Hds Hd).
Qed.

Lemma literal_int_app (ip rest : string) :
  int_part ip -> head_avoids strings.is_digit rest ->
  literal_int (ip ++ rest) = Some (ip, rest).
Proof.
  intros Hip Hd. destruct Hip as [-> | (c & ds & -> & Hc & Hc0 & Hds)].
  - reflexivity.
  - cbn [append literal_int]. now rewrite Hc0, Hc, (span_app _ ds rest Hds Hd).
Qed.

Lemma int_part_head (ip : string) :
  int_part ip ->
  exists (c : ascii) (r : string), ip = String c r /\ strings.is_digit c = true.
Proof.
  intros [-> | (c & ds & -> & Hc & _)]; [now exists "0"%char, EmptyString | now exists c, ds].
Qed.

(** A number, followed by what may follow one, is read as a literal. *)
Lemma number_literal_app (x t : string) :
  is_number x -> number_tail t = true -> json.number_literal (x ++ t) = Some (x, t).
Proof.
  intros (neg & ip & fp & ep & -> & Hip & Hfp & Hep) Ht.
  rewrite number_literal_steps.
  destruct (exp_tail_avoids ep t Hep Ht) as [Hed Hep'].
  assert (Hfd : head_avoids strings.is_digit (fp ++ ep ++ t)).
  { destruct Hfp as [-> | (ds & -> & _)]; [exact Hed | reflexivity]. }
  assert (Hs : literal_sign (((if neg then "-" else EmptyString) ++ ip ++ fp ++ ep) ++ t)
               = ((if neg then "-" else EmptyString), ip ++ fp ++ ep ++ t)).
  { rewrite !append_assoc. destruct neg; [reflexivity|]. cbn [append].
    destruct (int_part_head ip Hip) as (c & r & -> & Hc). cbn [append literal_sign].
    now rewrite (digit_is_not c "-" Hc eq_refl). }
  rewrite Hs, (literal_int_app ip _ Hip Hfd), (literal_frac_app fp _ Hfp Hed Hep'),
    (literal_exp_app ep t Hep Ht).
  reflexivity.
Qed.

(** The shape of a numeral: one digit, or a digit from 1 to 9 and more
    digits. *)
Lemma digit_byte (d : N) :
  (d < 10)%N ->
  strings.is_digit (byte_of (48 + d)) = true
  /\ (Ascii.eqb (byte_of (48 + d)) "0" = true <-> d = 0%N).
Proof.
  intros H. split; [now apply is_digit_byte_of|].
  rewrite Ascii.eqb_eq. split.
  - intros E. apply (f_equal byte_code) in E. unfold byte_code, byte_of in E.
    rewrite N_ascii_embedding in E by lia.
    change (N_of_ascii "0") with 48%N in E. lia.
  - now intros ->.
Qed.

Lemma digits_fuel_shape (fuel : nat) :
  forall (n : N) (acc : string),
    (n < 2 ^ N.of_nat fuel)%N -> (0 < n)%N ->
    exists (c : ascii) (ds : string),
      strconv.digits_fuel fuel n acc = String c (ds ++ acc)
      /\ strings.is_digit c = true /\ Ascii.eqb c "0" = false
      /\ strings.forallb_bytes strings.is_digit ds = true.
Proof.
  induction fuel as [|fuel IH]; intros n acc Hn Hpos.
  - cbn in Hn. lia.
  - cbn [strconv.digits_fuel].
    assert (Hd : (n mod 10 < 10)%N) by (apply N.mod_lt; lia).
    destruct (digit_byte (n mod 10) Hd) as [Hdig Hzero].
    destruct (N.ltb_spec n 10) as [Hlt | Hge].
    + exists (byte_of (48 + n mod 10)), EmptyString. repeat split; trivial.
      apply not_true_is_false. intros E.
      apply Hzero in E. rewrite N.mod_small in E by exact Hlt. lia.
    + destruct (IH (n / 10)%N (String (byte_of (48 + n mod 10)) acc))
        as (c & ds & E & Hc & Hc0 & Hds).
      * rewrite Nat2N.inj_succ, N.pow_succ_r' in Hn.
        apply N.Div0.div_lt_upper_bound. lia.
      * apply N.div_str_pos. lia.
      * exists c, (ds ++ String (byte_of (48 + n mod 10)) EmptyString).
        rewrite E, append_assoc. repeat split; trivial.
        rewrite forallb_bytes_app, Hds. cbn [strings.forallb_bytes andb]. now rewrite Hdig.
Qed.

Lemma FormatUint_shape (n : N) :
  (0 < n)%N ->
  exists (c : ascii) (ds : string),
    strconv.FormatUint n = String c ds
    /\ strings.is_digit c = true /\ Ascii.eqb c "0" = false
    /\ strings.forallb_bytes strings.is_digit ds = true.
Proof.
  intros Hpos. unfold strconv.FormatUint.
  destruct (digits_fuel_shape (S (N.to_nat (N.log2 n))) n EmptyString)
    as (c & ds & E & Hc & Hc0 & Hds); [| exact Hpos |].
  - rewrite Nat2N.inj_succ, N2Nat.id. apply N.log2_spec. exact Hpos.
  - exists c, ds. rewrite E, append_empty_r. now repeat split.
Qed.

Lemma FormatUint_int_part (n : N) : int_part (strconv.FormatUint n).
Proof.
  destruct (N.eq_dec n 0) as [-> | Hn]; [now left|].
  right. apply FormatUint_shape. lia.
Qed.

Lemma FormatUint_one_digit (n : N) :
  (n < 10)%N -> strconv.FormatUint n = String (byte_of (48 + n)) EmptyString.
Proof.
  intros H. unfold strconv.FormatUint. cbn [strconv.digits_fuel].
  destruct (N.ltb_spec n 10) as [_ | Hge]; [|lia].
  now rewrite N.mod_small by exact H.
Qed.

Lemma FormatUint_two_digits (n : N) :
  (10 <= n)%N ->
  exists (c d : ascii) (ds : string),
    strconv.FormatUint n = String c (String d ds)
    /\ strings.is_digit c = true /\ Ascii.eqb c "0" = false
    /\ strings.forallb_bytes strings.is_digit (String d ds) = true.
Proof.
  intros H. unfold strconv.FormatUint. cbn [strconv.digits_fuel].
  destruct (N.ltb_spec n 10) as [Hlt | _]; [lia|].
  assert (Hd : (n mod 10 < 10)%N) by (apply N.mod_lt; lia).
  destruct (digits_fuel_shape (N.to_nat (N.log2 n)) (n / 10)
              (String (byte_of (48 + n mod 10)) EmptyString))
    as (c & ds & E & Hc & Hc0 & Hds).
  - rewrite N2Nat.id. apply N.Div0.div_lt_upper_bound.
    assert (Hl : (n < 2 ^ N.succ (N.log2 n))%N) by (apply N.log2_spec; lia).
    rewrite N.pow_succ_r' in Hl. lia.
  - apply N.div_str_pos. lia.
  - rewrite E.
    assert (Hall : strings.forallb_bytes strings.is_digit
                     (ds ++ String (byte_of (48 + n mod 10)) EmptyString) = true).
    { rewrite forallb_bytes_app, Hds. cbn [strings.forallb_bytes andb].
      now rewrite is_digit_byte_of. }
    destruct (ds ++ String (byte_of (48 + n mod 10)) EmptyString) as [|d r] eqn:Er.
    + destruct ds; discriminate Er.
    + exists c, d, r. now repeat split.
Qed.

(** A decimal numeral of an integer is a JSON number. *)
Lemma Itoa_is_number (i : Z) : is_number (strconv.Itoa i).
Proof.
  destruct i as [|p|p]; cbn [strconv.Itoa].
  - exists false, (strconv.FormatUint (Z.to_N 0)), EmptyString, EmptyString.
    rewrite !append_empty_r. repeat split; [apply FormatUint_int_part | now left | now left].
  - exists false, (strconv.FormatUint (Z.to_N (Zpos p))), EmptyString, EmptyString.
    rewrite !append_empty_r. repeat split; [apply FormatUint_int_part | now left | now left].
  - exists true, (strconv.FormatUint (Npos p)), EmptyString, EmptyString.
    rewrite !append_empty_r. repeat split; [apply FormatUint_int_part | now left | now left].
Qed.

(** The digits of the shortest decimal of a positive number are positive. *)
Lemma round_at_pos (m e p d : Z) : 0 < m -> strconv.round_at m e p = Some d -> 0 < d.
Proof.
  intros Hm. unfold strconv.round_at.
  remember (2 ^ Z.max (e - 2) 0 * 10 ^ Z.max (- p) 0) as a eqn:Ea.
  remember (2 ^ Z.max (2 - e) 0 * 10 ^ Z.max p 0) as b eqn:Eb.
  assert (Ha : 0 < a) by (subst a; apply Z.mul_pos_pos; apply Z.pow_pos_nonneg; lia).
  assert (Hb : 0 < b) by (subst b; apply Z.mul_pos_pos; apply Z.pow_pos_nonneg; lia).
  assert (Hl : 0 < strconv.lower_bound m e * a).
  { apply Z.mul_pos_pos; [|exact Ha]. unfold strconv.lower_bound.
    destruct (_ && _); lia. }
  assert (Hdown : 0 <= 4 * m * a / b) by (apply Z.div_pos; nia).
  cbv zeta.
  remember (4 * m * a / b) as down eqn:Edown.
  remember (strconv.lower_bound m e * a) as lower eqn:Elower.
  remember (strconv.upper_bound m * a) as upper eqn:Eupper.
  remember (2 * (4 * m * a) <? (2 * down + 1) * b) as c1 eqn:E1.
  remember ((2 * down + 1) * b <? 2 * (4 * m * a)) as c2 eqn:E2.
  remember (((down + 1) * b <? upper) || Z.even m && ((down + 1) * b =? upper)) as okup
    eqn:Eokup.
  destruct ((lower <? down * b) || Z.even m && (lower =? down * b)) eqn:Hok.
  - assert (Hpos : 0 < down).
    { apply orb_true_iff in Hok. destruct Hok as [H | H].
      - apply Z.ltb_lt in H. nia.
      - apply andb_true_iff in H. destruct H as [_ H]. apply Z.eqb_eq in H. nia. }
    destruct okup.
    + destruct c1; [intros [= <-]; exact Hpos|].
      destruct c2; [intros [= <-]; lia|].
      destruct (Z.even down); intros [= <-]; lia.
    + intros [= <-]; exact Hpos.
  - destruct okup; [intros [= <-]; lia | discriminate].
Qed.

Lemma shortest_from_pos (fuel : nat) :
  forall (m e p d q : Z),
    0 < m -> strconv.shortest_from fuel m e p = (d, q) -> 0 < d.
Proof.
  induction fuel as [|fuel IH]; intros m e p d q Hm; cbn [strconv.shortest_from].
  - intros H. apply (f_equal fst) in H. cbn [fst] in H. rewrite <- H.
    apply Z.mul_pos_pos; [lia|]. apply Z.pow_pos_nonneg; lia.
  - destruct (strconv.round_at m e p) as [d'|] eqn:E.
    + intros [= <- _]. exact (round_at_pos m e p d' Hm E).
    + apply IH. exact Hm.
Qed.

(** Substrings. *)
Lemma substring_0_0 (s : string) : substring 0 0 s = EmptyString.
Proof. now destruct s. Qed.

Lemma substring_0_length (s : string) : substring 0 (String.length s) s = s.
Proof. induction s as [|c s IH]; cbn; [reflexivity | now rewrite IH]. Qed.

Lemma substring_skip (pre t : string) (k m : nat) :
  substring (String.length pre + k) m (pre ++ t) = substring k m t.
Proof. induction pre as [|c pre IH]; cbn; [reflexivity | exact IH]. Qed.

Lemma substring_prefix (pre t : string) :
  substring 0 (String.length pre) (pre ++ t) = pre.
Proof.
  induction pre as [|c pre IH]; cbn; [apply substring_0_0 | now rewrite IH].
Qed.

Lemma forallb_bytes_substring (p : ascii -> bool) (s : string) :
  strings.forallb_bytes p s = true ->
  forall n m : nat, strings.forallb_bytes p (substring n m s) = true.
Proof.
  induction s as [|c s IH]; intros H n m.
  - now destruct n, m.
  - cbn in H. apply andb_true_iff in H. destruct H as [Hc Hs].
    destruct n as [|n]; cbn.
    + destruct m as [|m]; [reflexivity|]. cbn. now rewrite Hc, (IH Hs).
    + apply (IH Hs).
Qed.

Lemma substring_length (s : string) :
  forall n m : nat,
    (n + m <= String.length s)%nat -> String.length (substring n m s) = m.
Proof.
  induction s as [|c s IH]; intros n m H; cbn in H.
  - assert (n = 0%nat) by lia. assert (m = 0%nat) by lia. now subst.
  - destruct n as [|n]; cbn.
    + destruct m as [|m]; [reflexivity|]. cbn. rewrite IH; [reflexivity | lia].
    + apply IH. lia.
Qed.

Lemma Repeat_digits (n : nat) :
  strings.forallb_bytes strings.is_digit (strings.Repeat "0" n) = true.
Proof. induction n as [|n IH]; [reflexivity | exact IH]. Qed.

Lemma substring_0_plus (pre w : string) (k : nat) :
  substring 0 (String.length pre + k) (pre ++ w) = pre ++ substring 0 k w.
Proof. induction pre as [|c pre IH]; cbn; [reflexivity | now rewrite IH]. Qed.

Lemma digits_nonempty (c : ascii) (ds : string) :
  strings.is_digit c = true -> strings.forallb_bytes strings.is_digit ds = true ->
  digits (String c ds).
Proof. intros Hc Hds. split; [discriminate|]. cbn. now rewrite Hc, Hds. Qed.

(** Format ['f'] writes an integer part and a fraction. *)
Lemma fmtF_parts (d p : Z) :
  0 < d ->
  exists ip fp : string,
    strconv.fmtF d p = ip ++ fp /\ int_part ip /\ frac_part fp.
Proof.
  intros Hd. unfold strconv.fmtF.
  destruct (FormatUint_shape (Z.to_N d)) as (c & ds & E & Hc & Hc0 & Hds); [lia|].
  rewrite E. cbv zeta.
  assert (Hall : strings.forallb_bytes strings.is_digit (String c ds) = true)
    by (cbn; now rewrite Hc, Hds).
  destruct (Z.leb_spec 0 p) as [Hp | Hp].
  - exists (String c (ds ++ strings.Repeat "0" (Z.to_nat p))), EmptyString.
    rewrite append_empty_r. split; [reflexivity|]. split; [|now left].
    right. exists c, (ds ++ strings.Repeat "0" (Z.to_nat p)). repeat split; trivial.
    now rewrite forallb_bytes_app, Hds, Repeat_digits.
  - destruct (Z.ltb_spec 0 (Z.of_nat (String.length (String c ds)) + p)) as [Hdp | Hdp].
    + remember (Z.to_nat (Z.of_nat (String.length (String c ds)) + p)) as k eqn:Ek.
      remember (Z.to_nat (- p)) as mp eqn:Emp.
      assert (Hk : (k + mp = String.length (String c ds))%nat) by lia.
      destruct k as [|k]; [lia|].
      exists (substring 0 (S k) (String c ds)),
             (String "." (substring (S k) mp (String c ds))).
      split; [reflexivity|]. split.
      * right. exists c, (substring 0 k ds). repeat split; trivial.
        now apply forallb_bytes_substring.
      * right. eexists. split; [reflexivity|]. split.
        -- intros Hempty. apply (f_equal String.length) in Hempty.
           rewrite substring_length in Hempty by lia. cbn in Hempty. lia.
        -- now apply forallb_bytes_substring.
    + exists "0",
             (String "." (strings.Repeat "0"
                            (Z.to_nat (- (Z.of_nat (String.length (String c ds)) + p)))
                          ++ String c ds)).
      split; [reflexivity|]. split; [now left|].
      right. eexists. split; [reflexivity|]. split.
      * destruct (strings.Repeat _ _); discriminate.
      * now rewrite forallb_bytes_app, Repeat_digits, Hall.
Qed.

(** Format ['e'] writes one digit, a fraction, and an exponent with a sign
    and two digits or more. *)
Lemma fmtE_parts (d p : Z) :
  0 < d ->
  exists ip fp sign pad es : string,
    strconv.fmtE d p = ip ++ fp ++ String "e" (sign ++ pad ++ es)
    /\ int_part ip /\ frac_part fp
    /\ (sign = "+" \/ sign = "-")
    /\ (pad = "0" /\ (exists x : ascii, es = String x EmptyString
                                       /\ strings.is_digit x = true)
        \/ pad = EmptyString
           /\ exists (x1 x2 : ascii) (r : string),
                es = String x1 (String x2 r)
                /\ strings.is_digit x1 = true /\ Ascii.eqb x1 "0" = false
                /\ strings.forallb_bytes strings.is_digit (String x2 r) = true).
Proof.
  intros Hd. unfold strconv.fmtE.
  destruct (FormatUint_shape (Z.to_N d)) as (c & ds & E & Hc & Hc0 & Hds); [lia|].
  rewrite E. cbv zeta.
  remember (Z.of_nat (String.length (String c ds)) + p - 1) as exp eqn:Eexp.
  exists (String c EmptyString),
         (if 1 <? Z.of_nat (String.length (String c ds))
          then String "." ds else EmptyString),
         (if exp <? 0 then "-" else "+"),
         (if Z.abs exp <? 10 then "0" else EmptyString),
         (strconv.FormatUint (Z.to_N (Z.abs exp))).
  split; [|split; [|split; [|split]]].
  - cbn [substring]. rewrite substring_0_0.
    replace (Z.to_nat (Z.of_nat (String.length (String c ds)) - 1))
      with (String.length ds) by (cbn [String.length]; lia).
    rewrite substring_0_length.
    destruct (1 <? _); cbn [append]; rewrite ?append_assoc; reflexivity.
  - right. exists c, EmptyString. now repeat split.
  - destruct (Z.ltb_spec 1 (Z.of_nat (String.length (String c ds)))) as [Hn | Hn];
      [|now left].
    right. exists ds. split; [reflexivity|]. split; [|exact Hds].
    intros ->. cbn in Hn. lia.
  - destruct (exp <? 0); [now right | now left].
  - destruct (Z.ltb_spec (Z.abs exp) 10) as [Hs | Hs].
    + left. split; [reflexivity|].
      rewrite FormatUint_one_digit by lia. eexists. split; [reflexivity|].
      apply is_digit_byte_of. lia.
    + right. split; [reflexivity|].
      destruct (FormatUint_two_digits (Z.to_N (Z.abs exp))) as (x1 & x2 & r & Ees & H);
        [lia|].
      exists x1, x2, r. now split.
Qed.

(** The exponent as [json.Marshal] rewrites it: [e-0X] becomes [e-X]. *)
Lemma exponent_cleanup (pre sign pad es : string) :
  (sign = "+" \/ sign = "-") ->
  (pad = "0" /\ (exists x : ascii, es = String x EmptyString
                                   /\ strings.is_digit x = true)
   \/ pad = EmptyString
      /\ exists (x1 x2 : ascii) (r : string),
           es = String x1 (String x2 r)
           /\ strings.is_digit x1 = true /\ Ascii.eqb x1 "0" = false
           /\ strings.forallb_bytes strings.is_digit (String x2 r) = true) ->
  forall b : string,
    b = pre ++ String "e" (sign ++ pad ++ es) ->
    exists ep : string,
      (if (4 <=? String.length b)%nat
          && String.eqb (substring (String.length b - 4) 2 b) "e-"
          && String.eqb (substring (String.length b - 2) 1 b) "0"
       then substring 0 (String.length b - 2) b ++ substring (String.length b - 1) 1 b
       else b) = pre ++ ep
      /\ exp_part ep.
Proof.
  intros Hsign Hes b Eb. remember (String.length b) as n eqn:Hn.
  destruct Hes as [[-> (x & -> & Hx)] | [-> (x1 & x2 & r & -> & Hx1 & Hx10 & Hr)]].
  - assert (En : n = (String.length pre + 4)%nat).
    { subst n b. rewrite length_append. destruct Hsign as [-> | ->]; reflexivity. }
    rewrite En.
    replace (String.length pre + 4 - 4)%nat with (String.length pre + 0)%nat by lia.
    replace (String.length pre + 4 - 2)%nat with (String.length pre + 2)%nat by lia.
    replace (String.length pre + 4 - 1)%nat with (String.length pre + 3)%nat by lia.
    subst b. rewrite !substring_skip, substring_0_plus.
    replace (4 <=? String.length pre + 4)%nat with true
      by (symmetry; apply Nat.leb_le; lia).
    destruct Hsign as [-> | ->]; cbn.
    + eexists. split; [reflexivity|]. right. exists "+", (String "0" (String x EmptyString)).
      split; [reflexivity|]. split; [now right; left|].
      split; [discriminate|]. cbn. now rewrite Hx.
    + rewrite append_assoc. eexists. split; [reflexivity|].
      right. exists "-", (String x EmptyString).
      split; [reflexivity|]. split; [now right; right|].
      split; [discriminate|]. cbn. now rewrite Hx.
  - assert (Hep : exp_part (String "e" (sign ++ EmptyString ++ String x1 (String x2 r)))).
    { right. exists sign, (String x1 (String x2 r)). split; [reflexivity|].
      split; [now right|]. apply digits_nonempty; assumption. }
    assert (Hno : (4 <=? n)%nat
                  && String.eqb (substring (n - 4) 2 b) "e-"
                  && String.eqb (substring (n - 2) 1 b) "0" = false).
    { assert (En : n = (String.length pre + (String.length r + 4))%nat).
      { subst n b. rewrite length_append.
        destruct Hsign as [-> | ->]; cbn [append String.length]; lia. }
      rewrite En.
      replace (String.length pre + (String.length r + 4) - 4)%nat
        with (String.length pre + String.length r)%nat by lia.
      replace (String.length pre + (String.length r + 4) - 2)%nat
        with (String.length pre + (String.length r + 2))%nat by lia.
      subst b. rewrite !substring_skip.
      destruct r as [|x3 r'].
      - destruct Hsign as [-> | ->]; cbn [append String.length Nat.add substring].
        + apply andb_false_iff. left. apply andb_false_iff. now right.
        + apply andb_false_iff. right. cbn [String.eqb]. now rewrite Hx10.
      - apply andb_false_iff. left. apply andb_false_iff. right.
        apply not_true_is_false. intros Heq. apply String.eqb_eq in Heq.
        assert (Hall : strings.forallb_bytes (fun c => negb (Ascii.eqb c "e"))
                         (sign ++ EmptyString ++ String x1 (String x2 (String x3 r')))
                       = true).
        { rewrite forallb_bytes_app. apply andb_true_iff. split.
          - destruct Hsign as [-> | ->]; reflexivity.
          - cbn [append strings.forallb_bytes].
            rewrite (digit_is_not x1 "e" Hx1 eq_refl). cbn [negb andb].
            cbn in Hr. apply andb_true_iff in Hr. destruct Hr as [Hx2 Hr].
            apply andb_true_iff in Hr. destruct Hr as [Hx3 Hr].
            rewrite (digit_is_not x2 "e" Hx2 eq_refl), (digit_is_not x3 "e" Hx3 eq_refl).
            cbn [negb andb]. clear - Hr. induction r' as [|y r' IH]; [reflexivity|].
            cbn in Hr |- *. apply andb_true_iff in Hr. destruct Hr as [Hy Hr].
            now rewrite (digit_is_not y "e" Hy eq_refl), (IH Hr). }
        cbn [String.length substring] in Heq.
        pose proof (forallb_bytes_substring _ _ Hall (String.length r') 2) as Hsub.
        rewrite Heq in Hsub. discriminate Hsub. }
    rewrite Hno. subst b. exists (String "e" (sign ++ EmptyString ++ String x1 (String x2 r))).
    split; [reflexivity | exact Hep].
Qed.

(** A float that is a number is zero or finite. *)
Lemma finite_Prim2SF (f : float) :
  PrimFloat.is_nan f || PrimFloat.is_infinity f = false ->
  (exists s : bool, Prim2SF f = S754_zero s)
  \/ exists (s : bool) (m : positive) (e : Z), Prim2SF f = S754_finite s m e.
Proof.
  intros H. apply orb_false_iff in H. destruct H as [Hnan Hinf].
  unfold PrimFloat.is_nan in Hnan. unfold PrimFloat.is_infinity in Hinf.
  rewrite FloatAxioms.eqb_spec in Hnan, Hinf. rewrite FloatAxioms.abs_spec in Hinf.
  destruct (Prim2SF f) as [s | s | | s m e].
  - left. now exists s.
  - vm_compute in Hinf. discriminate Hinf.
  - discriminate Hnan.
  - right. now exists s, m, e.
Qed.

(** What [strconv.FormatFloat] writes for a number. *)
Lemma FormatFloat_f_is_number (f : float) :
  PrimFloat.is_nan f || PrimFloat.is_infinity f = false ->
  is_number (strconv.FormatFloat f "f").
Proof.
  intros Hfin. unfold strconv.FormatFloat.
  destruct (finite_Prim2SF f Hfin) as [[s ->] | (s & m & e & ->)].
  - exists s, "0", EmptyString, EmptyString.
    split; [now destruct s|]. split; [now left|]. split; now left.
  - destruct (strconv.shortest (Z.pos m) e) as [d q] eqn:Es.
    assert (Hd : 0 < d) by exact (shortest_from_pos _ _ _ _ _ _ (Pos2Z.is_pos m) Es).
    change (Ascii.eqb "f" "e" || Ascii.eqb "f" "g" && ((_ <? -4) || (6 <=? _)))
      with false.
    cbv iota.
    destruct (fmtF_parts d q Hd) as (ip & fp & -> & Hip & Hfp).
    exists s, ip, fp, EmptyString. rewrite append_empty_r.
    split; [reflexivity|]. split; [exact Hip|]. split; [exact Hfp | now left].
Qed.

Lemma FormatFloat_e_parts (f : float) :
  PrimFloat.is_nan f || PrimFloat.is_infinity f = false ->
  exists (neg : bool) (ip fp sign pad es : string),
    strconv.FormatFloat f "e"
    = ((if neg then "-" else EmptyString) ++ ip ++ fp) ++ String "e" (sign ++ pad ++ es)
    /\ int_part ip /\ frac_part fp
    /\ (sign = "+" \/ sign = "-")
    /\ (pad = "0" /\ (exists x : ascii, es = String x EmptyString
                                       /\ strings.is_digit x = true)
        \/ pad = EmptyString
           /\ exists (x1 x2 : ascii) (r : string),
                es = String x1 (String x2 r)
                /\ strings.is_digit x1 = true /\ Ascii.eqb x1 "0" = false
                /\ strings.forallb_bytes strings.is_digit (String x2 r) = true).
Proof.
  intros Hfin. unfold strconv.FormatFloat.
  destruct (finite_Prim2SF f Hfin) as [[s ->] | (s & m & e & ->)].
  - exists s, "0", EmptyString, "+", "0", "0".
    split; [now destruct s|]. split; [now left|]. split; [now left|].
    split; [now left|]. left. split; [reflexivity|]. now exists "0"%char.
  - destruct (strconv.shortest (Z.pos m) e) as [d q] eqn:Es.
    assert (Hd : 0 < d) by exact (shortest_from_pos _ _ _ _ _ _ (Pos2Z.is_pos m) Es).
    change (Ascii.eqb "e" "e" || Ascii.eqb "e" "g" && ((_ <? -4) || (6 <=? _)))
      with true.
    cbv iota.
    destruct (fmtE_parts d q Hd) as (ip & fp & sign & pad & es & -> & H).
    exists s, ip, fp, sign, pad, es. split; [now rewrite !append_assoc | exact H].
Qed.

(** What [json.Marshal] writes for a [float64] is a JSON number. *)
Lemma encode_float64_is_number (f : float) (p : string) :
  json.encode_float64 f = Ok p -> is_number p.
Proof.
  unfold json.encode_float64.
  destruct (PrimFloat.is_nan f || PrimFloat.is_infinity f) eqn:Hfin; [discriminate|].
  cbv zeta. destruct (negb _ && _).
  - destruct (FormatFloat_e_parts f Hfin)
      as (neg & ip & fp & sign & pad & es & E & Hip & Hfp & Hsign & Hes).
    destruct (exponent_cleanup _ sign pad es Hsign Hes _ E) as (ep & -> & Hep).
    intros [= <-]. exists neg, ip, fp, ep.
    split; [now rewrite !append_assoc | now repeat split].
  - intros [= <-]. exact (FormatFloat_f_is_number f Hfin).
Qed.

(** ** The body of a limit order is a JSON text *)

Lemma string_literal_encode (s rest : string) :
  strings.forallb_bytes is_ascii s = true ->
  json.string_literal (json.encode_bytes 0 s ++ String dquote rest) = Some (s, rest).
Proof.
  intros Hs. unfold json.string_literal.
  now rewrite (scan_encode_bytes s rest Hs), (unquote_encode_bytes s Hs).
Qed.

Lemma parse_value_string (f : nat) (d : N) (s t : string) :
  strings.forallb_bytes is_ascii s = true ->
  json.parse_value (S f) d (json.encode_string s ++ t) = Some (json.Str s, t).
Proof.
  intros Hs. unfold json.encode_string. cbn [append json.parse_value json.skip_space].
  change (json.is_space dquote) with false. cbv iota.
  change (Ascii.eqb dquote "{") with false.
  change (Ascii.eqb dquote "[") with false.
  change (Ascii.eqb dquote dquote) with true. cbv iota.
  rewrite append_assoc. cbn [append]. now rewrite (string_literal_encode s t Hs).
Qed.

Lemma number_head (x : string) :
  is_number x ->
  exists (c : ascii) (r : string),
    x = String c r /\ (c = "-"%char \/ strings.is_digit c = true).
Proof.
  intros (neg & ip & fp & ep & -> & Hip & _).
  destruct neg; cbn [append].
  - eexists. eexists. split; [reflexivity | now left].
  - destruct (int_part_head ip Hip) as (c & r & -> & Hc). cbn [append].
    eexists. eexists. split; [reflexivity | now right].
Qed.

Lemma number_head_byte (c : ascii) :
  c = "-"%char \/ strings.is_digit c = true ->
  json.is_space c = false
  /\ Ascii.eqb c "{" = false /\ Ascii.eqb c "[" = false /\ Ascii.eqb c dquote = false
  /\ Ascii.eqb c "t" = false /\ Ascii.eqb c "f" = false /\ Ascii.eqb c "n" = false.
Proof.
  intros [-> | H]; [now repeat split|].
  destruct c as [[] [] [] [] [] [] [] []]; try discriminate H; now repeat split.
Qed.

Lemma parse_value_number (f : nat) (d : N) (x t : string) :
  is_number x -> number_tail t = true ->
  json.parse_value (S f) d (x ++ t) = Some (json.Number x, t).
Proof.
  intros Hx Ht. pose proof (number_literal_app x t Hx Ht) as Hlit.
  destruct (number_head x Hx) as (c & r & -> & Hc).
  destruct (number_head_byte c Hc) as (H0 & H1 & H2 & H3 & H4 & H5 & H6).
  cbn [append] in Hlit |- *. cbn [json.parse_value json.skip_space].
  rewrite H0. cbv iota. rewrite H1, H2, H3, H4, H5, H6. now rewrite Hlit.
Qed.

Lemma parse_member_more (f : nat) (d : N) (key text rest : string)
    (v : json.value) (acc : list (string * json.value)) :
  strings.forallb_bytes is_ascii key = true ->
  json.parse_value f d (text ++ String "," rest) = Some (v, String "," rest) ->
  json.parse_members (S f) d
    (json.encode_string key ++ String ":" (text ++ String "," rest)) acc
  = json.parse_members f d (json.skip_space rest) ((key, v) :: acc).
Proof.
  intros Hk Hv. unfold json.encode_string. cbn [append json.parse_members].
  change (Ascii.eqb dquote dquote) with true. cbv iota.
  rewrite append_assoc. cbn [append]. rewrite (string_literal_encode key _ Hk).
  cbn [append json.skip_space]. change (json.is_space ":") with false. cbv iota.
  change (Ascii.eqb ":" ":") with true. cbv iota. rewrite Hv.
  cbn [json.skip_space]. change (json.is_space ",") with false. cbv iota.
  change (Ascii.eqb "," ",") with true. cbv iota. reflexivity.
Qed.

Lemma parse_member_last (f : nat) (d : N) (key text rest : string)
    (v : json.value) (acc : list (string * json.value)) :
  strings.forallb_bytes is_ascii key = true ->
  json.parse_value f d (text ++ String "}" rest) = Some (v, String "}" rest) ->
  json.parse_members (S f) d
    (json.encode_string key ++ String ":" (text ++ String "}" rest)) acc
  = Some (json.Object (rev ((key, v) :: acc)), rest).
Proof.
  intros Hk Hv. unfold json.encode_string. cbn [append json.parse_members].
  change (Ascii.eqb dquote dquote) with true. cbv iota.
  rewrite append_assoc. cbn [append]. rewrite (string_literal_encode key _ Hk).
  cbn [append json.skip_space]. change (json.is_space ":") with false. cbv iota.
  change (Ascii.eqb ":" ":") with true. cbv iota. rewrite Hv.
  cbn [json.skip_space]. change (json.is_space "}") with false. cbv iota.
  change (Ascii.eqb "}" ",") with false. change (Ascii.eqb "}" "}") with true.
  cbv iota. reflexivity.
Qed.

Lemma parse_object_open (f : nat) (d : N) (key rest : string) :
  (d <? json.maxNestingDepth)%N = true ->
  json.parse_value (S f) d (String "{" (json.encode_string key ++ rest))
  = json.parse_members f (d + 1) (json.encode_string key ++ rest) [].
Proof.
  intros Hd.
  unfold json.encode_string. cbn [append json.parse_value json.skip_space].
  change (json.is_space "{") with false. cbv iota.
  change (Ascii.eqb "{" "{") with true. cbv iota. rewrite Hd.
  change (json.is_space dquote) with false. cbv iota.
  change (Ascii.eqb dquote "}") with false. cbv iota. reflexivity.
Qed.

Lemma skip_space_encode_string (key rest : string) :
  json.skip_space (json.encode_string key ++ rest) = json.encode_string key ++ rest.
Proof. reflexivity. Qed.

(** X22: the body that [LimitOrder] sends is a JSON text, whatever the
    number of lots, the operation (of ASCII bytes) and the finite price:
    [json.Marshal] succeeds, and what it writes parses as an object with
    the three members lots, operation and price in this order, in which
    lots is the decimal numeral of the number of lots, operation reads back
    as the string that was given, and price is a number literal. *)
Theorem LimitOrder_body_is_JSON :
  forall (P : Platform) (D : Domain) (c : TradingClient) (figi : string) (lots : Z)
         (operation : OperationType) (price : float) (u : url.URL),
    strings.forallb_bytes is_ascii operation = true ->
    PrimFloat.is_nan price || PrimFloat.is_infinity price = false ->
    url_Parse (apiURL c ++ "/orders/limit-order?figi=" ++ figi) = Some u ->
    exists body literal : string,
      requests (trace (LimitOrder c figi lots operation price))
      = [built_request c "POST" u body]
      /\ json.encode_float64 price = Ok literal
      /\ is_number literal
      /\ json.Parse body
         = Some (json.Object [ ("lots", json.Number (strconv.Itoa lots));
                               ("operation", json.Str operation);
                               ("price", json.Number literal) ]).
Proof.
  intros P D c figi lots operation price u Hop Hfin Hu.
  destruct (encode_float64_finite price Hfin) as [literal Hp].
  pose proof (encode_float64_is_number price literal Hp) as Hnum.
  pose proof (Marshal_LimitOrder_payload lots operation price) as Hm. rewrite Hp in Hm.
  eexists. exists literal. split; [|split; [exact Hp | split; [exact Hnum|]]].
  - change (LimitOrder c figi lots operation price)
      with (call c (EpLimitOrder figi lots operation price)).
    rewrite call_run, requests_run. cbn [ep_body ep_method ep_path]. rewrite Hm.
    unfold http.MethodPost.
    now rewrite (newRequest_built c "POST" _ _ u eq_refl Hu).
  - apply (Parse_complete 5 _ _ EmptyString); [|reflexivity].
    cbn [append]. rewrite parse_object_open by reflexivity.
    rewrite (parse_member_more 3 _ "lots" (strconv.Itoa lots) _
               (json.Number (strconv.Itoa lots)) [] eq_refl)
      by (apply parse_value_number; [apply Itoa_is_number | reflexivity]).
    rewrite skip_space_encode_string.
    rewrite (parse_member_more 2 _ "operation" (json.encode_string operation) _
               (json.Str operation) _ eq_refl)
      by (apply parse_value_string; exact Hop).
    rewrite skip_space_encode_string.
    rewrite (parse_member_last 1 _ "price" literal EmptyString (json.Number literal)
               _ eq_refl)
      by (apply parse_value_number; [exact Hnum | reflexivity]).
    reflexivity.
Qed.

Lemma LimitOrder_body_is_JSON_witness :
  let P := Reference.platform (Reference.answer 200 "{}") in
  exists body literal : string,
    requests (trace (LimitOrder (D := Reference.domain) Reference.client
                       "BBG000B9XRY4" (-3) (qq "Sell 'fast' <now>") 0x1p-20%float))
    = [built_request Reference.client "POST"
         {| url.Scheme := "https";
            url.Opaque := EmptyString;
            url.Host := "api-invest.tinkoff.ru";
            url.Path := "/openapi/orders/limit-order";
            url.RawPath := EmptyString;
            url.ForceQuery := false;
            url.RawQuery := "figi=BBG000B9XRY4";
            url.Fragment := EmptyString |}
         body]
    /\ json.encode_float64 0x1p-20%float = Ok literal
    /\ is_number literal
    /\ json.Parse body
       = Some (json.Object [ ("lots", json.Number (strconv.Itoa (-3)));
                             ("operation", json.Str (qq "Sell 'fast' <now>"));
                             ("price", json.Number literal) ]).
Proof.
  intros P.
  apply (@LimitOrder_body_is_JSON P Reference.domain Reference.client
           "BBG000B9XRY4" (-3) (qq "Sell 'fast' <now>") 0x1p-20%float).
  - vm_compute. reflexivity.
  - vm_compute. reflexivity.
  - vm_compute. reflexivity.
Defined.

(** * The envelope around an encoded payload *)

(** ** A value followed by more text *)

Lemma skip_space_app (s t : string) (c : ascii) (r : string) :
  json.skip_space s = String c r -> json.skip_space (s ++ t) = String c (r ++ t).
Proof.
  induction s as [|x s IH]; cbn [json.skip_space append]; [discriminate|].
  destruct (json.is_space x); [exact IH|]. now intros [= -> ->].
Qed.

Lemma skip_space_app_empty (s t : string) :
  json.skip_space s = EmptyString -> json.skip_space (s ++ t) = json.skip_space t.
Proof.
  induction s as [|x s IH]; cbn [json.skip_space append]; [reflexivity|].
  destruct (json.is_space x); [exact IH | discriminate].
Qed.

Lemma skip_space_idem (s : string) :
  json.skip_space (json.skip_space s) = json.skip_space s.
Proof.
  induction s as [|x s IH]; cbn [json.skip_space]; [reflexivity|].
  destruct (json.is_space x) eqn:E; [exact IH|]. cbn [json.skip_space]. now rewrite E.
Qed.

Lemma scan_string_tail (s t : string) :
  forall (st : json.in_string) (raw rest : string),
    json.scan_string st s = Some (raw, rest) ->
    json.scan_string st (s ++ t) = Some (raw, rest ++ t).
Proof.
  induction s as [|c s IH]; intros st raw rest; cbn [json.scan_string append];
    [discriminate|].
  assert (K : forall st',
             match json.scan_string st' s with
             | Some (raw0, rest0) => Some (String c raw0, rest0)
             | None => None
             end = Some (raw, rest) ->
             match json.scan_string st' (s ++ t) with
             | Some (raw0, rest0) => Some (String c raw0, rest0)
             | None => None
             end = Some (raw, rest ++ t)).
  { intros st'. destruct (json.scan_string st' s) as [[raw0 rest0]|] eqn:E;
      [|discriminate].
    intros [= <- <-]. now rewrite (IH _ _ _ E). }
  destruct st as [| | n].
  - destruct (Ascii.eqb c dquote); [now intros [= <- <-]|].
    destruct (Ascii.eqb c "\"); [apply K|].
    destruct (byte_code c <? 32)%N; [discriminate | apply K].
  - destruct (Ascii.eqb c "u"); [apply K|].
    destruct (existsb _ _); [apply K | discriminate].
  - destruct (json.is_hex c); [apply K | discriminate].
Qed.

Lemma string_literal_tail (s t lit rest : string) :
  json.string_literal s = Some (lit, rest) ->
  json.string_literal (s ++ t) = Some (lit, rest ++ t).
Proof.
  unfold json.string_literal.
  destruct (json.scan_string json.InString s) as [[raw r]|] eqn:E; [|discriminate].
  intros [= <- <-]. now rewrite (scan_string_tail _ t _ _ _ E).
Qed.

Lemma strip_prefix_tail (p s t r : string) :
  json.strip_prefix p s = Some r -> json.strip_prefix p (s ++ t) = Some (r ++ t).
Proof.
  revert s; induction p as [|a p IH]; intros s; cbn [json.strip_prefix].
  - now intros [= ->].
  - destruct s as [|c s]; [discriminate|]. cbn [append].
    destruct (Ascii.eqb a c); [apply IH | discriminate].
Qed.

Lemma span_tail (p : ascii -> bool) (s t a b : string) :
  json.span p s = (a, b) ->
  (b = EmptyString -> head_avoids p t) ->
  json.span p (s ++ t) = (a, b ++ t).
Proof.
  revert a b; induction s as [|c s IH]; intros a b; cbn [json.span append].
  - intros [= <- <-] Ht. specialize (Ht eq_refl).
    destruct t as [|c r]; [reflexivity|]. cbn in Ht |- *. now rewrite Ht.
  - destruct (p c).
    + destruct (json.span p s) as [a0 b0] eqn:E. intros [= <- <-] Ht.
      now rewrite (IH _ _ eq_refl Ht).
    + now intros [= <- <-] _.
Qed.

Lemma digits1_tail (s t ds rest : string) :
  json.digits1 s = Some (ds, rest) ->
  head_avoids strings.is_digit t ->
  json.digits1 (s ++ t) = Some (ds, rest ++ t).
Proof.
  unfold json.digits1. destruct (json.span strings.is_digit s) as [a b] eqn:E.
  intros H Ht. rewrite (span_tail _ s t a b E (fun _ => Ht)).
  destruct a; [discriminate|]. now injection H as <- <-.
Qed.

Lemma literal_int_tail (s t ip rest : string) :
  literal_int s = Some (ip, rest) ->
  head_avoids strings.is_digit t ->
  literal_int (s ++ t) = Some (ip, rest ++ t).
Proof.
  unfold literal_int. destruct s as [|c r]; [discriminate|]. cbn [append].
  destruct (Ascii.eqb c "0"); [now intros [= <- <-]|].
  destruct (strings.is_digit c); [|discriminate].
  destruct (json.span strings.is_digit r) as [ds b] eqn:E. intros [= <- <-] Ht.
  now rewrite (span_tail _ r t ds b E (fun _ => Ht)).
Qed.

Lemma literal_frac_tail (s t fp rest : string) :
  literal_frac s = Some (fp, rest) ->
  number_tail t = true ->
  literal_frac (s ++ t) = Some (fp, rest ++ t).
Proof.
  intros H Ht. destruct (number_tail_avoids t Ht) as (Hd & Hp & _).
  unfold literal_frac in H |- *. destruct s as [|c r]; cbn [append].
  - injection H as <- <-. destruct t as [|c r]; [reflexivity|].
    cbn in Hp. now rewrite Hp.
  - destruct (Ascii.eqb c "."); [|now injection H as <- <-].
    destruct (json.digits1 r) as [[ds b]|] eqn:E; [|discriminate].
    injection H as <- <-. now rewrite (digits1_tail r t ds b E Hd).
Qed.

Lemma literal_exp_tail (s t ep rest : string) :
  literal_exp s = Some (ep, rest) ->
  number_tail t = true ->
  literal_exp (s ++ t) = Some (ep, rest ++ t).
Proof.
  intros H Ht. destruct (number_tail_avoids t Ht) as (Hd & _ & He).
  unfold literal_exp in H |- *. destruct s as [|c r]; cbn [append].
  - injection H as <- <-. destruct t as [|c r]; [reflexivity|].
    cbn in He. now rewrite He.
  - destruct (Ascii.eqb c "e" || Ascii.eqb c "E"); [|now injection H as <- <-].
    destruct r as [|d r']; cbn [append].
    + discriminate.
    + destruct (Ascii.eqb d "+" || Ascii.eqb d "-").
      * destruct (json.digits1 r') as [[ds b]|] eqn:E; [|discriminate].
        injection H as <- <-. now rewrite (digits1_tail r' t ds b E Hd).
      * destruct (json.digits1 (String d r')) as [[ds b]|] eqn:E; [|discriminate].
        injection H as <- <-.
        change (String d (r' ++ t)) with (String d r' ++ t).
        now rewrite (digits1_tail _ t ds b E Hd).
Qed.

Lemma number_literal_tail (s t lit rest : string) :
  json.number_literal s = Some (lit, rest) ->
  number_tail t = true ->
  json.number_literal (s ++ t) = Some (lit, rest ++ t).
Proof.
  intros H Ht. destruct (number_tail_avoids t Ht) as (Hd & _ & _).
  rewrite number_literal_steps in H |- *.
  assert (Hs : literal_sign s = (fst (literal_sign s), snd (literal_sign s)))
    by now destruct (literal_sign s).
  destruct (literal_sign s) as [sign s1] eqn:Es. cbn [fst snd] in Hs. clear Hs.
  destruct (literal_int s1) as [[ip s2]|] eqn:Ei; [|discriminate].
  destruct (literal_frac s2) as [[fp s3]|] eqn:Ef; [|discriminate].
  destruct (literal_exp s3) as [[ep s4]|] eqn:Ee; [|discriminate].
  injection H as <- <-.
  assert (Hsign : literal_sign (s ++ t) = (sign, s1 ++ t)).
  { unfold literal_sign in Es |- *. destruct s as [|c r].
    - injection Es as <- <-. discriminate Ei.
    - cbn [append]. destruct (Ascii.eqb c "-"); now injection Es as <- <-. }
  now rewrite Hsign, (literal_int_tail _ t _ _ Ei Hd), (literal_frac_tail _ t _ _ Ef Ht),
    (literal_exp_tail _ t _ _ Ee Ht).
Qed.

(** The members and elements read before are kept. *)
Lemma parse_kept (f : nat) :
  (forall d s acc v r, json.parse_members f d s acc = Some (v, r) ->
     exists l, v = json.Object (rev acc ++ l)%list)
  /\ (forall d s acc v r, json.parse_elements f d s acc = Some (v, r) ->
     exists l, v = json.Array (rev acc ++ l)%list).
Proof.
  induction f as [|f [IHm IHe]]; [split; discriminate|]. split.
  - intros d s acc v r. cbn [json.parse_members].
    destruct s as [|q r0]; [discriminate|].
    destruct (Ascii.eqb q dquote); [|discriminate].
    destruct (json.string_literal r0) as [[key r1]|]; [|discriminate].
    destruct (json.skip_space r1) as [|colon r2]; [discriminate|].
    destruct (Ascii.eqb colon ":"); [|discriminate].
    destruct (json.parse_value f d r2) as [[vm r3]|]; [|discriminate].
    destruct (json.skip_space r3) as [|dd r4]; [discriminate|].
    destruct (Ascii.eqb dd ",").
    + intros H. destruct (IHm _ _ _ _ _ H) as [l ->]. exists ((key, vm) :: l)%list.
      cbn [rev]. now rewrite <- app_assoc.
    + destruct (Ascii.eqb dd "}"); [|discriminate]. intros [= <- <-].
      exists [(key, vm)]. reflexivity.
  - intros d s acc v r. cbn [json.parse_elements].
    destruct (json.parse_value f d s) as [[vm r1]|]; [|discriminate].
    destruct (json.skip_space r1) as [|dd r2]; [discriminate|].
    destruct (Ascii.eqb dd ",").
    + intros H. destruct (IHe _ _ _ _ _ H) as [l ->]. exists (vm :: l)%list.
      cbn [rev]. now rewrite <- app_assoc.
    + destruct (Ascii.eqb dd "]"); [|discriminate]. intros [= <- <-].
      exists [vm]. reflexivity.
Qed.

Lemma nesting_member (k : string) (x : json.value) (ms : list (string * json.value)) :
  In (k, x) ms -> (json.nesting x + 1 <= json.nesting (json.Object ms))%N.
Proof.
  cbn [json.nesting]. induction ms as [|[k0 x0] ms IH]; [contradiction|].
  cbn [fold_right snd]. intros [[= -> ->] | Hin]; [lia|]. specialize (IH Hin). lia.
Qed.

Lemma nesting_element (x : json.value) (vs : list json.value) :
  In x vs -> (json.nesting x + 1 <= json.nesting (json.Array vs))%N.
Proof.
  cbn [json.nesting]. induction vs as [|x0 vs IH]; [contradiction|].
  cbn [fold_right]. intros [-> | Hin]; [lia|]. specialize (IH Hin). lia.
Qed.

Lemma parse_members_empty (f : nat) (d : N) (acc : list (string * json.value)) :
  json.parse_members f d EmptyString acc = None.
Proof. now destruct f. Qed.

(** A value that is read from a text is read from the text with more
    after it, when what comes after cannot go on a number; and it is read
    at every depth that leaves room for its own nesting. *)
Lemma parse_tail (f : nat) :
  (forall d s v r, json.parse_value f d s = Some (v, r) ->
     forall d' t, number_tail t = true ->
       (d' + json.nesting v <= json.maxNestingDepth)%N ->
       json.parse_value f d' (s ++ t) = Some (v, r ++ t))
  /\ (forall d s acc v r, json.parse_members f d s acc = Some (v, r) ->
     forall d' t, number_tail t = true ->
       (d' + json.nesting v <= json.maxNestingDepth + 1)%N ->
       json.parse_members f d' (s ++ t) acc = Some (v, r ++ t))
  /\ (forall d s acc v r, json.parse_elements f d s acc = Some (v, r) ->
     forall d' t, number_tail t = true ->
       (d' + json.nesting v <= json.maxNestingDepth + 1)%N ->
       json.parse_elements f d' (s ++ t) acc = Some (v, r ++ t)).
Proof.
  induction f as [|f [IHv [IHm IHe]]]; [repeat split; discriminate|].
  destruct (parse_kept f) as [Km Ke].
  split; [|split].
  - intros d s v r H d' t Ht Hd. cbn [json.parse_value] in H |- *.
    destruct (json.skip_space s) as [|c r0] eqn:Es; [discriminate|].
    rewrite (skip_space_app s t c r0 Es).
    destruct (Ascii.eqb c "{").
    { destruct (d <? json.maxNestingDepth)%N; [|discriminate].
      destruct (json.skip_space r0) as [|c' r'] eqn:Es0; [discriminate|].
      rewrite (skip_space_app r0 t c' r' Es0).
      assert (Hlt : (d' <? json.maxNestingDepth)%N = true).
      { apply N.ltb_lt. destruct (Ascii.eqb c' "}").
        - injection H as <- <-. cbn in Hd. lia.
        - destruct (Km _ _ _ _ _ H) as [l ->]. cbn [json.nesting] in Hd. lia. }
      rewrite Hlt. destruct (Ascii.eqb c' "}"); [now injection H as <- <-|].
      refine (IHm _ _ _ _ _ H (d' + 1)%N t Ht _). lia. }
    destruct (Ascii.eqb c "[").
    { destruct (d <? json.maxNestingDepth)%N; [|discriminate].
      destruct (json.skip_space r0) as [|c' r'] eqn:Es0; [discriminate|].
      rewrite (skip_space_app r0 t c' r' Es0).
      assert (Hlt : (d' <? json.maxNestingDepth)%N = true).
      { apply N.ltb_lt. destruct (Ascii.eqb c' "]").
        - injection H as <- <-. cbn in Hd. lia.
        - destruct (Ke _ _ _ _ _ H) as [l ->]. cbn [json.nesting] in Hd. lia. }
      rewrite Hlt. destruct (Ascii.eqb c' "]"); [now injection H as <- <-|].
      refine (IHe _ _ _ _ _ H (d' + 1)%N t Ht _). lia. }
    destruct (Ascii.eqb c dquote).
    { destruct (json.string_literal r0) as [[str rest]|] eqn:E; [|discriminate].
      injection H as <- <-. now rewrite (string_literal_tail r0 t str rest E). }
    destruct (Ascii.eqb c "t").
    { destruct (json.strip_prefix "true" (String c r0)) as [rest|] eqn:E;
        [|discriminate].
      injection H as <- <-.
      change (String c (r0 ++ t)) with (String c r0 ++ t).
      now rewrite (strip_prefix_tail _ _ t _ E). }
    destruct (Ascii.eqb c "f").
    { destruct (json.strip_prefix "false" (String c r0)) as [rest|] eqn:E;
        [|discriminate].
      injection H as <- <-.
      change (String c (r0 ++ t)) with (String c r0 ++ t).
      now rewrite (strip_prefix_tail _ _ t _ E). }
    destruct (Ascii.eqb c "n").
    { destruct (json.strip_prefix "null" (String c r0)) as [rest|] eqn:E;
        [|discriminate].
      injection H as <- <-.
      change (String c (r0 ++ t)) with (String c r0 ++ t).
      now rewrite (strip_prefix_tail _ _ t _ E). }
    destruct (json.number_literal (String c r0)) as [[lit rest]|] eqn:E;
      [|discriminate].
    injection H as <- <-.
    change (String c (r0 ++ t)) with (String c r0 ++ t).
    now rewrite (number_literal_tail _ t _ _ E Ht).
  - intros d s acc v r H d' t Ht Hd. cbn [json.parse_members] in H |- *.
    destruct s as [|q r0]; [discriminate|]. cbn [append].
    destruct (Ascii.eqb q dquote); [|discriminate].
    destruct (json.string_literal r0) as [[key r1]|] eqn:Ek; [|discriminate].
    rewrite (string_literal_tail r0 t key r1 Ek).
    destruct (json.skip_space r1) as [|colon r2] eqn:Es1; [discriminate|].
    rewrite (skip_space_app r1 t colon r2 Es1).
    destruct (Ascii.eqb colon ":"); [|discriminate].
    destruct (json.parse_value f d r2) as [[vm r3]|] eqn:Ev; [|discriminate].
    destruct (json.skip_space r3) as [|dd r4] eqn:Es3; [discriminate|].
    assert (Hvm : (d' + json.nesting vm <= json.maxNestingDepth)%N).
    { assert (Hin : exists ms, v = json.Object ms /\ In (key, vm) ms).
      { destruct (Ascii.eqb dd ",").
        - destruct (Km _ _ _ _ _ H) as [l ->]. eexists. split; [reflexivity|].
          cbn [rev]. rewrite !in_app_iff. left. right. now left.
        - destruct (Ascii.eqb dd "}"); [|discriminate]. injection H as <- <-.
          eexists. split; [reflexivity|]. cbn [rev]. rewrite in_app_iff. right. now left. }
      destruct Hin as (ms & -> & Hin). pose proof (nesting_member _ _ _ Hin). lia. }
    rewrite (IHv _ _ _ _ Ev d' t Ht Hvm), (skip_space_app r3 t dd r4 Es3).
    destruct (Ascii.eqb dd ",").
    + destruct (json.skip_space r4) as [|c5 r5] eqn:Es4.
      * now rewrite parse_members_empty in H.
      * rewrite (skip_space_app r4 t c5 r5 Es4).
        exact (IHm _ _ _ _ _ H d' t Ht Hd).
    + destruct (Ascii.eqb dd "}"); [|discriminate]. now injection H as <- <-.
  - intros d s acc v r H d' t Ht Hd. cbn [json.parse_elements] in H |- *.
    destruct (json.parse_value f d s) as [[vm r1]|] eqn:Ev; [|discriminate].
    destruct (json.skip_space r1) as [|dd r2] eqn:Es1; [discriminate|].
    assert (Hvm : (d' + json.nesting vm <= json.maxNestingDepth)%N).
    { assert (Hin : exists vs, v = json.Array vs /\ In vm vs).
      { destruct (Ascii.eqb dd ",").
        - destruct (Ke _ _ _ _ _ H) as [l ->]. eexists. split; [reflexivity|].
          cbn [rev]. rewrite !in_app_iff. left. right. now left.
        - destruct (Ascii.eqb dd "]"); [|discriminate]. injection H as <- <-.
          eexists. split; [reflexivity|]. cbn [rev]. rewrite in_app_iff. right. now left. }
      destruct Hin as (vs & -> & Hin). pose proof (nesting_element _ _ Hin). lia. }
    rewrite (IHv _ _ _ _ Ev d' t Ht Hvm), (skip_space_app r1 t dd r2 Es1).
    destruct (Ascii.eqb dd ",").
    + exact (IHe _ _ _ _ _ H d' t Ht Hd).
    + destruct (Ascii.eqb dd "]"); [|discriminate]. now injection H as <- <-.
Qed.

(** ** Payloads that are read back, and the envelope around them *)

Lemma Parse_inv (data : string) (j : json.value) :
  json.Parse data = Some j ->
  exists r, json.parse_value (2 * String.length data + 1) 0 data = Some (j, r)
            /\ json.skip_space r = EmptyString.
Proof.
  unfold json.Parse.
  destruct (json.parse_value _ 0 data) as [[v r]|]; [|discriminate].
  destruct (json.skip_space r) eqn:E; [|discriminate].
  intros [= ->]. now exists r.
Qed.

Lemma encode_struct_single (key text : string) :
  json.encode_struct [(key, Ok text)] = Ok (member_text key text).
Proof.
  unfold json.encode_struct, member_text. cbn [json.encode_fields].
  cbn [append]. now rewrite !append_assoc, !append_empty_r.
Qed.

Lemma Parse_member_text (key text : string) (j : json.value) :
  strings.forallb_bytes is_ascii key = true ->
  json.Parse text = Some j ->
  (1 + json.nesting j <= json.maxNestingDepth)%N ->
  json.Parse (member_text key text) = Some (json.Object [(key, j)]).
Proof.
  intros Hk Hj Hd. destruct (Parse_inv text j Hj) as (r & Hv & Hr).
  destruct (parse_tail (2 * String.length text + 1)) as [Tv _].
  pose proof (Tv _ _ _ _ Hv 1%N "}" eq_refl Hd) as Hv'.
  apply (Parse_complete (S (S (2 * String.length text + 1))) _ _ EmptyString);
    [|reflexivity].
  unfold member_text. rewrite parse_object_open by reflexivity.
  unfold json.encode_string. cbn [append json.parse_members].
  change (Ascii.eqb dquote dquote) with true. cbv iota.
  rewrite append_assoc. cbn [append]. rewrite (string_literal_encode key _ Hk).
  cbn [json.skip_space]. change (json.is_space ":") with false. cbv iota.
  change (Ascii.eqb ":" ":") with true. cbv iota.
  change (0 + 1)%N with 1%N. rewrite Hv'.
  rewrite (skip_space_app_empty r "}" Hr). reflexivity.
Qed.

Section ReadBack.

Context {A : Type} {M : json.Marshaler A} {U : json.Unmarshaler A}.

(** A struct with one field is read back when the field is. *)
Lemma tagged_reads_back (sn : struct_name) (tag : string) (d : N) (x : A) :
  strings.forallb_bytes is_ascii tag = true ->
  reads_back (d + 1) x ->
  reads_back d (Tagged x : tagged sn tag A).
Proof.
  intros Htag (text & j & Hm & Hj & Hd & Hx).
  exists (member_text tag text), (json.Object [(tag, j)]). repeat split.
  - cbn [json.Marshal tagged_Marshaler untag]. rewrite Hm. apply encode_struct_single.
  - apply Parse_member_text; trivial. lia.
  - cbn [json.nesting fold_right snd]. lia.
  - exact (decode_tagged_single tag j x Hx).
Qed.

Lemma parse_value_skip (f : nat) (d : N) (s : string) :
  json.parse_value f d (json.skip_space s) = json.parse_value f d s.
Proof. destruct f; [reflexivity|]. cbn [json.parse_value]. now rewrite skip_space_idem. Qed.

Lemma parse_elements_skip (f : nat) (d : N) (s : string) (acc : list json.value) :
  json.parse_elements f d (json.skip_space s) acc = json.parse_elements f d s acc.
Proof. destruct f; [reflexivity|]. cbn [json.parse_elements]. now rewrite parse_value_skip. Qed.

(** No value starts with a closing bracket. *)
Lemma parse_value_head (f : nat) (d : N) (s : string) (v : json.value) (r : string) :
  json.parse_value f d s = Some (v, r) ->
  exists c r0, json.skip_space s = String c r0 /\ Ascii.eqb c "]" = false.
Proof.
  destruct f; [discriminate|]. cbn [json.parse_value].
  destruct (json.skip_space s) as [|c r0]; [discriminate|]. intros H.
  exists c, r0. split; [reflexivity|].
  destruct (Ascii.eqb_spec c "]") as [-> | _]; [|reflexivity].
  cbn in H. discriminate H.
Qed.

(** The elements of a slice that is not empty, each of them read back:
    their encodings, separated by commas and closed by a bracket, are read
    as the elements of an array, which decode to the slice. *)
Lemma elements_read_back (d : N) (l : list A) :
  l <> [] ->
  (forall x, In x l -> reads_back d x) ->
  exists (s : string) (js : list json.value),
    json.encode_elements l = Ok s
    /\ (forall acc, exists f,
          json.parse_elements f d (s ++ "]") acc
          = Some (json.Array (rev acc ++ js)%list, EmptyString))
    /\ (forall j, In j js -> (d + json.nesting j <= json.maxNestingDepth)%N)
    /\ json.decode_elements js [] = Ok l.
Proof.
  induction l as [|x l IH]; [contradiction|]. intros _ Hall.
  destruct (Hall x (or_introl eq_refl)) as (text & j & Hm & Hj & Hd & Hx).
  destruct (Parse_inv text j Hj) as (r & Hv & Hr).
  destruct (parse_tail (2 * String.length text + 1)) as [Tv _].
  destruct l as [|y l].
  - exists text, [j]. repeat split.
    + cbn [json.encode_elements]. rewrite Hm. cbn [append]. now rewrite append_empty_r.
    + intros acc. exists (S (2 * String.length text + 1)).
      cbn [json.parse_elements].
      rewrite (Tv _ _ _ _ Hv d "]" eq_refl Hd), (skip_space_app_empty r "]" Hr).
      reflexivity.
    + intros j0 [<- | []]. exact Hd.
    + cbn [json.decode_elements]. now rewrite Hx.
  - destruct IH as (s & js & Hs & Hp & Hn & Hdec); [discriminate | |].
    { intros x0 Hin. apply Hall. now right. }
    exists (text ++ String "," s), (j :: js)%list. repeat split.
    + change (json.encode_elements (x :: y :: l))
        with (match json.Marshal x with
              | Err e => Err e
              | Ok s0 =>
                  match json.encode_elements (y :: l) with
                  | Err e => Err e
                  | Ok rest => Ok (s0 ++ "," ++ rest)
                  end
              end).
      now rewrite Hm, Hs.
    + intros acc. destruct (Hp (j :: acc)%list) as [f2 Hf2].
      pose proof (Tv _ _ _ _ Hv d (String "," (s ++ "]")) eq_refl Hd) as Hv'.
      destruct (parse_fuel (2 * String.length text + 1)) as [Fv _].
      destruct (parse_fuel f2) as (_ & _ & Fe).
      set (m := Nat.max (2 * String.length (text ++ String "," (s ++ "]")) + 1)
                        (2 * String.length (s ++ "]") + 2)).
      exists (S m). cbn [json.parse_elements]. rewrite append_assoc. cbn [append].
      rewrite (proj2 (Fv _ _ _ _ Hv') m) by (subst m; lia).
      rewrite (skip_space_app_empty r _ Hr). cbn [json.skip_space].
      change (json.is_space ",") with false. cbv iota.
      change (Ascii.eqb "," ",") with true. cbv iota.
      rewrite (proj2 (Fe _ _ _ _ _ Hf2) m) by (subst m; lia).
      cbn [rev]. now rewrite <- app_assoc.
    + intros j0 [<- | Hin]; [exact Hd | now apply Hn].
    + cbn [json.decode_elements]. rewrite Hx.
      cbn [json.decode_elements] in Hdec. now rewrite Hdec.
Qed.

(** A slice is read back when its elements are. *)
Lemma slice_reads_back (d : N) (s : option (list A)) :
  (d + 1 <= json.maxNestingDepth)%N ->
  each_reads_back (d + 1) s ->
  reads_back d s.
Proof.
  intros Hd Hall. destruct s as [[|x l]|].
  - exists "[]", (json.Array []). repeat split. cbn [json.nesting fold_right]. lia.
  - destruct (elements_read_back (d + 1) (x :: l)) as (s & js & Hs & Hp & Hn & Hdec);
      [discriminate | exact Hall |].
    exists (String "[" (s ++ "]")), (json.Array js). repeat split.
    + cbn [json.Marshal json.slice_Marshaler]. now rewrite Hs.
    + destruct (Hp []) as [f Hf].
      assert (Hhead : exists c r0, json.skip_space (s ++ "]") = String c r0
                                   /\ Ascii.eqb c "]" = false).
      { destruct f as [|f]; [discriminate|]. cbn [json.parse_elements] in Hf.
        destruct (json.parse_value f (d + 1) (s ++ "]")) as [[v r]|] eqn:E;
          [|discriminate].
        exact (parse_value_head _ _ _ _ _ E). }
      destruct Hhead as (c & r0 & Hc & Hc').
      destruct (parse_tail f) as (_ & _ & Te).
      assert (H0 : json.parse_elements f 1 (s ++ "]") []
                   = Some (json.Array js, EmptyString)).
      { pose proof (Te _ _ _ _ _ Hf 1%N EmptyString eq_refl) as H1.
        rewrite !append_empty_r in H1. apply H1.
        pose proof (nesting_elements_le js (json.maxNestingDepth - (d + 1))%N) as Hle.
        cbn [rev app]. 
        assert (forall j, In j js ->
                  (json.nesting j <= json.maxNestingDepth - (d + 1))%N) as Hb.
        { intros j Hin. specialize (Hn j Hin). lia. }
        specialize (Hle Hb). lia. }
      apply (Parse_complete (S f) _ _ EmptyString); [|reflexivity].
      cbn [json.parse_value json.skip_space].
      change (json.is_space "[") with false. cbv iota.
      change (Ascii.eqb "[" "{") with false. change (Ascii.eqb "[" "[") with true.
      cbv iota. change (0 <? json.maxNestingDepth)%N with true. cbv iota.
      rewrite Hc, Hc'. rewrite <- Hc. change (0 + 1)%N with 1%N.
      now rewrite parse_elements_skip.
    + pose proof (nesting_elements_le js (json.maxNestingDepth - (d + 1))%N) as Hle.
      assert (forall j, In j js ->
                (json.nesting j <= json.maxNestingDepth - (d + 1))%N) as Hb.
      { intros j Hin. specialize (Hn j Hin). lia. }
      specialize (Hle Hb). lia.
    + cbn [json.decode json.slice_Unmarshaler json.zero]. now rewrite Hdec.
  - exists "null", json.Null. repeat split. cbn [json.nesting]. lia.
Qed.

End ReadBack.

Lemma ep_response_reads_back {P : Platform} {D : Domain} {M : Marshalers D}
    (T : Type) (e : endpoint T) (t : T) :
  ep_reads_back e t ->
  exists (body : string) (j : json.value),
    ep_response_text e t = Ok body
    /\ json.Parse body = Some j
    /\ json.decode j (json.zero : response (env_field (ep_envelope e)))
       = Ok (ep_response e t).
Proof.
  intros H.
  assert (R : exists (body : string) (j : json.value),
             ep_response_text e t = Ok body
             /\ json.Parse body = Some j
             /\ (0 + json.nesting j <= json.maxNestingDepth)%N
             /\ json.decode j (json.zero : response (env_field (ep_envelope e)))
                = Ok (ep_response e t)).
  { assert (L1 : (1 + 1 <= json.maxNestingDepth)%N) by discriminate.
    assert (L2 : (2 + 1 <= json.maxNestingDepth)%N) by discriminate.
    destruct e; cbn [ep_reads_back] in H;
      cbn [ep_response_text ep_response ep_envelope whole named env_field];
      first
        [ exact (@tagged_reads_back _ _ _ _ "payload" 0 _ eq_refl H)
        | exact (@tagged_reads_back _ _ _ _ "payload" 0 _ eq_refl
                   (@slice_reads_back _ _ _ 1 _ L1 H))
        | exact (@tagged_reads_back _ _ _ _ "payload" 0 _ eq_refl
                   (@tagged_reads_back _ _ _ _ "instruments" 1 _ eq_refl
                      (@slice_reads_back _ _ _ 2 _ L2 H)))
        | exact (@tagged_reads_back _ _ _ _ "payload" 0 _ eq_refl
                   (@tagged_reads_back _ _ _ _ "positions" 1 _ eq_refl
                      (@slice_reads_back _ _ _ 2 _ L2 H)))
        | exact (@tagged_reads_back _ _ _ _ "payload" 0 _ eq_refl
                   (@tagged_reads_back _ _ _ _ "currencies" 1 _ eq_refl
                      (@slice_reads_back _ _ _ 2 _ L2 H))) ]. }
  destruct R as (body & j & Hm & Hj & _ & Hd). now exists body, j.
Qed.

Lemma env_get_ep_response {P : Platform} {D : Domain} (T : Type) (e : endpoint T)
    (t : T) :
  env_get (ep_envelope e) (Payload_of (ep_response e t)) = t.
Proof. destruct e; reflexivity. Qed.

(** C6, amended: the envelope around a payload loses nothing that the
    payload's own encoding keeps.  If [json.Marshal] encodes the payload
    and [json.Unmarshal] reads the encoding back as the same value (for a
    list: if this holds of each of its elements), nested no deeper than
    the scanner allows inside the envelope, then [json.Marshal] encodes the
    envelope with the payload in it, the envelope decoder of the endpoint
    returns the payload from that text, and so does the endpoint when a
    response of status 200 carries it. *)
Theorem envelope_round_trip :
  forall (P : Platform) (D : Domain) (M : Marshalers D) (c : TradingClient)
         (T : Type) (e : endpoint T) (t : T),
    ep_reads_back e t ->
    exists body : string,
      ep_response_text e t = Ok body
      /\ env_unmarshal (ep_envelope e) body = Ok t
      /\ forall (b : option string) (req : http.Request),
           ep_body e = Ok b ->
           newRequest c (ep_method e) (ep_path c e) b = Ok req ->
           Client_Do (httpClient c) req =
             Ok {| http.StatusCode := 200; http.Response_Body := (body, None) |} ->
           value (call c e) = (t, None).
Proof.
  intros P D M c T e t H.
  destruct (ep_response_reads_back T e t H) as (body & j & Hm & Hj & Hd).
  assert (Hu : env_unmarshal (ep_envelope e) body = Ok t).
  { rewrite (env_unmarshal_parsed _ _ _ _ Hj), Hd. apply f_equal, env_get_ep_response. }
  exists body. split; [exact Hm | split; [exact Hu|]].
  intros b req Hb Hn Hdo.
  now rewrite call_run, (run_200 c T e b req body Hb Hn Hdo), Hu.
Qed.

(** A string of ASCII bytes is read back, and so is a struct with one
    field that holds one. *)
Lemma string_reads_back (d : N) (s : string) :
  strings.forallb_bytes is_ascii s = true ->
  (d <= json.maxNestingDepth)%N ->
  reads_back d s.
Proof.
  intros Hs Hd. exists (json.encode_string s), (json.Str s). repeat split.
  - apply (Parse_complete 1 _ _ EmptyString); [|reflexivity].
    rewrite <- (append_empty_r (json.encode_string s)).
    now apply parse_value_string.
  - cbn [json.nesting]. lia.
Qed.

Lemma item_reads_back (d : N) (figi : string) :
  strings.forallb_bytes is_ascii figi = true ->
  (d + 1 <= json.maxNestingDepth)%N ->
  reads_back d (Tagged figi : Reference.item).
Proof.
  intros Hs Hd. apply (tagged_reads_back _ "figi" d figi eq_refl).
  now apply string_reads_back.
Qed.

Lemma envelope_round_trip_witness :
  let P := Reference.platform
             (Reference.answer 200
                (qq "{'payload':{'instruments':[{'figi':'BBG000B9XRY4'},{'figi':'<&>'}]}}")) in
  let t : option (list (@Instrument Reference.domain)) :=
    Some [Tagged "BBG000B9XRY4"; Tagged "<&>"] in
  exists body : string,
    ep_response_text (M := Reference_marshalers) EpStocks t = Ok body
    /\ env_unmarshal (ep_envelope (D := Reference.domain) EpStocks) body = Ok t
    /\ forall (b : option string) (req : http.Request),
         ep_body (D := Reference.domain) EpStocks = Ok b ->
         newRequest Reference.client (ep_method (D := Reference.domain) EpStocks)
           (ep_path (D := Reference.domain) Reference.client EpStocks) b = Ok req ->
         Client_Do (httpClient Reference.client) req =
           Ok {| http.StatusCode := 200; http.Response_Body := (body, None) |} ->
         value (call (D := Reference.domain) Reference.client EpStocks) = (t, None).
Proof.
  intros P t.
  apply (@envelope_round_trip P Reference.domain Reference_marshalers Reference.client
           _ EpStocks t).
  intros x [<- | [<- | []]].
  - eexists. eexists. split; [reflexivity|]. split; [vm_compute; reflexivity|].
    split; [vm_compute; discriminate | reflexivity].
  - eexists. eexists. split; [reflexivity|]. split; [vm_compute; reflexivity|].
    split; [vm_compute; discriminate | reflexivity].
Defined.

(** C6, as the spec has it, fails: a payload whose string is not of
    valid UTF-8 does not come back.  [json.Marshal] writes the byte 255 as
    the escape of U+FFFD, and from the envelope around it
    [SearchInstrumentByFIGI] returns the three bytes of U+FFFD, not the
    byte that was encoded. *)
Lemma invalid_UTF8_is_not_read_back :
  let sent : @Instrument Reference.domain := Tagged (String (byte_of 255) EmptyString) in
  let got : @Instrument Reference.domain := Tagged (utf8.EncodeRune utf8.RuneError) in
  let body := qq ("{'payload':{'figi':'\u" ++ "fffd'}}") in
  let P := Reference.platform (Reference.answer 200 body) in
  ep_response_text (M := Reference_marshalers)
    (EpSearchInstrumentByFIGI "BBG000B9XRY4") sent = Ok body
  /\ env_unmarshal
       (ep_envelope (D := Reference.domain) (EpSearchInstrumentByFIGI "BBG000B9XRY4"))
       body = Ok got
  /\ value (SearchInstrumentByFIGI (D := Reference.domain) Reference.client
              "BBG000B9XRY4") = (got, None)
  /\ got <> sent.
Proof.
  intros sent got body P. repeat split; try (vm_compute; reflexivity).
  vm_compute. discriminate.
Qed.
